(** * Transport and protocol layer of the Go generative-AI client

    A shallow embedding of the request/response core of the client
    (resource naming, error decoding, the event-stream scanner and
    iterator, the chunked uploader and the realtime session's [Send]),
    with the properties of its specification stated and settled
    against the code; and of the code around it (the transforms on
    dynamic values, the base URLs, the defaults of a request, the
    building and sending of requests, the realtime session's [Connect]
    and [Receive]), with the properties the code itself shows.

    Conventions.  A Go [string] is a [string]; a Go [[]byte] is a
    [list byte]; a Go [int]/[int64] is a [Z] (with the wrap-around
    written out where the code computes with it); a Go
    [map[string]any] is a [gmap string any]; a pair of results
    [(v, err)] is a pair whose second component is an [option error]
    ([None] is the [nil] error); a call that can panic returns an
    [outcome].  Calls into libraries the repository depends on
    (encoding/json, net/http, io, the websocket package) are
    parameters of the sections that use them. *)

From Stdlib Require Import ZArith List Strings.String Strings.Ascii Strings.Byte
  Bool Lia DecimalString.
From stdpp Require Import base list strings gmap.

Open Scope string_scope.
Open Scope list_scope.
Open Scope Z_scope.

#[global] Instance byte_eq_dec : EqDecision byte := Byte.byte_eq_dec.

(** ** Values of type [any], errors, outcomes *)

(** The dynamic values the code passes around as [any]: the shapes a
    decoded JSON document has, Go integers, and response headers (which
    [deserializeUnaryResponse] stores under ["httpHeaders"]). *)
#[warnings="-register-all"]
Inductive any : Type :=
| ANil
| ABool (b : bool)
| AInt (z : Z)
| ANumber (literal : string)
| AStr (s : string)
| ASlice (l : list any)
| AMap (m : gmap string any)
| AHeader (h : gmap string (list string)).

#[global] Instance any_eq_dec : EqDecision any.
Proof.
  refine (fix go (x y : any) : Decision (x = y) :=
    match x, y with
    | ANil, ANil => left eq_refl
    | ABool a, ABool b => cast_if (decide (a = b))
    | AInt a, AInt b => cast_if (decide (a = b))
    | ANumber a, ANumber b => cast_if (decide (a = b))
    | AStr a, AStr b => cast_if (decide (a = b))
    | ASlice a, ASlice b => cast_if (@list_eq_dec _ go a b)
    | AMap a, AMap b => cast_if (@gmap_eq_dec _ _ _ _ go a b)
    | AHeader a, AHeader b => cast_if (decide (a = b))
    | _, _ => right _
    end); abstract congruence.
Defined.

(** APIError contains an error response from the server. *)
Record APIError : Type := mkAPIError {
  Code : Z;
  Message : string;
  Status : string;
  Details : list (gmap string any)
}.

(** Go [error] values: [Errorf format args wrapped] is
    [fmt.Errorf(format, args...)], where [wrapped] is the error its
    [%w] verb wraps; [LibError] is an error returned by a library;
    [APIErr] is an [APIError] used as an error. *)
#[warnings="-register-all"]
Inductive error : Type :=
| Errorf (format : string) (args : list any) (wrapped : option error)
| LibError (msg : string)
| APIErr (e : APIError).

#[global] Instance APIError_eq_dec : EqDecision APIError.
Proof. solve_decision. Defined.

#[global] Instance error_eq_dec : EqDecision error.
Proof.
  refine (fix go (x y : error) : Decision (x = y) :=
    match x, y with
    | Errorf f a w, Errorf f' a' w' =>
        cast_if_and3 (decide (f = f')) (decide (a = a')) (@option_eq_dec _ go w w')
    | LibError a, LibError b => cast_if (decide (a = b))
    | APIErr a, APIErr b => cast_if (decide (a = b))
    | _, _ => right _
    end); abstract congruence.
Defined.

(** A call either returns or panics. *)
Inductive outcome (A : Type) : Type :=
| Returns (a : A)
| Panics (reason : string).
Arguments Returns {A} a.
Arguments Panics {A} reason.

Definition obind {A B : Type} (o : outcome A) (k : A -> outcome B) : outcome B :=
  match o with
  | Returns a => k a
  | Panics r => Panics r
  end.

Notation "x <-! o ;; k" := (obind o (fun x => k))
  (at level 100, o at next level, right associativity).

(** ** The functions of package [strings] the code calls *)

Module GoStrings.

(** [strings.HasPrefix(s, prefix)] *)
Definition HasPrefix (s prefix : string) : bool := String.prefix prefix s.

(** [strings.Index(s, substr)]: the index of the first instance of
    [substr] in [s], or [-1]. *)
Fixpoint Index (s substr : string) : Z :=
  if String.prefix substr s then 0
  else match s with
       | EmptyString => -1
       | String _ s' => let i := Index s' substr in
                        if i <? 0 then -1 else i + 1
       end.

(** [strings.Contains(s, substr)] *)
Definition Contains (s substr : string) : bool := 0 <=? Index s substr.

(** [strings.Count(s, substr)] for a non-empty [substr]: the number of
    non-overlapping instances.  [skip] counts the bytes of the instance
    just matched that are still to be stepped over. *)
Fixpoint Count_from (skip : nat) (s substr : string) : Z :=
  match s with
  | EmptyString => 0
  | String _ s' =>
      match skip with
      | S k => Count_from k s' substr
      | O => if String.prefix substr s
             then 1 + Count_from (String.length substr - 1) s' substr
             else Count_from O s' substr
      end
  end.

Definition Count (s substr : string) : Z := Count_from O s substr.

(** [s[i:]] and [s[:i]] *)
Fixpoint drop (n : nat) (s : string) : string :=
  match n, s with
  | O, _ => s
  | S k, String _ s' => drop k s'
  | S _, EmptyString => EmptyString
  end.

Fixpoint take (n : nat) (s : string) : string :=
  match n, s with
  | O, _ => EmptyString
  | S k, String c s' => String c (take k s')
  | S _, EmptyString => EmptyString
  end.

(** [strings.SplitN(s, sep, 2)] for a non-empty [sep]: [s] cut at the
    first instance of [sep], or [s] alone when there is none. *)
Definition SplitN2 (s sep : string) : list string :=
  let i := Index s sep in
  if i <? 0 then [s]
  else [take (Z.to_nat i) s; drop (Z.to_nat i + String.length sep) s].

End GoStrings.

(** ** Client configuration *)

Inductive Backend : Type := BackendGoogleAI | BackendVertexAI.

#[global] Instance Backend_eq_dec : EqDecision Backend.
Proof. solve_decision. Defined.

Record ClientConfig : Type := mkClientConfig {
  backend : Backend;
  Project : string;
  Location : string;
  APIKey : string
}.

Record apiClient : Type := mkApiClient { clientConfig : ClientConfig }.

(** A client of the hosted backend and one of the direct backend. *)
Definition vertexClient (project location : string) : apiClient :=
  mkApiClient (mkClientConfig BackendVertexAI project location "").

Definition mldevClient (apiKey : string) : apiClient :=
  mkApiClient (mkClientConfig BackendGoogleAI "" "" apiKey).

(** ** Resource Namer (transformer.go) *)

Definition tResourceName (ac : apiClient) (resourceName : string)
    (collectionIdentifier : string) (collectionHierarchyDepth : Z) : string :=
  let shouldPrependCollectionIdentifier :=
    negb (GoStrings.HasPrefix resourceName (collectionIdentifier +:+ "/")) &&
    (GoStrings.Count (collectionIdentifier +:+ "/" +:+ resourceName) "/" + 1
       =? collectionHierarchyDepth) in
  match backend (clientConfig ac) with
  | BackendVertexAI =>
      if GoStrings.HasPrefix resourceName "projects/" then
        resourceName
      else if GoStrings.HasPrefix resourceName "locations/" then
        "projects/" +:+ Project (clientConfig ac) +:+ "/" +:+ resourceName
      else if GoStrings.HasPrefix resourceName (collectionIdentifier +:+ "/") then
        "projects/" +:+ Project (clientConfig ac) +:+ "/locations/" +:+
          Location (clientConfig ac) +:+ "/" +:+ resourceName
      else if shouldPrependCollectionIdentifier then
        "projects/" +:+ Project (clientConfig ac) +:+ "/locations/" +:+
          Location (clientConfig ac) +:+ "/" +:+ collectionIdentifier +:+ "/" +:+
          resourceName
      else
        resourceName
  | _ =>
      if shouldPrependCollectionIdentifier then
        collectionIdentifier +:+ "/" +:+ resourceName
      else
        resourceName
  end.

(** [name.(string)]: the unchecked type assertion panics on a value that
    is not a string. *)
Definition assert_string (v : any) : outcome string :=
  match v with
  | AStr s => Returns s
  | _ => Panics "interface conversion: interface {} is not string"
  end.

Definition tCachedContentName (ac : apiClient) (name : any)
    : outcome (string * option error) :=
  s <-! assert_string name ;;
  Returns (tResourceName ac s "cachedContents" 2, None).

Definition tModel (ac : apiClient) (origin : any) : string * option error :=
  match origin with
  | AStr model =>
      if String.eqb model "" then
        ("", Some (Errorf "tModel: model is empty" [] None))
      else if bool_decide (backend (clientConfig ac) = BackendVertexAI) then
        if GoStrings.HasPrefix model "projects/" || GoStrings.HasPrefix model "models/"
           || GoStrings.HasPrefix model "publishers/" then
          (model, None)
        else if GoStrings.Contains model "/" then
          (* [parts[0]] and [parts[1]] are in range: [model] contains the
             separator, so [SplitN] returns two parts ([SplitN2_length]) *)
          let parts := GoStrings.SplitN2 model "/" in
          ("publishers/" +:+ nth 0 parts "" +:+ "/models/" +:+ nth 1 parts "", None)
        else
          ("publishers/google/models/" +:+ model, None)
      else
        if GoStrings.HasPrefix model "models/" || GoStrings.HasPrefix model "tunedModels/" then
          (model, None)
        else
          ("models/" +:+ model, None)
  | _ => ("", Some (Errorf "tModel: model is not a string" [] None))
  end.

Definition tModelFullName (ac : apiClient) (origin : any) : string * option error :=
  match origin with
  | AStr model =>
      match tModel ac (AStr model) with
      | (_, Some err) => ("", Some (Errorf "tModelFullName: %w" [] (Some err)))
      | (name, None) =>
          if GoStrings.HasPrefix name "publishers/"
             && bool_decide (backend (clientConfig ac) = BackendVertexAI) then
            ("projects/" +:+ Project (clientConfig ac) +:+ "/locations/" +:+
               Location (clientConfig ac) +:+ "/" +:+ name, None)
          else if GoStrings.HasPrefix name "models/"
                  && bool_decide (backend (clientConfig ac) = BackendVertexAI) then
            ("projects/" +:+ Project (clientConfig ac) +:+ "/locations/" +:+
               Location (clientConfig ac) +:+ "/publishers/google/" +:+ name, None)
          else
            (name, None)
      end
  | _ => ("", Some (Errorf "tModelFullName: model is not a string" [] None))
  end.

Definition tCachesModel (ac : apiClient) (origin : any) : string * option error :=
  tModelFullName ac origin.

(** ** The functions of package [bytes] the code calls *)

Module GoBytes.

(** [bytes.HasPrefix(s, prefix)] *)
Fixpoint HasPrefix (s prefix : list byte) {struct prefix} : bool :=
  match prefix, s with
  | [], _ => true
  | p :: prefix', c :: s' => bool_decide (p = c) && HasPrefix s' prefix'
  | _ :: _, [] => false
  end.

(** [bytes.Index(s, sep)]: the index of the first instance of [sep] in
    [s], or [-1]. *)
Fixpoint Index (s sep : list byte) : Z :=
  if HasPrefix s sep then 0
  else match s with
       | [] => -1
       | _ :: s' => let i := Index s' sep in
                    if i <? 0 then -1 else i + 1
       end.

(** [bytes.Cut(s, sep)]: [s] around the first instance of [sep]. *)
Definition Cut (s sep : list byte) : list byte * list byte * bool :=
  let i := Index s sep in
  if 0 <=? i then
    (take (Z.to_nat i) s, drop (Z.to_nat i + length sep) s, true)
  else (s, [], false).

End GoBytes.

(** [len(s)] *)
Definition len {A : Type} (s : list A) : Z := Z.of_nat (length s).

(** ** The split function of the Stream Decoder *)

Definition CR : byte := "013"%byte.
Definition LF : byte := "010"%byte.

(** dropCR drops a terminal \r from the data. *)
Definition dropCR (data : list byte) : list byte :=
  if (0 <? len data) && bool_decide (data !! (length data - 1)%nat = Some CR)
  then take (length data - 1)%nat data
  else data.

(** The result is [(advance, token, err)]; the token is [None] for Go's
    [nil] slice, which the scanner takes as "no token yet". *)
Definition scan (data : list byte) (atEOF : bool)
    : Z * option (list byte) * option error :=
  if atEOF && (len data =? 0) then
    (0, None, None)
  else
    (* Look for two consecutive newlines in the data *)
    let i := GoBytes.Index data [LF; LF] in
    if 0 <=? i then
      (i + 2, Some (dropCR (take (Z.to_nat i) data)), None)
    else
      (* Handle the case of Windows-style newlines (\r\n\r\n) *)
      let i := GoBytes.Index data [CR; LF; CR; LF] in
      if 0 <=? i then
        (i + 4, Some (dropCR (take (Z.to_nat i) data)), None)
      else if atEOF then
        (* the final, non-terminated line *)
        (len data, Some (dropCR data), None)
      else
        (* Request more data. *)
        (0, None, None).

(** The split function as the specification words it: the token is what
    precedes the first blank-line delimiter of either kind.
    [first_delimiter data] is the position and the length of the first
    instance of ["\n\n"] or ["\r\n\r\n"] in [data]. *)
Fixpoint first_delimiter (data : list byte) : option (nat * nat) :=
  if GoBytes.HasPrefix data [LF; LF] then Some (0%nat, 2%nat)
  else if GoBytes.HasPrefix data [CR; LF; CR; LF] then Some (0%nat, 4%nat)
  else match data with
       | [] => None
       | _ :: data' =>
           match first_delimiter data' with
           | Some (i, k) => Some (S i, k)
           | None => None
           end
       end.

Definition scan_as_specified (data : list byte) (atEOF : bool)
    : Z * option (list byte) * option error :=
  match first_delimiter data with
  | Some (i, k) => (Z.of_nat (i + k), Some (dropCR (take i data)), None)
  | None => if atEOF then (len data, Some data, None) else (0, None, None)
  end.

(** ** HTTP messages *)

Module http.

(** [http.Header]: canonical header names to their values. *)
Abbreviation Header := (gmap string (list string)).

(** [h.Get(key)] for a canonical [key]: the first value, or [""]. *)
Definition Get (h : Header) (key : string) : string :=
  match h !! key with
  | Some (v :: _) => v
  | _ => ""
  end.

(** [h.Set(key, value)] for a canonical [key] *)
Definition Set_ (h : Header) (key value : string) : Header :=
  <[key := [value]]> h.

End http.

(** A response body is read once, to its end: [Body] is what
    [io.ReadAll] returns for it. *)
Module Response.
Record t : Type := mk {
  StatusCode : Z;
  Status : string;
  Header : http.Header;
  Body : list byte * option error
}.
End Response.

Module Request.
Record t : Type := mk {
  Method : string;
  URL : string;
  Header : http.Header;
  Body : list byte
}.
End Request.

Definition io_ReadAll (body : list byte * option error) : list byte * option error :=
  body.

Record responseWithError : Type := mkResponseWithError {
  ErrorInfo : option APIError
}.

Definition httpStatusOk (resp : Response.t) : bool :=
  (200 <=? Response.StatusCode resp) && (Response.StatusCode resp <? 300).

(** ** Transport Executor: classification of responses, error decoding *)

Section Transport.

(** [json.Unmarshal(data, v)] for [v] a [*responseWithError] and for
    [v] a [*map[string]any]: the value [v] points to after the call,
    and the error.  A [nil] map is [None]. *)
Variable json_Unmarshal_responseWithError :
  list byte -> responseWithError -> responseWithError * option error.
Variable json_Unmarshal_map :
  list byte -> option (gmap string any) -> option (gmap string any) * option error.

Definition newAPIError (resp : Response.t) : outcome error :=
  let respWithError := {| ErrorInfo := None |} in
  let '(body, err) := io_ReadAll (Response.Body resp) in
  match err with
  | Some err =>
      Returns (Errorf "newAPIError: error reading response body: %w. Response: %v"
                 [AStr (string_of_list_byte body)] (Some err))
  | None =>
      if 0 <? len body then
        let '(respWithError, err) :=
          json_Unmarshal_responseWithError body respWithError in
        match err with
        | Some err =>
            Returns (Errorf "newAPIError: unmarshal response to error failed: %w. Response: %v"
                       [AStr (string_of_list_byte body)] (Some err))
        | None =>
            (* [return *respWithError.ErrorInfo] *)
            match ErrorInfo respWithError with
            | Some e => Returns (APIErr e)
            | None => Panics "invalid memory address or nil pointer dereference"
            end
        end
      else
        Returns (APIErr {| Code := Response.StatusCode resp;
                           Message := "";
                           Status := Response.Status resp;
                           Details := [] |})
  end.

Definition deserializeUnaryResponse (resp : Response.t)
    : outcome (option (gmap string any) * option error) :=
  if negb (httpStatusOk resp) then
    e <-! newAPIError resp ;; Returns (None, Some e)
  else
    let '(respBody, err) := io_ReadAll (Response.Body resp) in
    match err with
    | Some err => Returns (None, Some err)
    | None =>
        let output := Some (∅ : gmap string any) in
        let '(output, err) :=
          if 0 <? len respBody then json_Unmarshal_map respBody output
          else (output, None) in
        match err with
        | Some err =>
            Returns (None,
                     Some (Errorf "deserializeUnaryResponse: error unmarshalling response: %w\n%s"
                             [AStr (string_of_list_byte respBody)] (Some err)))
        | None =>
            (* [output["httpHeaders"] = resp.Header] *)
            match output with
            | Some m =>
                Returns (Some (<["httpHeaders" := AHeader (Response.Header resp)]> m), None)
            | None => Panics "assignment to entry in nil map"
            end
        end
    end.

End Transport.

(** ** Stream Decoder: the iterator over the scanner's tokens *)

(** What the run of an iterator does, in order. *)
Inductive event (R : Type) : Type :=
| EvYield (item : option R * option error)
| EvConvert (responseMap : option (gmap string any))
| EvLog (format : string)
| EvClose.
Arguments EvYield {R} item.
Arguments EvConvert {R} responseMap.
Arguments EvLog {R} format.
Arguments EvClose {R}.

(** The scanner of a response stream, after [deserializeStreamResponse]
    set [scan] as its split function: the tokens that successive calls of
    [Scan] deliver, and the error [Err] reports when [Scan] has returned
    false.  [rc] is the response body: what [Close] returns. *)
Record responseStream : Type := mkResponseStream {
  r_tokens : list (list byte);
  r_Err : option error;
  rc_Close : option error
}.

Definition bufio_ErrTooLong : error := LibError "bufio.Scanner: token too long".

Section Iterator.

(** The event type of the stream, the consumer's state. *)
Variables (R St : Type).

Variable json_Unmarshal_map :
  list byte -> option (gmap string any) -> option (gmap string any) * option error.

(** The caller-supplied conversion function. *)
Variable responseConverter : option (gmap string any) -> option R * option error.

(** The body of the consumer's [for ... range] loop: [false] stops the
    iteration. *)
Variable yield : option R * option error -> St -> bool * St.

Definition item : Type := option R * option error.

(** The state of a run: the consumer's state and the events so far
    (latest last). *)
Definition run : Type := St * list (event R).

Definition do_yield (it : item) (s : run) : bool * run :=
  let '(continue, st) := yield it (fst s) in
  (continue, (st, snd s ++ [EvYield it])).

(** Step 3: yield the response. *)
Definition yield_response (resp : option R) (s : run) : bool * run :=
  do_yield (resp, None) s.

(** Step 2: convert the map and report a conversion error. *)
Definition convert_and_yield (respRaw : option (gmap string any)) (s : run)
    : bool * run :=
  let '(resp, err) := responseConverter respRaw in
  let s := (fst s, snd s ++ [EvConvert respRaw]) in
  match err with
  | Some err =>
      let '(continue, s) := do_yield (None, Some err) s in
      if negb continue then (false, s) else yield_response resp s
  | None => yield_response resp s
  end.

(** One turn of the loop for the token [line]; [false] is the
    [return] that ends the iteration. *)
Definition iterate_token (line : list byte) (s : run) : bool * run :=
  if len line =? 0 then (true, s)
  else
    let '(prefix, data, _) := GoBytes.Cut line [":"%byte] in
    if String.eqb (string_of_list_byte prefix) "data" then
      (* Step 1: unmarshal the JSON into a map *)
      let respRaw := Some (∅ : gmap string any) in
      let '(respRaw, err) := json_Unmarshal_map data respRaw in
      match err with
      | Some err =>
          let err :=
            Errorf "iterateResponseStream: error unmarshalling data %s:%s. error: %w"
              [AStr (string_of_list_byte prefix); AStr (string_of_list_byte data)]
              (Some err) in
          let '(continue, s) := do_yield (None, Some err) s in
          if negb continue then (false, s) else convert_and_yield respRaw s
      | None => convert_and_yield respRaw s
      end
    else
      (* Stream chunk not started with "data" is treated as an error. *)
      do_yield (None,
                Some (Errorf "iterateResponseStream: invalid stream chunk: %s:%s"
                        [AStr (string_of_list_byte prefix);
                         AStr (string_of_list_byte data)] None)) s.

(** [for rs.r.Scan() { ... }] *)
Fixpoint iterate_tokens (tokens : list (list byte)) (s : run) : bool * run :=
  match tokens with
  | [] => (true, s)
  | line :: tokens' =>
      let '(continue, s) := iterate_token line s in
      if continue then iterate_tokens tokens' s else (false, s)
  end.

Definition log (format : string) (s : run) : run :=
  (fst s, snd s ++ [EvLog format]).

(** The deferred function: close the response body. *)
Definition close_body (rs : responseStream) (s : run) : run :=
  let s := (fst s, snd s ++ [EvClose]) in
  match rc_Close rs with
  | Some _ => log "Error closing response body: %v" s
  | None => s
  end.

Definition iterateResponseStream (rs : responseStream) (st : St) : run :=
  let '(completed, s) := iterate_tokens (r_tokens rs) (st, []) in
  let s :=
    if completed then
      match r_Err rs with
      | Some err =>
          let s :=
            if decide (err = bufio_ErrTooLong) then
              log "The response is too large to process in streaming mode. Please use a non-streaming method." s
            else s in
          log "Error %v" s
      | None => s
      end
    else s in
  close_body rs s.

Definition event_item (e : event R) : option item :=
  match e with EvYield it => Some it | _ => None end.

Definition event_converted (e : event R) : option (option (gmap string any)) :=
  match e with EvConvert m => Some m | _ => None end.

(** The items a run yielded, in order. *)
Definition yielded (s : run) : list item := omap event_item (snd s).

(** The maps the conversion function was called with, in order. *)
Definition converted (s : run) : list (option (gmap string any)) :=
  omap event_converted (snd s).

(** The items that a run over the tokens [tokens] yields, and the maps
    the conversion function is called with during it. *)
Definition items_of (tokens : list (list byte)) (st : St) : list item :=
  yielded (iterateResponseStream (mkResponseStream tokens None None) st).

Definition converted_of (tokens : list (list byte)) (st : St)
    : list (option (gmap string any)) :=
  converted (iterateResponseStream (mkResponseStream tokens None None) st).

(** The prefix of a token (the text before the first [:]) and its
    payload (the bytes after it). *)
Definition token_prefix (line : list byte) : string :=
  string_of_list_byte (fst (fst (GoBytes.Cut line [":"%byte]))).

Definition token_payload (line : list byte) : list byte :=
  snd (fst (GoBytes.Cut line [":"%byte])).

(** The errors a token is reported with: its prefix is not [data]; its
    payload fails JSON parsing with the error [e]. *)
Definition invalid_chunk_error (line : list byte) : error :=
  Errorf "iterateResponseStream: invalid stream chunk: %s:%s"
    [AStr (token_prefix line); AStr (string_of_list_byte (token_payload line))] None.

Definition unmarshal_error (line : list byte) (e : error) : error :=
  Errorf "iterateResponseStream: error unmarshalling data %s:%s. error: %w"
    [AStr (token_prefix line); AStr (string_of_list_byte (token_payload line))] (Some e).

(** The token [line] is faulty, and [err] is the error it is reported
    with: its prefix is not [data], or its payload fails JSON parsing, or
    the conversion of the parsed map fails. *)
Definition faulty_token (line : list byte) (err : error) : Prop :=
  (token_prefix line <> "data" /\ err = invalid_chunk_error line) \/
  (token_prefix line = "data" /\
   exists respRaw e,
     json_Unmarshal_map (token_payload line) (Some ∅) = (respRaw, Some e) /\
     err = unmarshal_error line e) \/
  (token_prefix line = "data" /\
   exists respRaw resp,
     json_Unmarshal_map (token_payload line) (Some ∅) = (respRaw, None) /\
     responseConverter respRaw = (resp, Some err)).

(** The token [line] is a well-formed [data:] token that decodes into
    the event [ev]. *)
Definition well_formed_token (line : list byte) (ev : R) : Prop :=
  token_prefix line = "data" /\
  exists respRaw,
    json_Unmarshal_map (token_payload line) (Some ∅) = (respRaw, None) /\
    responseConverter respRaw = (Some ev, None).

(** The events of one token, for a consumer that keeps pulling. *)
Definition token_events (line : list byte) : list (event R) :=
  if len line =? 0 then []
  else
    let '(prefix, data, _) := GoBytes.Cut line [":"%byte] in
    if String.eqb (string_of_list_byte prefix) "data" then
      let '(respRaw, uerr) := json_Unmarshal_map data (Some ∅) in
      let '(resp, cerr) := responseConverter respRaw in
      match uerr with
      | Some err =>
          [EvYield (None,
             Some (Errorf "iterateResponseStream: error unmarshalling data %s:%s. error: %w"
                     [AStr (string_of_list_byte prefix); AStr (string_of_list_byte data)]
                     (Some err)))]
      | None => []
      end ++
      [EvConvert respRaw] ++
      match cerr with
      | Some err => [EvYield (None, Some err)]
      | None => []
      end ++
      [EvYield (resp, None)]
    else
      [EvYield (None,
         Some (Errorf "iterateResponseStream: invalid stream chunk: %s:%s"
                 [AStr (string_of_list_byte prefix); AStr (string_of_list_byte data)]
                 None))].

End Iterator.

(** ** Chunked Uploader *)

Definition maxChunkSize : Z := 8 * 1024 * 1024. (* 8 MB chunk size *)

(** The range of an [int64], and its arithmetic, which wraps around. *)
Definition in_int64 (z : Z) : Prop := - 2 ^ 63 <= z < 2 ^ 63.

Definition wrap64 (z : Z) : Z := (z + 2 ^ 63) mod 2 ^ 64 - 2 ^ 63.

(** [float64(x)] for an [int64] [x]: the nearest number with a 53-bit
    significand, ties to even.  The result is always an integer, so it is
    kept as a [Z]. *)
Definition float64_of_int64 (x : Z) : Z :=
  let a := Z.abs x in
  if a <? 2 ^ 53 then x
  else
    let e := Z.log2 a - 52 in
    let q := a / 2 ^ e in
    let r := a mod 2 ^ e in
    let half := 2 ^ (e - 1) in
    let q := if r <? half then q
             else if half <? r then q + 1
             else if Z.even q then q else q + 1 in
    Z.sgn x * (q * 2 ^ e).

(** [strconv.FormatInt(i, 10)] *)
Definition strconv_FormatInt (i : Z) : string := NilZero.string_of_int (Z.to_int i).

Section Uploader.

(** The [File] record and its zero value. *)
Variable File : Type.
Variable zeroFile : File.

(** The source [r] and [r.Read(buffer)] for a buffer of [n] bytes: the
    number of bytes read, the bytes [buffer[:bytesRead]], the error,
    and the source afterwards. *)
Variable Reader : Type.
Variable Read : Reader -> Z -> (Z * list byte * option error) * Reader.

(** The HTTP client with the server behind it, and [client.Do(req)]. *)
Variable Server : Type.
Variable Do : Server -> Request.t -> (Response.t + error) * Server.

(** The error of [http.NewRequestWithContext] for the upload URL. *)
Variable http_NewRequest_error : string -> option error.

(** The headers of a request after
    [doMergeHeaders(httpOptions.Headers, &req.Header)] and
    [doMergeHeaders(sdkHeader(ac), &req.Header)]. *)
Variable mergedHeaders : http.Header.

Variable json_Unmarshal_responseWithError :
  list byte -> responseWithError -> responseWithError * option error.
Variable json_Unmarshal_map :
  list byte -> option (gmap string any) -> option (gmap string any) * option error.

(** [json.NewEncoder(b).Encode(input)] and [json.Unmarshal(data, output)]
    for [output] a [**File]: a [nil] [*File] is [None]. *)
Variable json_Encode : gmap string any -> list byte * option error.
Variable json_Unmarshal_File : list byte -> option File -> option File * option error.

Definition doRequest (sv : Server) (req : Request.t) : (Response.t + error) * Server :=
  let '(res, sv) := Do sv req in
  match res with
  | inl resp => (inl resp, sv)
  | inr err => (inr (Errorf "doRequest: error sending request: %w" [] (Some err)), sv)
  end.

Definition mapToStruct (input : gmap string any) (output : option File)
    : option File * option error :=
  let '(b, err) := json_Encode input in
  match err with
  | Some err =>
      (output, Some (Errorf "mapToStruct: error encoding input %#v: %w" [AMap input] (Some err)))
  | None =>
      let '(output, err) := json_Unmarshal_File b output in
      match err with
      | Some err =>
          (output,
           Some (Errorf "mapToStruct: error unmarshalling input %#v: %w" [AMap input] (Some err)))
      | None => (output, None)
      end
  end.

(** The state a run of [uploadFile] leaves behind: the requests it
    sent and the responses it received, in order, the source and the
    server. *)
Record upload_run : Type := mkUploadRun {
  sent : list Request.t;
  received : list Response.t;
  reader : Reader;
  server : Server
}.

Definition upload_result : Type := outcome (option File * option error) * upload_run.

(** [resp.Header.Get("X-Goog-Upload-Status")] *)
Definition upload_status (resp : Response.t) : string :=
  http.Get (Response.Header resp) "X-Goog-Upload-Status".

(** The statements after the loop; [resp] is the last response. *)
Definition uploadFile_finish (resp : option Response.t)
    (respBody : option (gmap string any)) (u : upload_run) : upload_result :=
  match resp with
  | None => (Returns (None, Some (Errorf "Upload request failed. No response received" [] None)), u)
  | Some resp =>
      let finalUploadStatus := upload_status resp in
      if negb (String.eqb finalUploadStatus "final") then
        (Returns (None,
                  Some (Errorf "Failed to upload file: Upload status is not finalized" [] None)), u)
      else
        let response := Some zeroFile in
        (* [respBody["file"].(map[string]any)] *)
        match respBody ≫= (fun m => m !! "file") with
        | Some (AMap file) =>
            let '(response, err) := mapToStruct file response in
            match err with
            | Some err => (Returns (None, Some err), u)
            | None => (Returns (response, None), u)
            end
        | _ => (Panics "interface conversion: interface {} is not map[string]interface {}", u)
        end
  end.

(** [chunkSize := int64(math.Min(maxChunkSize, float64(uploadSize-offset)))] *)
Definition chunk_size (uploadSize offset : Z) : Z :=
  Z.min maxChunkSize (float64_of_int64 (wrap64 (uploadSize - offset))).

(** [if offset+chunkSize >= uploadSize { uploadCommand += ", finalize" }] *)
Definition chunk_command (uploadSize offset chunkSize : Z) (uploadCommand : string)
    : string :=
  if uploadSize <=? wrap64 (offset + chunkSize)
  then uploadCommand +:+ ", finalize" else uploadCommand.

(** The request for one chunk: the merged headers, then the command,
    offset and content-length headers. *)
Definition chunk_request (uploadURL uploadCommand : string) (offset chunkSize : Z)
    (buffer : list byte) : Request.t :=
  let header := mergedHeaders in
  let header := http.Set_ header "X-Goog-Upload-Command" uploadCommand in
  let header := http.Set_ header "X-Goog-Upload-Offset" (strconv_FormatInt offset) in
  let header := http.Set_ header "Content-Length" (strconv_FormatInt chunkSize) in
  {| Request.Method := "POST"; Request.URL := uploadURL;
     Request.Header := header; Request.Body := buffer |}.

(** One turn of the loop of [uploadFile] either ends the call ([return],
    or [break] and the statements after the loop) or goes on to the next
    turn with a new offset. *)
Inductive turn : Type :=
| Done (result : upload_result)
| Continue (offset : Z) (uploadCommand : string) (u : upload_run).

Definition uploadFile_turn (uploadURL : string) (uploadSize : Z)
    (offset : Z) (uploadCommand : string) (u : upload_run) : turn :=
  let chunkSize := chunk_size uploadSize offset in
  let uploadCommand := chunk_command uploadSize offset chunkSize uploadCommand in
  (* [make([]byte, chunkSize)] *)
  if chunkSize <? 0 then Done (Panics "makeslice: len out of range", u)
  else
    let '(bytesRead, buffer, err, rd) := Read (reader u) chunkSize in
    let u := {| sent := sent u; received := received u;
                reader := rd; server := server u |} in
    match err with
    | Some err =>
        Done (Returns (None,
                Some (Errorf "Failed to read %d bytes from file at offset %d: %w"
                        [AInt chunkSize; AInt offset] (Some err))), u)
    | None =>
        if negb (bytesRead =? chunkSize) then
          Done (Returns (None,
                  Some (Errorf "Failed to read %d bytes from file at offset %d. bytes actually read: %d"
                          [AInt chunkSize; AInt offset; AInt bytesRead] None)), u)
        else
          match http_NewRequest_error uploadURL with
          | Some err =>
              Done (Returns (None,
                      Some (Errorf "Failed to create upload request for chunk at offset %d: %w"
                              [AInt offset] (Some err))), u)
          | None =>
              let req := chunk_request uploadURL uploadCommand offset chunkSize buffer in
              let '(res, sv) := doRequest (server u) req in
              let u := {| sent := sent u ++ [req]; received := received u;
                          reader := reader u; server := sv |} in
              match res with
              | inr err =>
                  Done (Returns (None,
                          Some (Errorf "upload request failed for chunk at offset %d: %w"
                                  [AInt offset] (Some err))), u)
              | inl resp =>
                  let u := {| sent := sent u; received := received u ++ [resp];
                              reader := reader u; server := server u |} in
                  match deserializeUnaryResponse json_Unmarshal_responseWithError
                          json_Unmarshal_map resp with
                  | Panics reason => Done (Panics reason, u)
                  | Returns (_, Some err) =>
                      Done (Returns (None,
                              Some (Errorf "response body is invalid for chunk at offset %d: %w"
                                      [AInt offset] (Some err))), u)
                  | Returns (respBody, None) =>
                      let offset := wrap64 (offset + chunkSize) in
                      if negb (String.eqb (upload_status resp) "active") then
                        (* Upload is complete ('final') or interrupted ('cancelled', etc.) *)
                        Done (uploadFile_finish (Some resp) respBody u)
                      else if uploadSize <=? offset then
                        (* Status is not finalized. *)
                        Done (Returns (None,
                                Some (Errorf "All content has been uploaded, but the upload status is not finalized"
                                        [] None)), u)
                      else
                        Continue offset uploadCommand u
                  end
              end
          end
    end.

(** The loop of [uploadFile]; [None] when [fuel] turns do not reach its
    end. *)
Fixpoint uploadFile_loop (fuel : nat) (uploadURL : string) (uploadSize : Z)
    (offset : Z) (uploadCommand : string) (u : upload_run) : option upload_result :=
  match fuel with
  | O => None
  | S fuel =>
      match uploadFile_turn uploadURL uploadSize offset uploadCommand u with
      | Done result => Some result
      | Continue offset uploadCommand u =>
          uploadFile_loop fuel uploadURL uploadSize offset uploadCommand u
      end
  end.


(** A turn that does not end the loop sends a whole chunk of
    [maxChunkSize] bytes and leaves some of the declared size unsent,
    so [upload_turns uploadSize] turns reach the end of the loop
    ([uploadFile_ends]). *)
Definition upload_turns (uploadSize : Z) : nat :=
  S (Z.to_nat (uploadSize / maxChunkSize)).

Definition uploadFile (rd : Reader) (sv : Server) (uploadURL : string)
    (uploadSize : Z) : option upload_result :=
  uploadFile_loop (upload_turns uploadSize) uploadURL uploadSize 0 "upload"
    {| sent := []; received := []; reader := rd; server := sv |}.

End Uploader.

Arguments Done {File Reader Server} result.
Arguments Continue {File Reader Server} offset uploadCommand u.
Arguments mkUploadRun {Reader Server} sent received reader server.
Arguments sent {Reader Server} u.
Arguments received {Reader Server} u.
Arguments reader {Reader Server} u.
Arguments server {Reader Server} u.

(** ** Realtime Session: [Send] *)

Definition websocket_TextMessage : Z := 1.

Section Session.

(** The client message, its [Setup] field, and [json.Marshal] on it. *)
Variables (LiveClientMessage LiveClientSetup : Type).
Variable Setup : LiveClientMessage -> option LiveClientSetup.
Variable json_Marshal : LiveClientMessage -> list byte * option error.

(** The websocket connection and [conn.WriteMessage(messageType, data)]. *)
Variable Conn : Type.
Variable WriteMessage : Conn -> Z -> list byte -> option error * Conn.

Record Session : Type := mkSession {
  conn : Conn;
  session_apiClient : apiClient
}.

(** The result of [Send]: the error, the session afterwards, and the
    frames handed to [WriteMessage], in order. *)
Definition Send (s : Session) (input : LiveClientMessage)
    : option error * Session * list (Z * list byte) :=
  match Setup input with
  | Some _ =>
      (Some (Errorf "message SetUp is not supported in Send(). Use Connect() instead" [] None),
       s, [])
  | None =>
      let '(data, err) := json_Marshal input in
      match err with
      | Some err =>
          (Some (Errorf "marshal client message error: %w" [] (Some err)), s, [])
      | None =>
          let '(err, c) := WriteMessage (conn s) websocket_TextMessage data in
          (err, {| conn := c; session_apiClient := session_apiClient s |},
           [(websocket_TextMessage, data)])
      end
  end.

End Session.

Arguments mkSession {Conn} conn session_apiClient.
Arguments conn {Conn} s.
Arguments session_apiClient {Conn} s.

(** ** Occurrences of a separator in a buffer *)

(** [sep] occurs in [data] at index [i]: [data[i : i+len(sep)] = sep]. *)
Definition occurs_at (sep data : list byte) (i : nat) : Prop :=
  exists pre post, data = pre ++ sep ++ post /\ length pre = i.

(** The first occurrence of [sep] in [data] is at index [i]. *)
Definition first_at (sep data : list byte) (i : nat) : Prop :=
  occurs_at sep data i /\ forall j, (j < i)%nat -> ~ occurs_at sep data j.

(** [sep] does not occur in [data]. *)
Definition absent (sep data : list byte) : Prop :=
  forall j, ~ occurs_at sep data j.

(** ** Documents and decoders for the examples *)

Definition json_quote : byte := "034"%byte.

Definition quoted (s : string) : list byte :=
  json_quote :: list_byte_of_string s ++ [json_quote].

(** The body [{"error":{"code":404,"message":"not found","status":"NOT_FOUND"}}]
    and the error it describes. *)
Definition notFoundBody : list byte :=
  list_byte_of_string "{" ++ quoted "error" ++ list_byte_of_string ":{" ++
  quoted "code" ++ list_byte_of_string ":404," ++
  quoted "message" ++ list_byte_of_string ":" ++ quoted "not found" ++
  list_byte_of_string "," ++
  quoted "status" ++ list_byte_of_string ":" ++ quoted "NOT_FOUND" ++
  list_byte_of_string "}}".

Definition notFoundError : APIError :=
  {| Code := 404; Message := "not found"; Status := "NOT_FOUND"; Details := [] |}.

(** The body [{}]. *)
Definition emptyObjectBody : list byte := list_byte_of_string "{}".

(** A decoder that knows these two documents, and takes any other for a
    syntax error: [{}] has no [error] member and leaves [ErrorInfo] as it
    was. *)
Definition example_Unmarshal_responseWithError (data : list byte)
    (v : responseWithError) : responseWithError * option error :=
  if decide (data = notFoundBody) then ({| ErrorInfo := Some notFoundError |}, None)
  else if decide (data = emptyObjectBody) then (v, None)
  else (v, Some (LibError "invalid character looking for beginning of value")).

(** The body [{"file":{}}]. *)
Definition fileBody : list byte :=
  list_byte_of_string "{" ++ quoted "file" ++ list_byte_of_string ":{}}".

(** The same for a map: [{}] decodes to the map as it was, and
    [{"file":{}}] adds the member [file]. *)
Definition example_Unmarshal_map (data : list byte) (v : option (gmap string any))
    : option (gmap string any) * option error :=
  if decide (data = emptyObjectBody) then (v, None)
  else if decide (data = fileBody) then
    (Some (<["file" := AMap ∅]> (default ∅ v)), None)
  else (v, Some (LibError "invalid character looking for beginning of value")).

Definition response (code : Z) (status : string) (body : list byte) : Response.t :=
  {| Response.StatusCode := code; Response.Status := status;
     Response.Header := ∅; Response.Body := (body, None) |}.

(** A consumer that keeps pulling, a conversion function that accepts
    every map and one that rejects every map. *)
Definition always_pull {R : Type} (it : option R * option error) (st : unit)
    : bool * unit :=
  (true, tt).

Definition accepting_converter (responseMap : option (gmap string any))
    : option nat * option error :=
  (Some 0%nat, None).

Definition rejecting_converter (responseMap : option (gmap string any))
    : option nat * option error :=
  (None, Some (LibError "mapToStruct: error unmarshalling input")).

(** The tokens [event:ping], [data:{}] and [data:x]. *)
Definition pingToken : list byte := list_byte_of_string "event:ping".
Definition dataToken : list byte := list_byte_of_string "data:{}".
Definition brokenToken : list byte := list_byte_of_string "data:x".

(** A client message for the examples: whether it is a setup message,
    and the JSON it marshals to, if it can be marshalled. *)
Record exampleMessage : Type := mkExampleMessage {
  example_setup : option string;
  example_json : list byte + error
}.

Definition example_Marshal (m : exampleMessage) : list byte * option error :=
  match example_json m with
  | inl data => (data, None)
  | inr err => ([], Some err)
  end.

(** A connection that records the frames written to it. *)
Definition recordingConn : Type := list (Z * list byte).

Definition recording_WriteMessage (c : recordingConn) (messageType : Z)
    (data : list byte) : option error * recordingConn :=
  (None, c ++ [(messageType, data)]).

(** A source of zero bytes for the examples: its state is the number of
    bytes left, and a read delivers as many of them as the buffer holds. *)
Definition zeros (n : Z) : list byte := repeat "000"%byte (Z.to_nat n).

Definition zeroSource_Read (left : Z) (n : Z) : (Z * list byte * option error) * Z :=
  if left <=? 0 then ((0, [], Some (LibError "EOF")), left)
  else ((Z.min n left, zeros (Z.min n left), None), left - Z.min n left).

(** An upload server for the examples: its state is the number of
    requests it has answered; it keeps the upload active after the first
    chunk and finalizes it with the second. *)
Definition example_Do (served : nat) (req : Request.t) : (Response.t + error) * nat :=
  (inl {| Response.StatusCode := 200;
          Response.Status := "200 OK";
          Response.Header :=
            {["X-Goog-Upload-Status" := [if (served =? 0)%nat then "active" else "final"]]};
          Response.Body := (if (served =? 0)%nat then emptyObjectBody else fileBody, None) |},
   S served).

(** Files are known by their name in the examples; every map encodes to
    [{}], which decodes to the file as it was. *)
Definition example_Encode (input : gmap string any) : list byte * option error :=
  (emptyObjectBody, None).

Definition example_Unmarshal_File (data : list byte) (v : option string)
    : option string * option error :=
  (v, None).

(** ** Request transforms on dynamic values (transformer.go) *)

(** [v.(map[string]any)] and [v.(bool)]: unchecked type assertions. *)
Definition assert_map (v : any) : outcome (gmap string any) :=
  match v with
  | AMap m => Returns m
  | _ => Panics "interface conversion: interface {} is not map[string]interface {}"
  end.

Definition assert_bool (v : any) : outcome bool :=
  match v with
  | ABool b => Returns b
  | _ => Panics "interface conversion: interface {} is not bool"
  end.

(** What [tContentsForEmbed] returns as an [any]: a [[]string], or the
    contents it was given. *)
Inductive embedContents : Type :=
| EmbedTexts (texts : list string)
| EmbedContents (contents : any).

(** The loop of [tContentsForEmbed] over the contents [v], with the
    texts collected so far. *)
Fixpoint tContentsForEmbed_range (v : list any) (texts : list string)
    : outcome (option embedContents * option error) :=
  match v with
  | [] => Returns (Some (EmbedTexts texts), None)
  | content :: v' =>
      m <-! assert_map content ;;
      (* [parts, ok := m["parts"].([]any)]; [!ok || len(parts) == 0] *)
      match m !! "parts" with
      | Some (ASlice (part0 :: _)) =>
          p <-! assert_map part0 ;;
          (* [text, ok := p["text"].(string)] *)
          match p !! "text" with
          | Some (AStr text) => tContentsForEmbed_range v' (texts ++ [text])
          | _ =>
              Returns (None,
                       Some (Errorf "tContentsForEmbed: content part text is not a string"
                               [] None))
          end
      | _ =>
          Returns (None,
                   Some (Errorf "tContentsForEmbed: content parts is not a non-empty list"
                           [] None))
      end
  end.

Definition tContentsForEmbed (ac : apiClient) (contents : any)
    : outcome (option embedContents * option error) :=
  if bool_decide (backend (clientConfig ac) = BackendVertexAI) then
    match contents with
    | ASlice v => tContentsForEmbed_range v []
    | _ => Returns (None, Some (Errorf "tContentsForEmbed: contents is not a list" [] None))
    end
  else
    Returns (Some (EmbedContents contents), None).

Definition tModelsURL (ac : apiClient) (baseModels : any)
    : outcome (string * option error) :=
  if bool_decide (backend (clientConfig ac) = BackendVertexAI) then
    b <-! assert_bool baseModels ;;
    if b then Returns ("publishers/google/models", None)
    else Returns ("models", None)
  else
    b <-! assert_bool baseModels ;;
    if b then Returns ("models", None)
    else Returns ("tunedModels", None).

(** The result of [tExtractModels]: the value, the error, and the lines
    it writes to the log. *)
Definition tExtractModels (ac : apiClient) (response : any)
    : option any * option error * list string :=
  match response with
  | AMap m =>
      match m !! "models" with
      | Some models => (Some models, None, [])
      | None =>
          match m !! "tunedModels" with
          | Some tunedModels => (Some tunedModels, None, [])
          | None =>
              match m !! "publisherModels" with
              | Some publisherModels => (Some publisherModels, None, [])
              | None =>
                  (Some (ASlice []), None,
                   ["Warning: Cannot find the models type(models, tunedModels, publisherModels) for response: %s"])
              end
          end
      end
  | _ => (None, Some (Errorf "tExtractModels: response is not a map" [] None), [])
  end.

(** A content for the examples: [{"parts": [{"text": text}, ...more]}]. *)
Definition textContent (text : string) (more : list any) : any :=
  AMap {["parts" := ASlice (AMap {["text" := AStr text]} :: more)]}.

(** The first part of the content [c] is a map whose [text] is the
    string [t]. *)
Definition first_part_text (c : any) (t : string) : Prop :=
  exists m parts p,
    c = AMap m /\ m !! "parts" = Some (ASlice (AMap p :: parts)) /\
    p !! "text" = Some (AStr t).

(** ** Base URLs (base_url.go) *)

(** BaseURLParameters are parameters for setting the base URLs for the
    Gemini API and Vertex AI API.  A [*string] is an [option string]. *)
Record BaseURLParameters : Type := mkBaseURLParameters {
  GeminiURL : option string;
  VertexURL : option string
}.

(** [HTTPOptions]: the fields the code reads. *)
Record HTTPOptions : Type := mkHTTPOptions {
  BaseURL : string;
  APIVersion : string;
  Headers : http.Header
}.

(** The package-level variables [defaultBaseGeminiURL] and
    [defaultBaseVertexURL]; both start as [nil]. *)
Record baseURLDefaults : Type := mkBaseURLDefaults {
  defaultBaseGeminiURL : option string;
  defaultBaseVertexURL : option string
}.

Definition initialBaseURLDefaults : baseURLDefaults :=
  {| defaultBaseGeminiURL := None; defaultBaseVertexURL := None |}.

(** SetDefaultBaseURLs overrides the default base URLs for the Gemini API
    and Vertex AI API. *)
Definition SetDefaultBaseURLs (baseURLParams : option BaseURLParameters)
    (g : baseURLDefaults) : baseURLDefaults :=
  match baseURLParams with
  | Some p => {| defaultBaseGeminiURL := GeminiURL p; defaultBaseVertexURL := VertexURL p |}
  | None => g
  end.

(** GetDefaultBaseURLs returns the default base URLs for the Gemini API
    and Vertex AI API. *)
Definition GetDefaultBaseURLs (g : baseURLDefaults) : BaseURLParameters :=
  {| GeminiURL := defaultBaseGeminiURL g; VertexURL := defaultBaseVertexURL g |}.

(** [os.LookupEnv(key)] in the environment [env] *)
Definition os_LookupEnv (env : gmap string string) (key : string) : option string :=
  env !! key.

(** GetBaseURL returns the default base URL; [None] is [nil]. *)
Definition GetBaseURL (env : gmap string string) (g : baseURLDefaults)
    (vertexai : bool) (httpOptions : option HTTPOptions) : option string :=
  let fromOptions :=
    match httpOptions with
    | Some o => if negb (String.eqb (BaseURL o) "") then Some (BaseURL o) else None
    | None => None
    end in
  match fromOptions with
  | Some url => Some url
  | None =>
      let baseURLs := GetDefaultBaseURLs g in
      if vertexai then
        match VertexURL baseURLs with
        | Some url => Some url
        | None => os_LookupEnv env "GOOGLE_VERTEX_BASE_URL"
        end
      else
        match GeminiURL baseURLs with
        | Some url => Some url
        | None => os_LookupEnv env "GOOGLE_GEMINI_BASE_URL"
        end
  end.

(** ** Content helpers (models_helpers.go) *)

Definition roleUser : string := "user".

Section Helpers.

(** The fields of [Part] other than [Text] with their zero value, and
    the fields of [GenerateContentConfig] other than [CandidateCount] and
    [SystemInstruction]. *)
Variable PartFields : Type.
Variable zeroPartFields : PartFields.
Variable ConfigFields : Type.

Record Part : Type := mkPart {
  Part_Text : string;
  Part_fields : PartFields
}.

Record Content : Type := mkContent {
  Parts : list Part;
  Role : string
}.

(** A [*Content] is an [option Content]. *)
Record GenerateContentConfig : Type := mkGenerateContentConfig {
  CandidateCount : Z;
  SystemInstruction : option Content;
  Config_fields : ConfigFields
}.

(** Text returns a slice of Content with a single Part with the given
    text. *)
Definition Text (text : string) : list Content :=
  [ {| Role := roleUser;
       Parts := [ {| Part_Text := text; Part_fields := zeroPartFields |} ] |} ].

(** The methods [setDefaults] change their receiver in place: the
    result is the receiver afterwards. *)
Definition Content_setDefaults (c : option Content) : option Content :=
  match c with
  | None => None
  | Some c =>
      if String.eqb (Role c) "" then Some {| Parts := Parts c; Role := roleUser |}
      else Some c
  end.

Definition GenerateContentConfig_setDefaults (c : option GenerateContentConfig)
    : option GenerateContentConfig :=
  match c with
  | None => None
  | Some c =>
      let c :=
        if CandidateCount c =? 0 then
          {| CandidateCount := 1; SystemInstruction := SystemInstruction c;
             Config_fields := Config_fields c |}
        else c in
      let c :=
        match SystemInstruction c with
        | Some systemInstruction =>
            if String.eqb (Role systemInstruction) "" then
              {| CandidateCount := CandidateCount c;
                 SystemInstruction := Content_setDefaults (Some systemInstruction);
                 Config_fields := Config_fields c |}
            else c
        | None => c
        end in
      Some c
  end.

End Helpers.

Arguments mkPart {PartFields} Part_Text Part_fields.
Arguments Part_Text {PartFields} p.
Arguments Part_fields {PartFields} p.
Arguments mkContent {PartFields} Parts Role.
Arguments Parts {PartFields} c.
Arguments Role {PartFields} c.
Arguments mkGenerateContentConfig {PartFields ConfigFields} CandidateCount SystemInstruction
  Config_fields.
Arguments CandidateCount {PartFields ConfigFields} g.
Arguments SystemInstruction {PartFields ConfigFields} g.
Arguments Config_fields {PartFields ConfigFields} g.
Arguments Content_setDefaults {PartFields} c.
Arguments GenerateContentConfig_setDefaults {PartFields ConfigFields} c.

(** ** Building requests (api_client.go) *)

(** [textproto.CanonicalMIMEHeaderKey], which [http.Header.Set] applies
    to its key: a key made of token bytes gets an upper-case letter first
    and after each hyphen and lower-case letters elsewhere; any other key
    is left as it is. *)
Definition validHeaderFieldByte (c : ascii) : bool :=
  let n := nat_of_ascii c in
  ((48 <=? n) && (n <=? 57) || (65 <=? n) && (n <=? 90) || (97 <=? n) && (n <=? 122))%nat
  || existsb (Ascii.eqb c)
       ["!"; "#"; "$"; "%"; "&"; "'"; "*"; "+"; "-"; "."; "^"; "_"; "`"; "|"; "~"]%char.

Fixpoint canonicalMIMEHeaderKey (upper : bool) (a : string) : string :=
  match a with
  | EmptyString => EmptyString
  | String c a' =>
      let n := nat_of_ascii c in
      let c :=
        if upper && (97 <=? n)%nat && (n <=? 122)%nat then ascii_of_nat (n - 32)
        else if negb upper && (65 <=? n)%nat && (n <=? 90)%nat then ascii_of_nat (n + 32)
        else c in
      String c (canonicalMIMEHeaderKey (Ascii.eqb c "-") a')
  end.

Definition CanonicalMIMEHeaderKey (s : string) : string :=
  if forallb validHeaderFieldByte (list_ascii_of_string s)
  then canonicalMIMEHeaderKey true s
  else s.

(** [header.Set(key, value)] *)
Definition Header_Set (header : http.Header) (key value : string) : http.Header :=
  http.Set_ header (CanonicalMIMEHeaderKey key) value.

Definition http_MethodGet : string := "GET".

Section Requests.

(** [*url.URL], [url.Parse] and [u.String()]. *)
Variable URL : Type.
Variable url_Parse : string -> URL + error.
Variable URL_String : URL -> string.

(** The constant [version] of the package and [runtime.Version()]. *)
Variable version : string.
Variable runtime_Version : string.

(** [doMergeHeaders(input, &header)]: the header afterwards. *)
Variable doMergeHeaders : http.Header -> http.Header -> http.Header.

Variable json_Encode : gmap string any -> list byte * option error.

(** The error of [http.NewRequestWithContext] for a method and a URL. *)
Variable http_NewRequest_error : string -> string -> option error.

Definition createAPIURL (ac : apiClient) (suffix method : string)
    (httpOptions : option HTTPOptions) : outcome (option URL * option error) :=
  match httpOptions with
  | None => Panics "invalid memory address or nil pointer dereference"
  | Some o =>
      if bool_decide (backend (clientConfig ac) = BackendVertexAI) then
        let queryVertexBaseModel :=
          bool_decide (backend (clientConfig ac) = BackendVertexAI) &&
          String.eqb method http_MethodGet &&
          GoStrings.HasPrefix suffix "publishers/google/models" in
        let suffix :=
          if negb (GoStrings.HasPrefix suffix "projects/") && negb queryVertexBaseModel then
            "projects/" +:+ Project (clientConfig ac) +:+ "/locations/" +:+
            Location (clientConfig ac) +:+ "/" +:+ suffix
          else suffix in
        match url_Parse (BaseURL o +:+ "/" +:+ APIVersion o +:+ "/" +:+ suffix) with
        | inr err =>
            Returns (None,
                     Some (Errorf "createAPIURL: error parsing Vertex AI URL: %w" []
                             (Some err)))
        | inl u => Returns (Some u, None)
        end
      else
        let suffix :=
          if negb (GoStrings.Contains suffix ("/" +:+ APIVersion o +:+ "/")) then
            APIVersion o +:+ "/" +:+ suffix
          else suffix in
        match url_Parse (BaseURL o +:+ "/" +:+ suffix) with
        | inr err =>
            Returns (None,
                     Some (Errorf "createAPIURL: error parsing ML Dev URL: %w" []
                             (Some err)))
        | inl u => Returns (Some u, None)
        end
  end.

(** [createAPIURL] returned [r], the URL that [url.Parse] makes of
    [text]. *)
Definition parses (text : string) (r : outcome (option URL * option error)) : Prop :=
  forall u, r = Returns (Some u, None) <-> url_Parse text = inl u.

Definition sdkHeader (ac : apiClient) : http.Header :=
  let header : http.Header := ∅ in
  let header := Header_Set header "Content-Type" "application/json" in
  let header :=
    if negb (String.eqb (APIKey (clientConfig ac)) "") then
      Header_Set header "x-goog-api-key" (APIKey (clientConfig ac))
    else header in
  let libraryLabel := "google-genai-sdk/" +:+ version in
  let languageLabel := "gl-go/" +:+ runtime_Version in
  let versionHeaderValue := libraryLabel +:+ " " +:+ languageLabel in
  let header := Header_Set header "user-agent" versionHeaderValue in
  let header := Header_Set header "x-goog-api-client" versionHeaderValue in
  header.

Definition buildRequest (ac : apiClient) (path : string) (body : gmap string any)
    (method : string) (httpOptions : option HTTPOptions)
    : outcome (option Request.t * option error) :=
  created <-! createAPIURL ac path method httpOptions ;;
  match created, httpOptions with
  | (_, Some err), _ => Returns (None, Some err)
  | (Some url, None), Some o =>
      let '(b, err) :=
        if 0 <? Z.of_nat (size body) then json_Encode body else ([], None) in
      match err with
      | Some err =>
          Returns (None,
                   Some (Errorf "buildRequest: error encoding body %#v: %w" [AMap body]
                           (Some err)))
      | None =>
          (* Create a new HTTP request *)
          match http_NewRequest_error method (URL_String url) with
          | Some err => Returns (None, Some err)
          | None =>
              (* Set headers *)
              let header : http.Header := ∅ in
              let header := doMergeHeaders (Headers o) header in
              let header := doMergeHeaders (sdkHeader ac) header in
              Returns (Some {| Request.Method := method; Request.URL := URL_String url;
                               Request.Header := header; Request.Body := b |}, None)
          end
      end
  | _, _ => Panics "invalid memory address or nil pointer dereference"
  end.

End Requests.

(** A parser of URLs for the examples: it takes every text that has no
    space in it, and keeps the text. *)
Definition example_url_Parse (text : string) : string + error :=
  if GoStrings.Contains text " " then inr (LibError "invalid character in URL")
  else inl text.


(** A decoder for the examples that also knows the document [null],
    which sets a map to [nil]. *)
Definition nullBody : list byte := list_byte_of_string "null".

Definition example_Unmarshal_null (data : list byte) (v : option (gmap string any))
    : option (gmap string any) * option error :=
  if decide (data = nullBody) then (None, None) else example_Unmarshal_map data v.

(** ** The consumer of a stream *)

(** [consumed yield st0 items continue st]: starting in the state [st0],
    the consumer was handed [items] one after the other, each in the
    state the one before left; it answered [true] to all but the last,
    and [continue] to the last; [st] is its state afterwards. *)
Inductive consumed {R St : Type} (yield : option R * option error -> St -> bool * St)
    (st0 : St) : list (option R * option error) -> bool -> St -> Prop :=
| consumed_none : consumed yield st0 [] true st0
| consumed_more (items : list (option R * option error)) (st : St)
    (it : option R * option error) (continue : bool) (st' : St) :
    consumed yield st0 items true st ->
    yield it st = (continue, st') ->
    consumed yield st0 (items ++ [it]) continue st'.

(** A consumer for the examples that stops at the first error; its
    state is the number of events it has seen. *)
Definition stop_at_error {R : Type} (it : option R * option error) (seen : nat)
    : bool * nat :=
  match snd it with
  | Some _ => (false, seen)
  | None => (true, S seen)
  end.

(** What the loop of the iterator adds to the events of a run: items
    and conversions. *)
Definition loop_event {R : Type} (e : event R) : Prop :=
  match e with EvYield _ | EvConvert _ => True | _ => False end.


(** A source for the examples that delivers one byte less than asked
    for, as an [io.Reader] may. *)
Definition shortSource_Read (left : Z) (n : Z) : (Z * list byte * option error) * Z :=
  ((n - 1, zeros (n - 1), None), left - (n - 1)).

(** ** Sending requests (api_client.go) *)

(** What a call does to the connection of a request, in order: the
    request is sent and answered; the body of a response is closed. *)
Inductive transport_call : Type :=
| CallDo (req : Request.t)
| CallClose (resp : Response.t).

Section Sending.

Variable URL : Type.
Variable url_Parse : string -> URL + error.
Variable URL_String : URL -> string.
Variable version : string.
Variable runtime_Version : string.
Variable doMergeHeaders : http.Header -> http.Header -> http.Header.
Variable json_Encode : gmap string any -> list byte * option error.
Variable http_NewRequest_error : string -> string -> option error.

(** The HTTP client with the server behind it, and [client.Do(req)]. *)
Variable Server : Type.
Variable Do : Server -> Request.t -> (Response.t + error) * Server.

Variable json_Unmarshal_responseWithError :
  list byte -> responseWithError -> responseWithError * option error.
Variable json_Unmarshal_map :
  list byte -> option (gmap string any) -> option (gmap string any) * option error.

(** The scanner that [deserializeStreamResponse] sets up on a body,
    with [scan] as its split function and a buffer of at most 256 MB: the
    tokens it delivers and the error it ends with.  [body_Close] is what
    closing the body returns. *)
Variable bufio_Scanner :
  (list byte -> bool -> Z * option (list byte) * option error) -> Z ->
  list byte * option error -> list (list byte) * option error.
Variable body_Close : Response.t -> option error.

(** The result of a call, the server afterwards, and what the call did
    to the connection. *)
Definition sent_result (A : Type) : Type := outcome A * Server * list transport_call.

(** sendRequest issues an API request and returns a map of the response
    contents. *)
Definition sendRequest (sv : Server) (ac : apiClient) (path method : string)
    (body : gmap string any) (httpOptions : option HTTPOptions)
    : sent_result (option (gmap string any) * option error) :=
  match buildRequest URL url_Parse URL_String version runtime_Version doMergeHeaders
          json_Encode http_NewRequest_error ac path body method httpOptions with
  | Panics reason => (Panics reason, sv, [])
  | Returns (_, Some err) => (Returns (None, Some err), sv, [])
  | Returns (None, None) => (Panics "invalid memory address or nil pointer dereference", sv, [])
  | Returns (Some req, None) =>
      let '(res, sv) := doRequest Server Do sv req in
      match res with
      | inr err => (Returns (None, Some err), sv, [CallDo req])
      | inl resp =>
          (* [defer resp.Body.Close()] runs when the call returns or panics *)
          (deserializeUnaryResponse json_Unmarshal_responseWithError json_Unmarshal_map resp,
           sv, [CallDo req; CallClose resp])
      end
  end.

(** [deserializeStreamResponse(resp, output)]: the stream [output]
    points to afterwards, and the error. *)
Definition deserializeStreamResponse (resp : Response.t) (output : responseStream)
    : outcome (responseStream * option error) :=
  if negb (httpStatusOk resp) then
    e <-! newAPIError json_Unmarshal_responseWithError resp ;; Returns (output, Some e)
  else
    let '(tokens, err) := bufio_Scanner scan 268435456 (Response.Body resp) in
    Returns ({| r_tokens := tokens; r_Err := err; rc_Close := body_Close resp |}, None).

(** sendStreamRequest issues an server streaming API request. *)
Definition sendStreamRequest (sv : Server) (ac : apiClient) (path method : string)
    (body : gmap string any) (httpOptions : option HTTPOptions) (output : responseStream)
    : sent_result (responseStream * option error) :=
  match buildRequest URL url_Parse URL_String version runtime_Version doMergeHeaders
          json_Encode http_NewRequest_error ac path body method httpOptions with
  | Panics reason => (Panics reason, sv, [])
  | Returns (_, Some err) => (Returns (output, Some err), sv, [])
  | Returns (None, None) => (Panics "invalid memory address or nil pointer dereference", sv, [])
  | Returns (Some req, None) =>
      let '(res, sv) := doRequest Server Do sv req in
      match res with
      | inr err => (Returns (output, Some err), sv, [CallDo req])
      | inl resp =>
          (* resp.Body will be closed by the iterator *)
          (deserializeStreamResponse resp output, sv, [CallDo req])
      end
  end.

End Sending.

(** ** Realtime Session: [Connect], [Receive], [Close] (live.go) *)

(** What a call does to the network, in order: a connection is dialed;
    a frame is written to the connection; the connection is closed. *)
Inductive live_call : Type :=
| CallDial (url : string) (header : http.Header)
| CallWriteMessage (messageType : Z) (data : list byte)
| CallConnClose.

Section Live.

(** [url.Parse] on the base URL, the [Scheme] and the [Host] of its
    result, and [u.String()] for the [url.URL] with a scheme, a host, a
    path and a query. *)
Variable URL : Type.
Variable url_Parse : string -> URL + error.
Variable URL_Scheme : URL -> string.
Variable URL_Host : URL -> string.
Variable url_String : string -> string -> string -> string -> string.

(** [clientConfig.baseURL], and the result of
    [clientConfig.Credentials.TokenSource.Token()]: the access token. *)
Variable baseURL : string.
Variable TokenSource_Token : string + error.

(** The types of the fields of a setup, and the messages. *)
Variables (GenerationConfig_t SystemInstruction_t Tool_t : Type).
Variables (LiveClientMessage LiveServerMessage : Type).

Record LiveConnectConfig : Type := mkLiveConnectConfig {
  config_GenerationConfig : option GenerationConfig_t;
  config_SystemInstruction : option SystemInstruction_t;
  config_Tools : list Tool_t
}.

Record LiveClientSetup : Type := mkLiveClientSetup {
  setup_Model : string;
  setup_GenerationConfig : option GenerationConfig_t;
  setup_SystemInstruction : option SystemInstruction_t;
  setup_Tools : list Tool_t
}.

(** [&LiveClientMessage{Setup: setup}] and [json.Marshal] on a message;
    [json.Unmarshal] into a new [LiveServerMessage]. *)
Variable setupMessage : LiveClientSetup -> LiveClientMessage.
Variable json_Marshal : LiveClientMessage -> list byte * option error.
Variable json_Unmarshal_message : list byte -> LiveServerMessage * option error.

(** The network and [websocket.DefaultDialer.Dial(url, header)]; a
    connection with [WriteMessage], [ReadMessage] and [Close]. *)
Variable Network : Type.
Variable Conn : Type.
Variable Dial : Network -> string -> http.Header -> (Conn + error) * Network.
Variable WriteMessage : Conn -> Z -> list byte -> option error * Conn.
Variable ReadMessage : Conn -> (Z * list byte * option error) * Conn.
Variable Conn_Close : Conn -> option error * Conn.

(** The result of [Connect]: the session and the error, the network
    afterwards, and the calls made. *)
Definition Connect (net : Network) (ac : apiClient) (model : string)
    (config : option LiveConnectConfig)
    : (option (Session Conn) * option error) * Network * list live_call :=
  match url_Parse baseURL with
  | inr err => ((None, Some (Errorf "failed to parse base URL: %w" [] (Some err))), net, [])
  | inl parsed =>
      let scheme := URL_Scheme parsed in
      (* Avoid overwrite schema if websocket scheme is already specified. *)
      let scheme :=
        if negb (String.eqb scheme "wss") && negb (String.eqb scheme "ws") then "wss"
        else scheme in
      let target : (string * http.Header) + error :=
        if bool_decide (backend (clientConfig ac) = BackendVertexAI) then
          match TokenSource_Token with
          | inr err => inr (Errorf "failed to get token: %w" [] (Some err))
          | inl accessToken =>
              inl (url_String scheme (URL_Host parsed)
                     "/ws/google.cloud.aiplatform.v1beta1.LlmBidiService/BidiGenerateContent"
                     "",
                   {["Content-Type" := ["application/json"]]} ∪
                   {["Authorization" := ["Bearer " +:+ accessToken]]})
          end
        else
          inl (url_String scheme (URL_Host parsed)
                 "/ws/google.ai.generativelanguage.v1alpha.GenerativeService.BidiGenerateContent"
                 ("key=" +:+ APIKey (clientConfig ac)),
               ∅) in
      match target with
      | inr err => ((None, Some err), net, [])
      | inl (u, header) =>
          let '(dialed, net) := Dial net u header in
          match dialed with
          | inr err =>
              ((None, Some (Errorf "Connect to %s failed: %w" [AStr u] (Some err))), net,
               [CallDial u header])
          | inl conn =>
              let s := {| conn := conn; session_apiClient := ac |} in
              match tModelFullName ac (AStr model) with
              | (_, Some err) => ((None, Some err), net, [CallDial u header])
              | (m, None) =>
                  let setup :=
                    match config with
                    | Some config =>
                        {| setup_Model := m;
                           setup_GenerationConfig := config_GenerationConfig config;
                           setup_SystemInstruction := config_SystemInstruction config;
                           setup_Tools := config_Tools config |}
                    | None =>
                        {| setup_Model := m; setup_GenerationConfig := None;
                           setup_SystemInstruction := None; setup_Tools := [] |}
                    end in
                  let clientMessage := setupMessage setup in
                  let '(clientBytes, err) := json_Marshal clientMessage in
                  match err with
                  | Some err =>
                      ((None, Some (Errorf "marshal LiveClientSetup failed: %w" [] (Some err))),
                       net, [CallDial u header])
                  | None =>
                      (* the error of [WriteMessage] is dropped *)
                      let '(_, conn) := WriteMessage conn websocket_TextMessage clientBytes in
                      ((Some {| conn := conn; session_apiClient := ac |}, None), net,
                       [CallDial u header;
                        CallWriteMessage websocket_TextMessage clientBytes])
                  end
              end
          end
      end
  end.

(** The scheme [Connect] dials with, for the parsed base URL; the URL
    and the header it dials with, for the access token; and the setup it
    sends for the full name of the model. *)
Definition live_scheme (parsed : URL) : string :=
  if String.eqb (URL_Scheme parsed) "ws" then "ws" else "wss".

Definition live_target (ac : apiClient) (parsed : URL) (accessToken : string)
    : string * http.Header :=
  match backend (clientConfig ac) with
  | BackendVertexAI =>
      (url_String (live_scheme parsed) (URL_Host parsed)
         "/ws/google.cloud.aiplatform.v1beta1.LlmBidiService/BidiGenerateContent" "",
       <["Authorization" := ["Bearer " +:+ accessToken]]>
         {["Content-Type" := ["application/json"]]})
  | _ =>
      (url_String (live_scheme parsed) (URL_Host parsed)
         "/ws/google.ai.generativelanguage.v1alpha.GenerativeService.BidiGenerateContent"
         ("key=" +:+ APIKey (clientConfig ac)),
       ∅)
  end.

Definition live_setup (name : string) (config : option LiveConnectConfig)
    : LiveClientSetup :=
  {| setup_Model := name;
     setup_GenerationConfig := config ≫= config_GenerationConfig;
     setup_SystemInstruction := config ≫= config_SystemInstruction;
     setup_Tools := default [] (config_Tools <$> config) |}.

(** Receive reads a BidiServerMessage from the websocket connection. *)
Definition Receive (s : Session Conn)
    : (option LiveServerMessage * option error) * Session Conn :=
  let '(messageType, msgBytes, err, c) := ReadMessage (conn s) in
  let s := {| conn := c; session_apiClient := session_apiClient s |} in
  match err with
  | Some err => ((None, Some err), s)
  | None =>
      let '(message, err) := json_Unmarshal_message msgBytes in
      match err with
      | Some _ =>
          ((None,
            Some (Errorf "invalid message format. messageType: %d, message: %s"
                    [AInt messageType; AStr (string_of_list_byte msgBytes)] None)), s)
      | None => ((Some message, None), s)
      end
  end.

(** Close terminates the websocket connection. *)
Definition Close (s : Session Conn) : Session Conn * list live_call :=
  let '(_, c) := Conn_Close (conn s) in
  ({| conn := c; session_apiClient := session_apiClient s |}, [CallConnClose]).

End Live.

Arguments mkLiveConnectConfig {GenerationConfig_t SystemInstruction_t Tool_t}
  config_GenerationConfig config_SystemInstruction config_Tools.
Arguments mkLiveClientSetup {GenerationConfig_t SystemInstruction_t Tool_t}
  setup_Model setup_GenerationConfig setup_SystemInstruction setup_Tools.
Arguments setup_Model {GenerationConfig_t SystemInstruction_t Tool_t} l.

(** A network for the examples: it accepts every dial, and its state
    is the number of connections it has opened; the scheme and the host
    of a parsed URL are the text before and after [://]. *)
Definition example_Dial (opened : nat) (url : string) (header : http.Header)
    : (recordingConn + error) * nat :=
  (inl [], S opened).

Definition example_url_String (scheme host path query : string) : string :=
  scheme +:+ "://" +:+ host +:+ path +:+ (if String.eqb query "" then "" else "?" +:+ query).

(** A setup message is marshalled to the name of its model in the
    examples. *)
Definition example_Marshal_setup (setup : @LiveClientSetup unit unit unit)
    : list byte * option error :=
  (list_byte_of_string (setup_Model setup), None).

(** * Properties *)

(** ** Facts about strings *)

#[local] Arguments String.append : simpl nomatch.

Section StringFacts.

Implicit Types s p sep pre post : string.

Lemma append_assoc s1 s2 s3 : (s1 +:+ s2) +:+ s3 = s1 +:+ (s2 +:+ s3).
Proof. induction s1 as [|c s1 IH]; simpl; [reflexivity | now rewrite IH]. Qed.

Lemma append_empty_r s : s +:+ "" = s.
Proof. induction s as [|c s IH]; simpl; [reflexivity | now rewrite IH]. Qed.

Lemma prefix_append p s : String.prefix p (p +:+ s) = true.
Proof.
  induction p as [|c p IH]; simpl; [now destruct s |].
  destruct (ascii_dec c c); [exact IH | congruence].
Qed.

Lemma prefix_inv p s : String.prefix p s = true -> exists rest, s = p +:+ rest.
Proof.
  revert s; induction p as [|c p IH]; intros s H.
  - exists s; reflexivity.
  - destruct s as [|d s]; simpl in H; [discriminate |].
    destruct (ascii_dec c d) as [->|]; [| discriminate].
    destruct (IH _ H) as [rest ->]. exists rest; reflexivity.
Qed.

Lemma HasPrefix_iff s p :
  GoStrings.HasPrefix s p = true <-> exists rest, s = p +:+ rest.
Proof.
  unfold GoStrings.HasPrefix; split.
  - apply prefix_inv.
  - intros [rest ->]; apply prefix_append.
Qed.

Lemma Index_eq s sep :
  GoStrings.Index s sep =
  if String.prefix sep s then 0
  else match s with
       | EmptyString => -1
       | String _ s' => if GoStrings.Index s' sep <? 0 then -1
                        else GoStrings.Index s' sep + 1
       end.
Proof. destruct s; reflexivity. Qed.

Lemma Index_range s sep : GoStrings.Index s sep = -1 \/ 0 <= GoStrings.Index s sep.
Proof.
  induction s as [|c s IH]; rewrite Index_eq.
  - destruct (String.prefix sep ""); lia.
  - destruct (String.prefix sep (String c s)); [lia |].
    destruct (Z.ltb_spec (GoStrings.Index s sep) 0); lia.
Qed.

(** [Index] finds an instance of the separator. *)
Lemma Index_found s sep :
  0 <= GoStrings.Index s sep ->
  s = GoStrings.take (Z.to_nat (GoStrings.Index s sep)) s +:+ sep +:+
      GoStrings.drop (Z.to_nat (GoStrings.Index s sep) + String.length sep) s.
Proof.
  induction s as [|c s IH]; rewrite Index_eq.
  - destruct (String.prefix sep "") eqn:Hp; [| lia].
    intros _. destruct sep; [reflexivity | discriminate].
  - destruct (String.prefix sep (String c s)) eqn:Hp.
    + intros _. simpl. destruct (prefix_inv _ _ Hp) as [rest Hrest].
      rewrite Hrest at 1. f_equal.
      clear -Hrest. revert c s Hrest. 
      induction sep as [|d sep IHsep]; intros c s Hrest; simpl in *.
      * subst; reflexivity.
      * injection Hrest as -> Hs. destruct sep as [|e sep]; simpl in *.
        -- now subst.
        -- destruct s as [|f s]; [discriminate |]. 
           now apply (IHsep f s).
    + destruct (Z.ltb_spec (GoStrings.Index s sep) 0) as [Hlt|Hge]; [lia |].
      intros _. specialize (IH Hge).
      replace (Z.to_nat (GoStrings.Index s sep + 1)) with (S (Z.to_nat (GoStrings.Index s sep))) by lia.
      simpl. now rewrite <- IH.
Qed.

(** An instance of the separator is found. *)
Lemma Index_app_nonneg pre sep post : 0 <= GoStrings.Index (pre +:+ sep +:+ post) sep.
Proof.
  induction pre as [|c pre IH]; rewrite Index_eq.
  - simpl. now rewrite (prefix_append sep post).
  - simpl (String c pre +:+ _).
    destruct (String.prefix sep _); [lia |].
    destruct (Z.ltb_spec (GoStrings.Index (pre +:+ sep +:+ post) sep) 0); lia.
Qed.

Lemma Contains_iff s sep :
  GoStrings.Contains s sep = true <-> exists pre post, s = pre +:+ sep +:+ post.
Proof.
  unfold GoStrings.Contains; rewrite Z.leb_le; split.
  - intros H. eexists _, _. exact (Index_found _ _ H).
  - intros (pre & post & ->). apply Index_app_nonneg.
Qed.

Lemma Contains_prefix s p sep :
  GoStrings.HasPrefix s p = true -> GoStrings.Contains p sep = true ->
  GoStrings.Contains s sep = true.
Proof.
  rewrite HasPrefix_iff, !Contains_iff.
  intros [rest ->] (pre & post & ->).
  exists pre, (post +:+ rest). now rewrite !append_assoc.
Qed.

(** The first instance of a one-byte separator. *)
Lemma Index_byte_app c pre post :
  GoStrings.Contains pre (String c "") = false ->
  GoStrings.Index (pre +:+ String c post) (String c "") = Z.of_nat (String.length pre).
Proof.
  unfold GoStrings.Contains. rewrite Z.leb_gt.
  induction pre as [|d pre IH]; rewrite !(Index_eq (_ +:+ _)), ?(Index_eq (String d pre)).
  - intros _. simpl. destruct (ascii_dec c c); [| congruence]. now destruct post.
  - simpl. destruct (ascii_dec c d) as [->|Hne].
    + destruct pre; simpl; lia.
    + destruct (Z.ltb_spec (GoStrings.Index pre (String c "")) 0) as [Hlt|Hge]; [| lia].
      intros _. rewrite (IH Hlt).
      destruct (Z.ltb_spec (Z.of_nat (String.length pre)) 0); lia.
Qed.

Lemma take_append pre post : GoStrings.take (String.length pre) (pre +:+ post) = pre.
Proof. induction pre as [|c pre IH]; simpl; [now destruct post | now rewrite IH]. Qed.

Lemma drop_append pre post : GoStrings.drop (String.length pre) (pre +:+ post) = post.
Proof. induction pre as [|c pre IH]; simpl; [reflexivity | exact IH]. Qed.

Lemma SplitN2_byte c pre post :
  GoStrings.Contains pre (String c "") = false ->
  GoStrings.SplitN2 (pre +:+ String c "" +:+ post) (String c "") = [pre; post].
Proof.
  intros H. unfold GoStrings.SplitN2.
  assert (Hi : GoStrings.Index (pre +:+ String c "" +:+ post) (String c "")
               = Z.of_nat (String.length pre)) by exact (Index_byte_app c pre post H).
  rewrite Hi.
  destruct (Z.ltb_spec (Z.of_nat (String.length pre)) 0); [lia |].
  rewrite Nat2Z.id, take_append. f_equal. f_equal.
  replace (String.length pre + String.length (String c ""))%nat
    with (String.length (pre +:+ String c "")).
  - rewrite <- append_assoc. apply drop_append.
  - clear. induction pre; simpl; [reflexivity | now rewrite IHpre].
Qed.

(** [SplitN(s, sep, 2)] has two parts when [s] contains [sep]. *)
Lemma SplitN2_length s sep :
  GoStrings.Contains s sep = true -> length (GoStrings.SplitN2 s sep) = 2%nat.
Proof.
  unfold GoStrings.Contains, GoStrings.SplitN2. rewrite Z.leb_le. intros H.
  destruct (Z.ltb_spec (GoStrings.Index s sep) 0); [lia | reflexivity].
Qed.

End StringFacts.

(** ** Resource Namer *)

(** C2, counterexample: on the hosted backend an identifier that starts
    with [cachedContents/] is not returned unchanged; the project and
    location are prepended. *)
Lemma tResourceName_prefixed_vertex_changes :
  GoStrings.HasPrefix "cachedContents/abc" ("cachedContents" +:+ "/") = true /\
  tResourceName (vertexClient "p" "l") "cachedContents/abc" "cachedContents" 2
    = "projects/p/locations/l/cachedContents/abc" /\
  tResourceName (vertexClient "p" "l") "cachedContents/abc" "cachedContents" 2
    <> "cachedContents/abc".
Proof.
  split; [reflexivity | split; [reflexivity |]].
  intros H. vm_compute in H. discriminate H.
Qed.

(** C2, amended: an identifier that already starts with [<collection>/]
    is returned unchanged on the direct backend; on the hosted backend it
    is returned unchanged if it starts with [projects/], gets
    [projects/<project>/] prepended if it starts with [locations/], and
    gets [projects/<project>/locations/<location>/] prepended
    otherwise. *)
Theorem tResourceName_prefixed (ac : apiClient) (name coll : string) (depth : Z) :
  GoStrings.HasPrefix name (coll +:+ "/") = true ->
  (backend (clientConfig ac) <> BackendVertexAI ->
     tResourceName ac name coll depth = name) /\
  (backend (clientConfig ac) = BackendVertexAI ->
     (GoStrings.HasPrefix name "projects/" = true ->
        tResourceName ac name coll depth = name) /\
     (GoStrings.HasPrefix name "projects/" = false ->
      GoStrings.HasPrefix name "locations/" = true ->
        tResourceName ac name coll depth
          = "projects/" +:+ Project (clientConfig ac) +:+ "/" +:+ name) /\
     (GoStrings.HasPrefix name "projects/" = false ->
      GoStrings.HasPrefix name "locations/" = false ->
        tResourceName ac name coll depth
          = "projects/" +:+ Project (clientConfig ac) +:+ "/locations/" +:+
            Location (clientConfig ac) +:+ "/" +:+ name)).
Proof.
  intros Hcoll. unfold tResourceName. rewrite Hcoll. simpl negb. cbv iota.
  split.
  - intros Hb. destruct (backend (clientConfig ac)); [reflexivity | congruence].
  - intros ->. repeat split.
    + now intros ->.
    + now intros -> ->.
    + now intros -> ->.
Qed.

Lemma tResourceName_prefixed_witness :
  tResourceName (mldevClient "k") "cachedContents/abc" "cachedContents" 2
    = "cachedContents/abc" /\
  tResourceName (vertexClient "p" "l") "cachedContents/abc" "cachedContents" 2
    = "projects/p/locations/l/cachedContents/abc".
Proof.
  split.
  - destruct (tResourceName_prefixed (mldevClient "k") "cachedContents/abc" "cachedContents" 2)
      as [Hdirect _]; [reflexivity |].
    apply Hdirect. intros H; discriminate H.
  - destruct (tResourceName_prefixed (vertexClient "p" "l") "cachedContents/abc"
                "cachedContents" 2) as [_ Hvertex]; [reflexivity |].
    destruct (Hvertex eq_refl) as (_ & _ & Hother). apply Hother; reflexivity.
Defined.

(** C5: the model transform on a non-empty string.  Hosted backend: an
    identifier prefixed with [projects/], [models/] or [publishers/] is
    returned unchanged, [vendor/name] becomes
    [publishers/vendor/models/name], a bare name becomes
    [publishers/google/models/<name>].  Direct backend: an identifier
    prefixed with [models/] or [tunedModels/] is returned unchanged, any
    other becomes [models/<name>]. *)
Theorem tModel_qualifies (ac : apiClient) (model : string) :
  model <> "" ->
  (backend (clientConfig ac) = BackendVertexAI ->
     (GoStrings.HasPrefix model "projects/" = true \/
      GoStrings.HasPrefix model "models/" = true \/
      GoStrings.HasPrefix model "publishers/" = true ->
        tModel ac (AStr model) = (model, None)) /\
     (forall vendor name,
        model = vendor +:+ "/" +:+ name ->
        GoStrings.Contains vendor "/" = false ->
        GoStrings.HasPrefix model "projects/" = false ->
        GoStrings.HasPrefix model "models/" = false ->
        GoStrings.HasPrefix model "publishers/" = false ->
        tModel ac (AStr model)
          = ("publishers/" +:+ vendor +:+ "/models/" +:+ name, None)) /\
     (GoStrings.Contains model "/" = false ->
        tModel ac (AStr model) = ("publishers/google/models/" +:+ model, None))) /\
  (backend (clientConfig ac) <> BackendVertexAI ->
     (GoStrings.HasPrefix model "models/" = true \/
      GoStrings.HasPrefix model "tunedModels/" = true ->
        tModel ac (AStr model) = (model, None)) /\
     (GoStrings.HasPrefix model "models/" = false ->
      GoStrings.HasPrefix model "tunedModels/" = false ->
        tModel ac (AStr model) = ("models/" +:+ model, None))).
Proof.
  intros Hne. unfold tModel.
  apply String.eqb_neq in Hne. rewrite Hne.
  split.
  - intros Hb. rewrite bool_decide_eq_true_2 by exact Hb.
    split; [| split].
    + intros [-> | [-> | ->]]; rewrite ?orb_true_r; reflexivity.
    + intros vendor name -> Hv -> -> ->. simpl orb. cbv iota.
      assert (Hc : GoStrings.Contains (vendor +:+ "/" +:+ name) "/" = true)
        by (apply Contains_iff; now exists vendor, name).
      rewrite Hc. now rewrite (SplitN2_byte "/"%char vendor name Hv).
    + intros Hc.
      assert (Hp : forall p, GoStrings.Contains p "/" = true ->
                             GoStrings.HasPrefix model p = false).
      { intros p Hp. destruct (GoStrings.HasPrefix model p) eqn:E; [| reflexivity].
        rewrite (Contains_prefix _ _ _ E Hp) in Hc. discriminate. }
      rewrite !Hp by reflexivity. simpl orb. cbv iota. now rewrite Hc.
  - intros Hb. rewrite bool_decide_eq_false_2 by exact Hb.
    split.
    + intros [-> | ->]; rewrite ?orb_true_r; reflexivity.
    + now intros -> ->.
Qed.

Lemma tModel_qualifies_witness :
  tModel (vertexClient "p" "l") (AStr "meta/llama-3")
    = ("publishers/meta/models/llama-3", None) /\
  tModel (vertexClient "p" "l") (AStr "publishers/google/models/gemini")
    = ("publishers/google/models/gemini", None) /\
  tModel (vertexClient "p" "l") (AStr "gemini") = ("publishers/google/models/gemini", None) /\
  tModel (mldevClient "k") (AStr "tunedModels/t1") = ("tunedModels/t1", None) /\
  tModel (mldevClient "k") (AStr "gemini") = ("models/gemini", None).
Proof.
  refine (conj _ (conj _ (conj _ (conj _ _)))).
  - destruct (tModel_qualifies (vertexClient "p" "l") "meta/llama-3") as [H _];
      [discriminate |].
    destruct (H eq_refl) as (_ & Hvendor & _).
    apply (Hvendor "meta" "llama-3"); reflexivity.
  - destruct (tModel_qualifies (vertexClient "p" "l") "publishers/google/models/gemini")
      as [H _]; [discriminate |].
    destruct (H eq_refl) as (Hid & _). apply Hid. right; right; reflexivity.
  - destruct (tModel_qualifies (vertexClient "p" "l") "gemini") as [H _]; [discriminate |].
    destruct (H eq_refl) as (_ & _ & Hbare). apply Hbare. reflexivity.
  - destruct (tModel_qualifies (mldevClient "k") "tunedModels/t1") as [_ H]; [discriminate |].
    destruct H as [Hid _]; [intros H; discriminate H |]. apply Hid. right; reflexivity.
  - destruct (tModel_qualifies (mldevClient "k") "gemini") as [_ H]; [discriminate |].
    destruct H as [_ Hother]; [intros H; discriminate H |]. apply Hother; reflexivity.
Defined.

(** The model transforms validate their input: an empty or non-string
    identifier is answered with an error. *)
Lemma tModel_rejects (ac : apiClient) (origin : any) :
  origin = AStr "" \/ (forall s, origin <> AStr s) ->
  exists err, tModel ac origin = ("", Some err).
Proof.
  intros [-> | Hns].
  - eexists; reflexivity.
  - destruct origin; try (eexists; reflexivity). now destruct (Hns s).
Qed.

Lemma tModelFullName_rejects (ac : apiClient) (origin : any) :
  origin = AStr "" \/ (forall s, origin <> AStr s) ->
  exists err, tModelFullName ac origin = ("", Some err).
Proof.
  intros [-> | Hns].
  - eexists; reflexivity.
  - destruct origin; try (eexists; reflexivity). now destruct (Hns s).
Qed.

(** C6, the code at the failing inputs: the cached-content name
    transform does not validate.  On a value that is not a string its
    type assertion panics, and on the empty string it returns a name and
    no error. *)
Theorem tCachedContentName_does_not_validate (ac : apiClient) :
  tCachedContentName ac (AInt 42)
    = Panics "interface conversion: interface {} is not string" /\
  tCachedContentName (mldevClient "k") (AStr "") = Returns ("cachedContents/", None) /\
  tCachedContentName (vertexClient "p" "l") (AStr "")
    = Returns ("projects/p/locations/l/cachedContents/", None) /\
  exists name, tCachedContentName ac (AStr "") = Returns (name, None).
Proof.
  refine (conj _ (conj _ (conj _ _))); try reflexivity.
  eexists; reflexivity.
Qed.

(** ** Facts about byte slices *)

Section BytesFacts.

Implicit Types s sep pre post data : list byte.

Lemma HasPrefix_iff_app s sep :
  GoBytes.HasPrefix s sep = true <-> exists rest, s = sep ++ rest.
Proof.
  revert s; induction sep as [|p sep IH]; intros s; simpl.
  - split; [intros _; now exists s | reflexivity].
  - destruct s as [|c s].
    + split; [discriminate | intros [rest H]; discriminate].
    + rewrite andb_true_iff, bool_decide_eq_true, IH. split.
      * intros [-> [rest ->]]. now exists rest.
      * intros [rest H]. injection H as -> ->. split; [reflexivity | now exists rest].
Qed.

Lemma bytes_Index_eq s sep :
  GoBytes.Index s sep =
  if GoBytes.HasPrefix s sep then 0
  else match s with
       | [] => -1
       | _ :: s' => if GoBytes.Index s' sep <? 0 then -1 else GoBytes.Index s' sep + 1
       end.
Proof. destruct s; reflexivity. Qed.

Lemma bytes_Index_range s sep : GoBytes.Index s sep = -1 \/ 0 <= GoBytes.Index s sep.
Proof.
  induction s as [|c s IH]; rewrite bytes_Index_eq.
  - destruct (GoBytes.HasPrefix [] sep); lia.
  - destruct (GoBytes.HasPrefix (c :: s) sep); [lia |].
    destruct (Z.ltb_spec (GoBytes.Index s sep) 0); lia.
Qed.

Lemma occurs_at_0 sep s : occurs_at sep s 0 <-> GoBytes.HasPrefix s sep = true.
Proof.
  rewrite HasPrefix_iff_app. split.
  - intros (pre & post & -> & Hlen). destruct pre; [| discriminate]. now exists post.
  - intros [rest ->]. now exists [], rest.
Qed.

Lemma occurs_at_S sep c s i : occurs_at sep (c :: s) (S i) <-> occurs_at sep s i.
Proof.
  split.
  - intros (pre & post & H & Hlen). destruct pre as [|d pre]; [discriminate |].
    injection H as -> ->. injection Hlen as <-. now exists pre, post.
  - intros (pre & post & -> & <-). now exists (c :: pre), post.
Qed.

Lemma occurs_at_nil sep i : occurs_at sep [] i -> sep = [] /\ i = 0%nat.
Proof.
  intros (pre & post & H & <-). symmetry in H.
  apply app_eq_nil in H as [-> H]. apply app_eq_nil in H as [-> _]. now split.
Qed.

(** [bytes.Index] returns the index of the first occurrence... *)
Lemma bytes_Index_first s sep :
  0 <= GoBytes.Index s sep -> first_at sep s (Z.to_nat (GoBytes.Index s sep)).
Proof.
  induction s as [|c s IH]; rewrite bytes_Index_eq.
  - destruct (GoBytes.HasPrefix [] sep) eqn:Hp; [| lia].
    intros _. split; [now apply occurs_at_0 | intros j Hj; simpl in Hj; lia].
  - destruct (GoBytes.HasPrefix (c :: s) sep) eqn:Hp.
    + intros _. split; [now apply occurs_at_0 | intros j Hj; simpl in Hj; lia].
    + destruct (Z.ltb_spec (GoBytes.Index s sep) 0) as [Hlt|Hge]; [lia |].
      intros _. destruct (IH Hge) as [Hocc Hmin].
      replace (Z.to_nat (GoBytes.Index s sep + 1))
        with (S (Z.to_nat (GoBytes.Index s sep))) by lia.
      split; [now apply occurs_at_S |].
      intros [|j] Hj.
      * rewrite occurs_at_0, Hp. discriminate.
      * rewrite occurs_at_S. apply Hmin. lia.
Qed.

(** ... and [-1] only if there is none. *)
Lemma bytes_Index_absent s sep : GoBytes.Index s sep < 0 -> absent sep s.
Proof.
  induction s as [|c s IH]; rewrite bytes_Index_eq.
  - destruct (GoBytes.HasPrefix [] sep) eqn:Hp; [lia |].
    intros _ j Hocc. destruct (occurs_at_nil _ _ Hocc) as [-> ->]. discriminate.
  - destruct (GoBytes.HasPrefix (c :: s) sep) eqn:Hp; [lia |].
    destruct (Z.ltb_spec (GoBytes.Index s sep) 0) as [Hlt|Hge]; [| lia].
    intros _ [|j].
    + rewrite occurs_at_0, Hp. discriminate.
    + rewrite occurs_at_S. now apply IH.
Qed.

Lemma first_at_unique sep s i j : first_at sep s i -> first_at sep s j -> i = j.
Proof.
  intros [Hi Hmi] [Hj Hmj].
  destruct (Nat.lt_total i j) as [H | [H | H]]; [| exact H |].
  - now destruct (Hmj i H).
  - now destruct (Hmi j H).
Qed.

Lemma first_at_Index sep s i : first_at sep s i -> GoBytes.Index s sep = Z.of_nat i.
Proof.
  intros Hi. destruct (bytes_Index_range s sep) as [Hneg | Hge].
  - destruct Hi as [Hi _]. destruct (bytes_Index_absent s sep ltac:(lia) i Hi).
  - rewrite (first_at_unique _ _ _ _ Hi (bytes_Index_first s sep Hge)). lia.
Qed.

Lemma absent_Index sep s : absent sep s -> GoBytes.Index s sep = -1.
Proof.
  intros Habs. destruct (bytes_Index_range s sep) as [Hneg | Hge]; [exact Hneg |].
  destruct (bytes_Index_first s sep Hge) as [Hocc _]. now destruct (Habs _ Hocc).
Qed.

(** [dropCR] strips one trailing carriage return, and nothing else. *)
Lemma dropCR_snoc data : dropCR (data ++ [CR]) = data.
Proof.
  unfold dropCR, len. rewrite length_app. simpl length.
  replace (length data + 1 - 1)%nat with (length data) by lia.
  rewrite list_lookup_middle by reflexivity.
  rewrite bool_decide_eq_true_2 by reflexivity.
  destruct (Z.ltb_spec 0 (Z.of_nat (length data + 1))); [| lia].
  simpl. now rewrite take_app_length.
Qed.

Lemma dropCR_other data : last data <> Some CR -> dropCR data = data.
Proof.
  intros Hlast. unfold dropCR. rewrite last_lookup in Hlast.
  replace (length data - 1)%nat with (Nat.pred (length data)) by lia.
  rewrite bool_decide_eq_false_2 by exact Hlast. now rewrite andb_false_r.
Qed.

End BytesFacts.

(** ** The split function *)

(** C1, counterexample.  Where a ["\r\n\r\n"] comes before a ["\n\n"],
    the token does not end at the first delimiter; at end-of-input the
    final token loses a trailing ["\r"]; and with nothing left at
    end-of-input no token is emitted. *)
Lemma scan_differs_from_specified :
  let mixed := ["a"; CR; LF; CR; LF; "b"; LF; LF; "c"]%byte in
  (first_delimiter mixed = Some (1%nat, 4%nat) /\
   scan_as_specified mixed false = (5, Some ["a"%byte], None) /\
   scan mixed false = (8, Some ["a"; CR; LF; CR; LF; "b"]%byte, None)) /\
  (first_delimiter ["a"%byte; CR] = None /\
   scan_as_specified ["a"%byte; CR] true = (2, Some ["a"%byte; CR], None) /\
   scan ["a"%byte; CR] true = (2, Some ["a"%byte], None)) /\
  (scan_as_specified [] true = (0, Some [], None) /\
   scan [] true = (0, None, None)).
Proof. vm_compute. repeat split. Qed.

(** C1, amended.  The token is what precedes the first ["\n\n"] of the
    buffer if there is one, and otherwise what precedes the first
    ["\r\n\r\n"] if there is one, with a single trailing ["\r"] stripped
    ([dropCR_snoc], [dropCR_other]), and the scanner advances past that
    delimiter.  With no delimiter at end-of-input, what remains, with a
    single trailing ["\r"] stripped, is the final token, unless nothing
    remains: then no token is emitted.  With no delimiter and input not
    exhausted, no token is emitted and more bytes are requested. *)
Theorem scan_splits_at_blank_line (data : list byte) (atEOF : bool) :
  (forall i, first_at [LF; LF] data i ->
     scan data atEOF = (Z.of_nat i + 2, Some (dropCR (take i data)), None)) /\
  (absent [LF; LF] data ->
   forall i, first_at [CR; LF; CR; LF] data i ->
     scan data atEOF = (Z.of_nat i + 4, Some (dropCR (take i data)), None)) /\
  (absent [LF; LF] data -> absent [CR; LF; CR; LF] data ->
   atEOF = true -> data <> [] ->
     scan data atEOF = (len data, Some (dropCR data), None)) /\
  (absent [LF; LF] data -> absent [CR; LF; CR; LF] data ->
   atEOF = true -> data = [] ->
     scan data atEOF = (0, None, None)) /\
  (absent [LF; LF] data -> absent [CR; LF; CR; LF] data ->
   atEOF = false ->
     scan data atEOF = (0, None, None)).
Proof.
  assert (Hne : forall b sep i, first_at (b :: sep) data i -> (len data =? 0) = false).
  { intros b sep i [(pre & post & -> & _) _]. apply Z.eqb_neq. unfold len.
    rewrite !length_app. simpl. lia. }
  unfold scan. repeat split.
  - intros i Hi. rewrite (Hne _ _ _ Hi), andb_false_r.
    rewrite (first_at_Index _ _ _ Hi).
    destruct (Z.leb_spec 0 (Z.of_nat i)); [| lia]. now rewrite Nat2Z.id.
  - intros Habs i Hi. rewrite (Hne _ _ _ Hi), andb_false_r.
    rewrite (absent_Index _ _ Habs). simpl.
    rewrite (first_at_Index _ _ _ Hi).
    destruct (Z.leb_spec 0 (Z.of_nat i)); [| lia]. now rewrite Nat2Z.id.
  - intros H1 H2 -> Hdata. rewrite (absent_Index _ _ H1), (absent_Index _ _ H2).
    destruct data; [congruence | reflexivity].
  - intros _ _ -> ->. reflexivity.
  - intros H1 H2 ->. now rewrite (absent_Index _ _ H1), (absent_Index _ _ H2).
Qed.

Lemma scan_splits_at_blank_line_witness :
  scan ["d"; "a"; "t"; "a"; ":"; "1"; LF; LF; "r"]%byte false
    = (8, Some ["d"; "a"; "t"; "a"; ":"; "1"]%byte, None) /\
  scan ["d"; "a"; "t"; "a"; ":"; "1"; CR; LF; CR; LF; "r"]%byte false
    = (10, Some ["d"; "a"; "t"; "a"; ":"; "1"]%byte, None) /\
  scan ["d"; "a"; "t"; "a"; ":"; "1"; CR]%byte true
    = (7, Some ["d"; "a"; "t"; "a"; ":"; "1"]%byte, None) /\
  scan [] true = (0, None, None) /\
  scan ["d"; "a"; "t"; "a"; ":"; "1"; LF]%byte false = (0, None, None).
Proof.
  refine (conj _ (conj _ (conj _ (conj _ _)))).
  - destruct (scan_splits_at_blank_line
                ["d"; "a"; "t"; "a"; ":"; "1"; LF; LF; "r"]%byte false) as (H & _).
    apply (H 6%nat).
    apply (bytes_Index_first ["d"; "a"; "t"; "a"; ":"; "1"; LF; LF; "r"]%byte [LF; LF]).
    vm_compute; discriminate.
  - destruct (scan_splits_at_blank_line
                ["d"; "a"; "t"; "a"; ":"; "1"; CR; LF; CR; LF; "r"]%byte false)
      as (_ & H & _).
    apply (fun Habs => H Habs 6%nat);
      [apply bytes_Index_absent; vm_compute; reflexivity |].
    apply (bytes_Index_first ["d"; "a"; "t"; "a"; ":"; "1"; CR; LF; CR; LF; "r"]%byte
             [CR; LF; CR; LF]).
    vm_compute; discriminate.
  - destruct (scan_splits_at_blank_line ["d"; "a"; "t"; "a"; ":"; "1"; CR]%byte true)
      as (_ & _ & H & _).
    apply H; [apply bytes_Index_absent; vm_compute; reflexivity
             | apply bytes_Index_absent; vm_compute; reflexivity
             | reflexivity | discriminate].
  - destruct (scan_splits_at_blank_line [] true) as (_ & _ & _ & H & _).
    apply H; [apply bytes_Index_absent; vm_compute; reflexivity
             | apply bytes_Index_absent; vm_compute; reflexivity
             | reflexivity | reflexivity].
  - destruct (scan_splits_at_blank_line ["d"; "a"; "t"; "a"; ":"; "1"; LF]%byte false)
      as (_ & _ & _ & _ & H).
    apply H; [apply bytes_Index_absent; vm_compute; reflexivity
             | apply bytes_Index_absent; vm_compute; reflexivity
             | reflexivity].
Defined.

(** ** Transport Executor *)

Section TransportFacts.

(** [json.Unmarshal] into a [*responseWithError] and into a
    [*map[string]any]. *)
Variable unmarshalErr :
  list byte -> responseWithError -> responseWithError * option error.
Variable unmarshalMap :
  list byte -> option (gmap string any) -> option (gmap string any) * option error.

Lemma httpStatusOk_iff (resp : Response.t) :
  httpStatusOk resp = true <-> 200 <= Response.StatusCode resp < 300.
Proof. unfold httpStatusOk. rewrite andb_true_iff, Z.leb_le, Z.ltb_lt. tauto. Qed.

Lemma len_pos_iff {A : Type} (l : list A) : (0 <? len l) = true <-> l <> [].
Proof.
  unfold len. rewrite Z.ltb_lt. destruct l; simpl; split; (congruence || lia).
Qed.

Lemma len_pos {A : Type} (l : list A) : l <> [] -> (0 <? len l) = true.
Proof. apply len_pos_iff. Qed.

(** A response outside [200, 300) never yields a payload. *)
Lemma deserializeUnaryResponse_error_status (resp : Response.t) :
  httpStatusOk resp = false ->
  deserializeUnaryResponse unmarshalErr unmarshalMap resp = (e <-! newAPIError unmarshalErr resp ;; Returns (None, Some e)).
Proof. intros H. unfold deserializeUnaryResponse. now rewrite H. Qed.


(** C9.  Error decoding returns only when the decoded body has an
    [error] member.  For a response outside [200, 300) whose body is not
    empty and decodes without error, [newAPIError] returns an error value
    exactly when the decoder found an error object in it; when the body
    is well-formed JSON without one, [ErrorInfo] is still nil after the
    decoding and dereferencing it panics. *)
Theorem newAPIError_dereferences_nil (resp : Response.t) (body : list byte)
    (decoded : responseWithError) :
  ~ 200 <= Response.StatusCode resp < 300 ->
  Response.Body resp = (body, None) ->
  body <> [] ->
  unmarshalErr body {| ErrorInfo := None |} = (decoded, None) ->
  (ErrorInfo decoded = None ->
     newAPIError unmarshalErr resp = Panics "invalid memory address or nil pointer dereference" /\
     deserializeUnaryResponse unmarshalErr unmarshalMap resp
       = Panics "invalid memory address or nil pointer dereference") /\
  (forall err, newAPIError unmarshalErr resp = Returns err ->
     exists e, ErrorInfo decoded = Some e /\ err = APIErr e).
Proof.
  intros Hnok Hbody Hne Hdec.
  assert (Hst : httpStatusOk resp = false).
  { destruct (httpStatusOk resp) eqn:E; [| reflexivity]. now apply httpStatusOk_iff in E. }
  rewrite (deserializeUnaryResponse_error_status _ Hst).
  unfold newAPIError, io_ReadAll. rewrite Hbody, (len_pos _ Hne), Hdec.
  split.
  - now intros ->.
  - intros err. destruct (ErrorInfo decoded) as [e|]; [| discriminate].
    intros H; injection H as <-. now exists e.
Qed.

End TransportFacts.


Lemma newAPIError_dereferences_nil_witness :
  newAPIError example_Unmarshal_responseWithError
    (response 500 "500 Internal Server Error" emptyObjectBody)
    = Panics "invalid memory address or nil pointer dereference" /\
  deserializeUnaryResponse example_Unmarshal_responseWithError example_Unmarshal_map
    (response 500 "500 Internal Server Error" emptyObjectBody)
    = Panics "invalid memory address or nil pointer dereference".
Proof.
  destruct (newAPIError_dereferences_nil example_Unmarshal_responseWithError
              example_Unmarshal_map
              (response 500 "500 Internal Server Error" emptyObjectBody)
              emptyObjectBody {| ErrorInfo := None |}) as [Hnil _];
    [simpl; lia | reflexivity | discriminate | reflexivity |].
  apply Hnil. reflexivity.
Defined.

(** ** Stream Decoder: the iterator *)

Section IteratorFacts.

Variables (R St : Type).

(** [json.Unmarshal] into a [*map[string]any], the conversion function,
    and the consumer. *)
Variable unmarshalMap :
  list byte -> option (gmap string any) -> option (gmap string any) * option error.
Variable responseConverter : option (gmap string any) -> option R * option error.
Variable yield : option R * option error -> St -> bool * St.

(** The consumer keeps pulling. *)
Hypothesis yield_pulls : forall it st, fst (yield it st) = true.

Local Abbreviation items := (items_of R St unmarshalMap responseConverter yield).
Local Abbreviation conversions := (converted_of R St unmarshalMap responseConverter yield).
Local Abbreviation events := (token_events R unmarshalMap responseConverter).

Lemma do_yield_pulls (it : item R) (s : run R St) :
  exists st, do_yield R St yield it s = (true, (st, snd s ++ [EvYield it])).
Proof.
  unfold do_yield. specialize (yield_pulls it (fst s)).
  destruct (yield it (fst s)) as [b st]. simpl in yield_pulls. subst b. now exists st.
Qed.

Lemma iterate_token_pulls (line : list byte) (s : run R St) :
  exists st,
    iterate_token R St unmarshalMap responseConverter yield line s
      = (true, (st, snd s ++ events line)).
Proof.
  unfold iterate_token, token_events, convert_and_yield, yield_response.
  destruct (len line =? 0).
  { exists (fst s). rewrite app_nil_r. now destruct s. }
  destruct (GoBytes.Cut line [":"%byte]) as [[prefix data] found].
  destruct (String.eqb (string_of_list_byte prefix) "data").
  - destruct (unmarshalMap data (Some ∅)) as [respRaw [uerr|]];
      destruct (responseConverter respRaw) as [resp [cerr|]]; simpl;
      repeat match goal with
        | |- context [do_yield R St yield ?it ?s] =>
            let st := fresh "st" in let E := fresh "E" in
            destruct (do_yield_pulls it s) as [st E]; rewrite E; clear E; simpl
        end;
      eexists; rewrite <- ?app_assoc; reflexivity.
  - destruct (do_yield_pulls
                (None,
                 Some (Errorf "iterateResponseStream: invalid stream chunk: %s:%s"
                         [AStr (string_of_list_byte prefix);
                          AStr (string_of_list_byte data)] None)) s) as [st E].
    exists st. exact E.
Qed.

Lemma iterate_tokens_pulls (tokens : list (list byte)) (s : run R St) :
  exists st,
    iterate_tokens R St unmarshalMap responseConverter yield tokens s
      = (true, (st, snd s ++ concat (map events tokens))).
Proof.
  revert s; induction tokens as [|line tokens IH]; intros s; simpl.
  - exists (fst s). rewrite app_nil_r. now destruct s.
  - destruct (iterate_token_pulls line s) as [st E]. rewrite E.
    destruct (IH (st, snd s ++ events line)) as [st' E']. rewrite E'.
    exists st'. simpl. now rewrite app_assoc.
Qed.

Lemma items_of_events (tokens : list (list byte)) (st : St) :
  items tokens st = omap (event_item R) (concat (map events tokens)).
Proof.
  unfold items_of, iterateResponseStream, yielded, close_body. simpl.
  destruct (iterate_tokens_pulls tokens (st, [])) as [st' E]. rewrite E. simpl.
  now rewrite omap_app, app_nil_r.
Qed.

Lemma converted_of_events (tokens : list (list byte)) (st : St) :
  conversions tokens st = omap (event_converted R) (concat (map events tokens)).
Proof.
  unfold converted_of, iterateResponseStream, converted, close_body. simpl.
  destruct (iterate_tokens_pulls tokens (st, [])) as [st' E]. rewrite E. simpl.
  now rewrite omap_app, app_nil_r.
Qed.

(** The items of a run are those of its tokens, in order. *)
Lemma items_of_middle (pre rest : list (list byte)) (line : list byte) (st : St) :
  items (pre ++ line :: rest) st
    = items pre st ++ omap (event_item R) (events line) ++ items rest st.
Proof.
  rewrite !items_of_events, map_app, concat_app, omap_app. simpl.
  now rewrite omap_app.
Qed.

Lemma token_events_cut (line prefix data : list byte) (found : bool) :
  GoBytes.Cut line [":"%byte] = (prefix, data, found) ->
  token_prefix line = string_of_list_byte prefix /\ token_payload line = data.
Proof. unfold token_prefix, token_payload. now intros ->. Qed.

(** The items of a faulty token start with its error. *)
Lemma faulty_token_items (line : list byte) (err : error) :
  line <> [] ->
  faulty_token R unmarshalMap responseConverter line err ->
  exists more, omap (event_item R) (events line) = (None, Some err) :: more.
Proof.
  intros Hne Hf. unfold token_events.
  destruct (Z.eqb_spec (len line) 0) as [Hl|_].
  { destruct line; [congruence | discriminate Hl]. }
  destruct (GoBytes.Cut line [":"%byte]) as [[prefix data] found] eqn:Hcut.
  destruct (token_events_cut _ _ _ _ Hcut) as [Hp Hd].
  unfold faulty_token in Hf. rewrite Hp, Hd in Hf.
  unfold invalid_chunk_error, unmarshal_error in Hf. rewrite ?Hp, ?Hd in Hf.
  destruct Hf as [[Hnd ->] | [[Hdata (respRaw & e & Hu & ->)]
                             | [Hdata (respRaw & resp & Hu & Hc)]]].
  - apply String.eqb_neq in Hnd. rewrite Hnd. now exists [].
  - apply String.eqb_eq in Hdata. rewrite Hdata, Hu.
    destruct (responseConverter respRaw) as [resp cerr]. simpl. eauto.
  - apply String.eqb_eq in Hdata. rewrite Hdata, Hu, Hc. simpl. eauto.
Qed.

(** The one item of a well-formed token is its event. *)
Lemma well_formed_token_items (line : list byte) (ev : R) :
  line <> [] ->
  well_formed_token R unmarshalMap responseConverter line ev ->
  omap (event_item R) (events line) = [(Some ev, None)].
Proof.
  intros Hne (Hdata & respRaw & Hu & Hc). unfold token_events.
  destruct (Z.eqb_spec (len line) 0) as [Hl|_].
  { destruct line; [congruence | discriminate Hl]. }
  destruct (GoBytes.Cut line [":"%byte]) as [[prefix data] found] eqn:Hcut.
  destruct (token_events_cut _ _ _ _ Hcut) as [Hp Hd].
  rewrite Hp in Hdata. rewrite Hd in Hu.
  apply String.eqb_eq in Hdata. now rewrite Hdata, Hu, Hc.
Qed.

Lemma well_formed_token_nonempty (line : list byte) (ev : R) :
  well_formed_token R unmarshalMap responseConverter line ev -> line <> [].
Proof. intros [Hdata _] ->. discriminate Hdata. Qed.

(** C7, amended.  A non-empty token that is faulty -- its prefix is not
    [data], or its payload fails JSON parsing or conversion -- is
    reported as a per-item error, and the error does not end the
    sequence: for a consumer that keeps pulling, the tokens after it are
    still processed, and a well-formed [data:] token among them decodes
    into its event. *)
Theorem stream_error_is_per_item (pre mid post : list (list byte))
    (bad good : list byte) (err : error) (ev : R) (st : St) :
  bad <> [] ->
  faulty_token R unmarshalMap responseConverter bad err ->
  well_formed_token R unmarshalMap responseConverter good ev ->
  exists more,
    items (pre ++ bad :: mid ++ good :: post) st
      = items pre st ++ (None, Some err) :: more ++
        items mid st ++ (Some ev, None) :: items post st.
Proof.
  intros Hne Hbad Hgood.
  destruct (faulty_token_items bad err Hne Hbad) as [more Hitems].
  exists more. rewrite items_of_middle, Hitems, items_of_middle.
  rewrite (well_formed_token_items good ev (well_formed_token_nonempty _ _ Hgood) Hgood).
  reflexivity.
Qed.

(** C10, amended.  A [data] token whose payload fails to unmarshal, or
    whose conversion fails, is not skipped when the consumer keeps
    pulling.  After the unmarshal error the conversion function is
    still called, on the map as the failed unmarshal left it; and after
    the error items one more item is yielded for the token: the event
    the conversion function returned, paired with a nil error (a nil
    event when the conversion function returned none). *)
Theorem faulty_data_token_not_skipped (pre rest : list (list byte))
    (line : list byte) (st : St)
    (respRaw : option (gmap string any)) (uerr cerr : option error)
    (resp : option R) :
  line <> [] ->
  token_prefix line = "data" ->
  unmarshalMap (token_payload line) (Some ∅) = (respRaw, uerr) ->
  responseConverter respRaw = (resp, cerr) ->
  conversions [line] st = [respRaw] /\
  (forall e, uerr = Some e -> cerr = None ->
     items (pre ++ line :: rest) st
       = items pre st ++ [(None, Some (unmarshal_error line e)); (resp, None)] ++
         items rest st) /\
  (forall e e', uerr = Some e -> cerr = Some e' ->
     items (pre ++ line :: rest) st
       = items pre st ++
         [(None, Some (unmarshal_error line e)); (None, Some e'); (resp, None)] ++
         items rest st) /\
  (forall e', uerr = None -> cerr = Some e' ->
     items (pre ++ line :: rest) st
       = items pre st ++ [(None, Some e'); (resp, None)] ++ items rest st).
Proof.
  intros Hne Hdata Hu Hc.
  assert (Hev : events line =
    match uerr with
    | Some err => [EvYield (None, Some (unmarshal_error line err))]
    | None => []
    end ++ [EvConvert respRaw] ++
    match cerr with Some err => [EvYield (None, Some err)] | None => [] end ++
    [EvYield (resp, None)]).
  { unfold token_events, unmarshal_error.
    destruct (Z.eqb_spec (len line) 0) as [Hl|_].
    { destruct line; [congruence | discriminate Hl]. }
    destruct (GoBytes.Cut line [":"%byte]) as [[prefix data] found] eqn:Hcut.
    destruct (token_events_cut _ _ _ _ Hcut) as [Hp Hd].
    rewrite Hp in Hdata |- *. rewrite Hd in Hu |- *.
    apply String.eqb_eq in Hdata. now rewrite Hdata, Hu, Hc. }
  split; [| split; [| split]].
  - rewrite converted_of_events. simpl. rewrite app_nil_r, Hev.
    destruct uerr, cerr; reflexivity.
  - intros e -> ->. rewrite items_of_middle, Hev. reflexivity.
  - intros e e' -> ->. rewrite items_of_middle, Hev. reflexivity.
  - intros e' -> ->. rewrite items_of_middle, Hev. reflexivity.
Qed.

End IteratorFacts.

(** C7, counterexample.  The scanner delivers empty tokens (here, for a
    buffer that starts with a blank line); the prefix of an empty token
    is not [data]; and the iterator skips it without an error item. *)
Lemma empty_token_yields_no_error :
  scan [LF; LF; "d"; "a"; "t"; "a"; ":"; "{"; "}"; LF; LF]%byte false = (2, Some [], None) /\
  token_prefix [] <> "data" /\
  items_of nat unit example_Unmarshal_map accepting_converter always_pull [[]] tt = [] /\
  items_of nat unit example_Unmarshal_map accepting_converter always_pull
    [[]; dataToken] tt = [(Some 0%nat, None)].
Proof.
  split; [reflexivity | split; [discriminate | split; reflexivity]].
Qed.

Lemma stream_error_is_per_item_witness :
  exists more,
    items_of nat unit example_Unmarshal_map accepting_converter always_pull
      ([] ++ pingToken :: [] ++ dataToken :: []) tt
    = items_of nat unit example_Unmarshal_map accepting_converter always_pull [] tt ++
      (None, Some (invalid_chunk_error pingToken)) :: more ++
      items_of nat unit example_Unmarshal_map accepting_converter always_pull [] tt ++
      (Some 0%nat, None) ::
      items_of nat unit example_Unmarshal_map accepting_converter always_pull [] tt.
Proof.
  apply (stream_error_is_per_item nat unit example_Unmarshal_map accepting_converter
           always_pull (fun _ _ => eq_refl) [] [] [] pingToken dataToken
           (invalid_chunk_error pingToken) 0%nat tt).
  - discriminate.
  - left. split; [discriminate | reflexivity].
  - split; [reflexivity |]. exists (Some ∅). split; reflexivity.
Defined.

(** C10, counterexample.  The payload of [data:x] fails to unmarshal and
    the conversion function accepts the map the failed unmarshal left:
    the additional item of the token is the converted event with a nil
    error, and no item is a nil event paired with a nil error. *)
Lemma additional_item_is_not_nil :
  example_Unmarshal_map (token_payload brokenToken) (Some ∅)
    = (Some ∅, Some (LibError "invalid character looking for beginning of value")) /\
  items_of nat unit example_Unmarshal_map accepting_converter always_pull [brokenToken] tt
    = [(None,
        Some (unmarshal_error brokenToken
                (LibError "invalid character looking for beginning of value")));
       (Some 0%nat, None)] /\
  (None, None) ∉
    items_of nat unit example_Unmarshal_map accepting_converter always_pull [brokenToken] tt.
Proof.
  split; [reflexivity | split; [reflexivity |]].
  intros H. apply list_elem_of_In in H. vm_compute in H.
  destruct H as [H | [H | []]]; discriminate H.
Qed.

Lemma faulty_data_token_not_skipped_witness :
  converted_of nat unit example_Unmarshal_map rejecting_converter always_pull
    [brokenToken] tt = [Some ∅] /\
  items_of nat unit example_Unmarshal_map rejecting_converter always_pull
    ([] ++ brokenToken :: [dataToken]) tt
  = items_of nat unit example_Unmarshal_map rejecting_converter always_pull [] tt ++
    [(None, Some (unmarshal_error brokenToken
                    (LibError "invalid character looking for beginning of value")));
     (None, Some (LibError "mapToStruct: error unmarshalling input"));
     (None, None)] ++
    items_of nat unit example_Unmarshal_map rejecting_converter always_pull [dataToken] tt.
Proof.
  destruct (faulty_data_token_not_skipped nat unit example_Unmarshal_map
              rejecting_converter always_pull (fun _ _ => eq_refl) [] [dataToken]
              brokenToken tt (Some ∅)
              (Some (LibError "invalid character looking for beginning of value"))
              (Some (LibError "mapToStruct: error unmarshalling input")) None)
    as (Hconv & _ & Hboth & _);
    [discriminate | reflexivity | reflexivity | reflexivity |].
  split; [exact Hconv |].
  apply (Hboth _ _ eq_refl eq_refl).
Defined.

(** ** Realtime Session: [Send] *)

Section SessionFacts.

Variables (LiveClientMessage LiveClientSetup : Type).
Variable Setup : LiveClientMessage -> option LiveClientSetup.
Variable json_Marshal : LiveClientMessage -> list byte * option error.
Variable Conn : Type.
Variable WriteMessage : Conn -> Z -> list byte -> option error * Conn.

Local Abbreviation send := (Send LiveClientMessage LiveClientSetup Setup json_Marshal
                              Conn WriteMessage).

(** C8, amended.  A message whose [Setup] is not nil is rejected with an
    explicit error and no frame is written.  A message whose [Setup] is
    nil is serialized to JSON: if that succeeds, exactly one text frame
    is written, carrying the JSON, and [Send] returns what the write
    returned; if it fails, [Send] returns an explicit error and no frame
    is written. *)
Theorem Send_writes_one_text_frame (s : Session Conn) (input : LiveClientMessage) :
  (forall setup, Setup input = Some setup ->
     send s input
       = (Some (Errorf "message SetUp is not supported in Send(). Use Connect() instead"
                  [] None), s, [])) /\
  (Setup input = None ->
   forall data, json_Marshal input = (data, None) ->
     send s input
       = (fst (WriteMessage (conn s) websocket_TextMessage data),
          {| conn := snd (WriteMessage (conn s) websocket_TextMessage data);
             session_apiClient := session_apiClient s |},
          [(websocket_TextMessage, data)])) /\
  (Setup input = None ->
   forall data err, json_Marshal input = (data, Some err) ->
     send s input
       = (Some (Errorf "marshal client message error: %w" [] (Some err)), s, [])).
Proof.
  unfold Send. split; [| split].
  - now intros setup ->.
  - intros -> data ->. now destruct (WriteMessage _ _ _).
  - now intros -> data err ->.
Qed.

End SessionFacts.

(** C8, counterexample.  A message whose [Setup] is nil and which
    cannot be marshalled: [Send] returns the marshalling error and writes
    no frame. *)
Lemma Send_writes_nothing_when_marshal_fails :
  let input := mkExampleMessage None (inr (LibError "json: unsupported value: NaN")) in
  example_setup input = None /\
  Send exampleMessage string example_setup example_Marshal recordingConn
    recording_WriteMessage (mkSession (Conn := recordingConn) [] (mldevClient "k")) input
  = (Some (Errorf "marshal client message error: %w" []
             (Some (LibError "json: unsupported value: NaN"))),
     mkSession (Conn := recordingConn) [] (mldevClient "k"), []).
Proof. split; reflexivity. Qed.

Lemma Send_writes_one_text_frame_witness :
  let hello := list_byte_of_string "{}" in
  Send exampleMessage string example_setup example_Marshal recordingConn
    recording_WriteMessage (mkSession (Conn := recordingConn) [] (mldevClient "k"))
    (mkExampleMessage None (inl hello))
  = (None, mkSession (Conn := recordingConn) [(websocket_TextMessage, hello)] (mldevClient "k"),
     [(websocket_TextMessage, hello)]) /\
  Send exampleMessage string example_setup example_Marshal recordingConn
    recording_WriteMessage (mkSession (Conn := recordingConn) [] (mldevClient "k"))
    (mkExampleMessage (Some "models/m") (inl hello))
  = (Some (Errorf "message SetUp is not supported in Send(). Use Connect() instead"
             [] None),
     mkSession (Conn := recordingConn) [] (mldevClient "k"), []).
Proof.
  split.
  - destruct (Send_writes_one_text_frame exampleMessage string example_setup
                example_Marshal recordingConn recording_WriteMessage
                (mkSession (Conn := recordingConn) [] (mldevClient "k"))
                (mkExampleMessage None (inl (list_byte_of_string "{}"))))
      as (_ & Hnil & _).
    apply (Hnil eq_refl (list_byte_of_string "{}") eq_refl).
  - destruct (Send_writes_one_text_frame exampleMessage string example_setup
                example_Marshal recordingConn recording_WriteMessage
                (mkSession (Conn := recordingConn) [] (mldevClient "k"))
                (mkExampleMessage (Some "models/m") (inl (list_byte_of_string "{}"))))
      as (Hsetup & _).
    apply (Hsetup "models/m" eq_refl).
Defined.

(** ** Chunked Uploader *)

Lemma wrap64_in_range (z : Z) : in_int64 z -> wrap64 z = z.
Proof.
  unfold in_int64, wrap64. intros H.
  change (2 ^ 64) with (2 * 2 ^ 63). set (k := 2 ^ 63) in *.
  assert (0 < k) by reflexivity. clearbody k.
  rewrite Z.mod_small by lia. lia.
Qed.

Lemma float64_of_int64_small (x : Z) : Z.abs x < 2 ^ 53 -> float64_of_int64 x = x.
Proof.
  intros H. unfold float64_of_int64.
  destruct (Z.ltb_spec (Z.abs x) (2 ^ 53)); [reflexivity | lia].
Qed.

(** Rounding keeps the sign, and a large number stays large. *)
Lemma float64_of_int64_large (x : Z) :
  2 ^ 53 <= Z.abs x ->
  2 ^ 53 <= Z.abs (float64_of_int64 x) /\ Z.sgn (float64_of_int64 x) = Z.sgn x.
Proof.
  intros H. unfold float64_of_int64.
  destruct (Z.ltb_spec (Z.abs x) (2 ^ 53)); [lia |].
  assert (Ha : 0 < Z.abs x) by (assert (0 < 2 ^ 53) by reflexivity; lia).
  pose proof (Z.log2_spec _ Ha) as [Hlo _].
  assert (Hlog : 53 <= Z.log2 (Z.abs x)) by (apply Z.log2_le_pow2; lia).
  assert (Hpow : 2 ^ Z.log2 (Z.abs x) = 2 ^ 52 * 2 ^ (Z.log2 (Z.abs x) - 52)).
  { rewrite <- Z.pow_add_r by lia. f_equal. lia. }
  assert (Hpe : 2 <= 2 ^ (Z.log2 (Z.abs x) - 52)).
  { change 2 with (2 ^ 1) at 1. apply Z.pow_le_mono_r; lia. }
  assert (Hq : 2 ^ 52 <= Z.abs x / 2 ^ (Z.log2 (Z.abs x) - 52)).
  { apply Z.div_le_lower_bound; lia. }
  set (p := 2 ^ (Z.log2 (Z.abs x) - 52)) in *.
  set (q := Z.abs x / p) in *.
  set (q' := if Z.abs x mod p <? 2 ^ (Z.log2 (Z.abs x) - 52 - 1) then q
             else if 2 ^ (Z.log2 (Z.abs x) - 52 - 1) <? Z.abs x mod p then q + 1
             else if Z.even q then q else q + 1).
  assert (Hq' : q <= q').
  { subst q'. repeat destruct (_ <? _); try destruct (Z.even q); lia. }
  assert (Hprod : 2 ^ 53 <= q' * p).
  { change (2 ^ 53) with (2 ^ 52 * 2). clearbody q' q p.
    assert (0 < 2 ^ 52) by reflexivity. nia. }
  clearbody q' q p.
  assert (0 < 2 ^ 53) by reflexivity.
  assert (Hpos : 0 < q' * p) by lia.
  destruct (Z.sgn_spec x) as [[Hx ->] | [[Hx ->] | [Hx ->]]]; [| lia |].
  - rewrite Z.mul_1_l. split; [lia | now apply Z.sgn_pos].
  - split; [lia | apply Z.sgn_neg; lia].
Qed.

(** [chunkSize] is [min(maxChunkSize, remaining)] when bytes remain ... *)
Lemma chunk_size_remaining (uploadSize offset : Z) :
  in_int64 (uploadSize - offset) -> 0 <= uploadSize - offset ->
  chunk_size uploadSize offset = Z.min maxChunkSize (uploadSize - offset).
Proof.
  intros Hr Hpos. unfold chunk_size. rewrite (wrap64_in_range _ Hr).
  destruct (Z.lt_ge_cases (Z.abs (uploadSize - offset)) (2 ^ 53)) as [Hs | Hl].
  - now rewrite float64_of_int64_small.
  - destruct (float64_of_int64_large _ Hl) as [Habs Hsgn].
    assert (H53 : 0 < 2 ^ 53) by reflexivity.
    assert (0 < uploadSize - offset) by lia.
    rewrite (Z.sgn_pos (uploadSize - offset)) in Hsgn by lia.
    assert (0 < float64_of_int64 (uploadSize - offset)) by (apply Z.sgn_pos_iff; exact Hsgn).
    assert (Hm : maxChunkSize < 2 ^ 53) by reflexivity.
    lia.
Qed.

(** ... and negative when the offset is past the declared size. *)
Lemma chunk_size_negative (uploadSize offset : Z) :
  in_int64 (uploadSize - offset) -> uploadSize - offset < 0 ->
  chunk_size uploadSize offset < 0.
Proof.
  intros Hr Hneg. unfold chunk_size. rewrite (wrap64_in_range _ Hr).
  destruct (Z.lt_ge_cases (Z.abs (uploadSize - offset)) (2 ^ 53)) as [Hs | Hl].
  - rewrite float64_of_int64_small by exact Hs. lia.
  - destruct (float64_of_int64_large _ Hl) as [Habs Hsgn].
    rewrite (Z.sgn_neg (uploadSize - offset)) in Hsgn by lia.
    assert (float64_of_int64 (uploadSize - offset) < 0) by (apply Z.sgn_neg_iff; exact Hsgn).
    lia.
Qed.

#[local] Arguments uploadFile_finish : simpl never.

Section UploaderFacts.

Variable File : Type.
Variable zeroFile : File.
Variable Reader : Type.
Variable Read : Reader -> Z -> (Z * list byte * option error) * Reader.
Variable Server : Type.
Variable Do : Server -> Request.t -> (Response.t + error) * Server.
Variable newRequestError : string -> option error.
Variable mergedHeaders : http.Header.
Variable unmarshalErr :
  list byte -> responseWithError -> responseWithError * option error.
Variable unmarshalMap :
  list byte -> option (gmap string any) -> option (gmap string any) * option error.
Variable jsonEncode : gmap string any -> list byte * option error.
Variable unmarshalFile : list byte -> option File -> option File * option error.

Local Abbreviation run_t := (upload_run Reader Server).
Local Abbreviation finish :=
  (uploadFile_finish File zeroFile Reader Server jsonEncode unmarshalFile).
Local Abbreviation turn_of :=
  (uploadFile_turn File zeroFile Reader Read Server Do newRequestError mergedHeaders
     unmarshalErr unmarshalMap jsonEncode unmarshalFile).
Local Abbreviation loop :=
  (uploadFile_loop File zeroFile Reader Read Server Do newRequestError mergedHeaders
     unmarshalErr unmarshalMap jsonEncode unmarshalFile).
Local Abbreviation upload :=
  (uploadFile File zeroFile Reader Read Server Do newRequestError mergedHeaders
     unmarshalErr unmarshalMap jsonEncode unmarshalFile).
Local Abbreviation request := (chunk_request mergedHeaders).










End UploaderFacts.


(** ** Resource Namer: the remaining cases *)

Section CountFacts.

Implicit Types s a b : string.

Lemma Count_eq s sep :
  GoStrings.Count s sep = GoStrings.Count_from O s sep.
Proof. reflexivity. Qed.

(** For a one-byte separator, [Count] counts the bytes equal to it. *)
Lemma Count_byte_cons c x s :
  GoStrings.Count (String x s) (String c "")
    = (if ascii_dec c x then 1 else 0) + GoStrings.Count s (String c "").
Proof.
  unfold GoStrings.Count. simpl.
  destruct (ascii_dec c x); [| reflexivity]. now destruct s.
Qed.

Lemma Count_byte_append c a b :
  GoStrings.Count (a +:+ b) (String c "")
    = GoStrings.Count a (String c "") + GoStrings.Count b (String c "").
Proof.
  induction a as [|x a IH].
  - reflexivity.
  - change (String x a +:+ b) with (String x (a +:+ b)).
    rewrite !Count_byte_cons, IH. lia.
Qed.

Lemma Count_byte_nonneg c s : 0 <= GoStrings.Count s (String c "").
Proof.
  induction s as [|x s IH]; [reflexivity |].
  rewrite Count_byte_cons. destruct (ascii_dec c x); lia.
Qed.

Lemma Count_byte_zero c s :
  GoStrings.Count s (String c "") = 0 <-> GoStrings.Contains s (String c "") = false.
Proof.
  unfold GoStrings.Contains. rewrite Z.leb_gt.
  induction s as [|x s IH].
  - split; [intros _; reflexivity | reflexivity].
  - rewrite Count_byte_cons, Index_eq. simpl String.prefix.
    pose proof (Count_byte_nonneg c s) as Hnn.
    destruct (ascii_dec c x).
    + replace (String.prefix "" s) with true by now destruct s.
      split; lia.
    + destruct (Z.ltb_spec (GoStrings.Index s (String c "")) 0) as [Hlt | Hge].
      * split; [lia | intros _; apply IH in Hlt; lia].
      * pose proof (Index_range s (String c "")) as Hr.
        split; [intros Hc; apply IH in Hc; lia | lia].
Qed.

End CountFacts.

(** An identifier that does not start with a known prefix gets the
    collection (and, on the hosted backend, the project and location)
    prepended exactly when the resulting path has the collection's
    depth; otherwise it is returned as it is. *)
Lemma tResourceName_unprefixed_eq (ac : apiClient) (name coll : string) (depth : Z) :
  GoStrings.HasPrefix name (coll +:+ "/") = false ->
  (backend (clientConfig ac) = BackendVertexAI ->
     GoStrings.HasPrefix name "projects/" = false /\
     GoStrings.HasPrefix name "locations/" = false) ->
  tResourceName ac name coll depth
    = if GoStrings.Count coll "/" + GoStrings.Count name "/" + 2 =? depth then
        match backend (clientConfig ac) with
        | BackendVertexAI =>
            "projects/" +:+ Project (clientConfig ac) +:+ "/locations/" +:+
            Location (clientConfig ac) +:+ "/" +:+ coll +:+ "/" +:+ name
        | _ => coll +:+ "/" +:+ name
        end
      else name.
Proof.
  intros Hcoll Hv. unfold tResourceName. rewrite Hcoll. simpl negb.
  rewrite andb_true_l.
  replace (GoStrings.Count (coll +:+ "/" +:+ name) "/" + 1)
    with (GoStrings.Count coll "/" + GoStrings.Count name "/" + 2).
  2:{ rewrite !(Count_byte_append "/"%char). change (GoStrings.Count "/" "/") with 1. lia. }
  destruct (backend (clientConfig ac)).
  - reflexivity.
  - destruct (Hv eq_refl) as [-> ->]. reflexivity.
Qed.

(** A name [tResourceName] returns is one it returns as it is. *)
Lemma tResourceName_fixed (ac : apiClient) (name coll : string) (depth : Z) :
  tResourceName ac (tResourceName ac name coll depth) coll depth
    = tResourceName ac name coll depth.
Proof.
  unfold tResourceName at 2 3.
  destruct (backend (clientConfig ac)) eqn:Hb.
  - destruct (negb _ && _) eqn:Hs.
    + unfold tResourceName. rewrite Hb.
      assert (H : GoStrings.HasPrefix (coll +:+ "/" +:+ name) (coll +:+ "/") = true).
      { apply HasPrefix_iff. exists name. now rewrite append_assoc. }
      now rewrite H.
    + unfold tResourceName. now rewrite Hb, Hs.
  - assert (Hp : forall x, GoStrings.HasPrefix ("projects/" +:+ x) "projects/" = true).
    { intros x. apply prefix_append. }
    destruct (GoStrings.HasPrefix name "projects/") eqn:H1.
    { unfold tResourceName. now rewrite Hb, H1. }
    destruct (GoStrings.HasPrefix name "locations/") eqn:H2.
    { unfold tResourceName. now rewrite Hb, Hp. }
    destruct (GoStrings.HasPrefix name (coll +:+ "/")) eqn:H3.
    { unfold tResourceName. now rewrite Hb, Hp. }
    destruct (negb _ && _) eqn:Hs.
    { unfold tResourceName. now rewrite Hb, Hp. }
    unfold tResourceName. now rewrite Hb, H1, H2, H3, Hs.
Qed.

(** X2.  An identifier without a known prefix.  When the identifier
    does not start with [<collection>/] (nor, on the hosted backend, with
    [projects/] or [locations/]), the collection is prepended exactly
    when the path so made has the depth of the collection, counted in
    slashes -- for [cachedContents], with depth 2, exactly when the
    identifier has no slash -- and on the hosted backend the project and
    the location are prepended with it; in every other case the
    identifier is returned as it is. *)
Theorem tResourceName_unprefixed (ac : apiClient) (name coll : string) (depth : Z) :
  GoStrings.HasPrefix name (coll +:+ "/") = false ->
  (backend (clientConfig ac) = BackendVertexAI ->
     GoStrings.HasPrefix name "projects/" = false /\
     GoStrings.HasPrefix name "locations/" = false) ->
  (GoStrings.Count coll "/" + GoStrings.Count name "/" + 2 = depth ->
     tResourceName ac name coll depth
       = match backend (clientConfig ac) with
         | BackendVertexAI =>
             "projects/" +:+ Project (clientConfig ac) +:+ "/locations/" +:+
             Location (clientConfig ac) +:+ "/" +:+ coll +:+ "/" +:+ name
         | _ => coll +:+ "/" +:+ name
         end) /\
  (GoStrings.Count coll "/" + GoStrings.Count name "/" + 2 <> depth ->
     tResourceName ac name coll depth = name).
Proof.
  intros Hcoll Hv. rewrite (tResourceName_unprefixed_eq _ _ _ _ Hcoll Hv).
  split; intros Hd.
  - apply Z.eqb_eq in Hd. now rewrite Hd.
  - apply Z.eqb_neq in Hd. now rewrite Hd.
Qed.

Lemma tResourceName_unprefixed_witness :
  tResourceName (mldevClient "k") "abc" "cachedContents" 2 = "cachedContents/abc" /\
  tResourceName (vertexClient "p" "l") "abc" "cachedContents" 2
    = "projects/p/locations/l/cachedContents/abc" /\
  tResourceName (vertexClient "p" "l") "us/abc" "cachedContents" 2 = "us/abc".
Proof.
  refine (conj _ (conj _ _)).
  - destruct (tResourceName_unprefixed (mldevClient "k") "abc" "cachedContents" 2)
      as [H _]; [reflexivity | intros H; discriminate H |].
    apply H. reflexivity.
  - destruct (tResourceName_unprefixed (vertexClient "p" "l") "abc" "cachedContents" 2)
      as [H _]; [reflexivity | intros _; split; reflexivity |].
    apply H. reflexivity.
  - destruct (tResourceName_unprefixed (vertexClient "p" "l") "us/abc" "cachedContents" 2)
      as [_ H]; [reflexivity | intros _; split; reflexivity |].
    apply H. intros H'; vm_compute in H'; discriminate H'.
Defined.

(** ** Model names *)

Lemma HasPrefix_append (p rest : string) : GoStrings.HasPrefix (p +:+ rest) p = true.
Proof. apply prefix_append. Qed.

Lemma HasPrefix_nonempty (s p : string) :
  GoStrings.HasPrefix s p = true -> p <> "" -> String.eqb s "" = false.
Proof.
  intros Hp Hne. apply String.eqb_neq. intros ->.
  apply HasPrefix_iff in Hp as [rest Hrest]. destruct p; [congruence | discriminate].
Qed.

(** The names [tModel] returns as they are. *)
Lemma tModel_vertex_qualified (ac : apiClient) (name : string) :
  backend (clientConfig ac) = BackendVertexAI ->
  GoStrings.HasPrefix name "projects/" = true \/
  GoStrings.HasPrefix name "models/" = true \/
  GoStrings.HasPrefix name "publishers/" = true ->
  tModel ac (AStr name) = (name, None).
Proof.
  intros Hb Hp. unfold tModel.
  rewrite bool_decide_eq_true_2 by exact Hb.
  destruct Hp as [Hp | [Hp | Hp]];
    rewrite (HasPrefix_nonempty _ _ Hp) by discriminate;
    rewrite Hp, ?orb_true_r; reflexivity.
Qed.

Lemma tModel_mldev_qualified (ac : apiClient) (name : string) :
  backend (clientConfig ac) <> BackendVertexAI ->
  GoStrings.HasPrefix name "models/" = true \/
  GoStrings.HasPrefix name "tunedModels/" = true ->
  tModel ac (AStr name) = (name, None).
Proof.
  intros Hb Hp. unfold tModel.
  rewrite bool_decide_eq_false_2 by exact Hb.
  destruct Hp as [Hp | Hp];
    rewrite (HasPrefix_nonempty _ _ Hp) by discriminate;
    rewrite Hp, ?orb_true_r; reflexivity.
Qed.

(** The name [tModel] returns for a non-empty string carries one of the
    prefixes it looks for. *)
Lemma tModel_qualified (ac : apiClient) (model : string) :
  model <> "" ->
  snd (tModel ac (AStr model)) = None /\
  if bool_decide (backend (clientConfig ac) = BackendVertexAI) then
    GoStrings.HasPrefix (fst (tModel ac (AStr model))) "projects/" = true \/
    GoStrings.HasPrefix (fst (tModel ac (AStr model))) "models/" = true \/
    GoStrings.HasPrefix (fst (tModel ac (AStr model))) "publishers/" = true
  else
    GoStrings.HasPrefix (fst (tModel ac (AStr model))) "models/" = true \/
    GoStrings.HasPrefix (fst (tModel ac (AStr model))) "tunedModels/" = true.
Proof.
  intros Hne. apply String.eqb_neq in Hne. unfold tModel. rewrite Hne.
  destruct (bool_decide (backend (clientConfig ac) = BackendVertexAI)).
  - destruct (GoStrings.HasPrefix model "projects/") eqn:H1; [simpl; auto |].
    destruct (GoStrings.HasPrefix model "models/") eqn:H2; [simpl; auto |].
    destruct (GoStrings.HasPrefix model "publishers/") eqn:H3; [simpl; auto |].
    simpl orb. cbv iota.
    destruct (GoStrings.Contains model "/"); simpl fst; simpl snd;
      (split; [reflexivity |]); right; right; exact (HasPrefix_append "publishers/" _).
  - destruct (GoStrings.HasPrefix model "models/") eqn:H1; [simpl; auto |].
    destruct (GoStrings.HasPrefix model "tunedModels/") eqn:H2; [simpl; auto |].
    simpl fst; simpl snd. split; [reflexivity |]. left.
    exact (HasPrefix_append "models/" _).
Qed.

(** The name [tModel] gives is one it returns as it is, and it is not
    empty. *)
Lemma tModel_name_fixed (ac : apiClient) (model : string) :
  model <> "" ->
  fst (tModel ac (AStr model)) <> "" /\
  tModel ac (AStr (fst (tModel ac (AStr model)))) = tModel ac (AStr model).
Proof.
  intros Hne.
  destruct (tModel_qualified ac model Hne) as [Herr Hq].
  destruct (tModel ac (AStr model)) as [name err].
  cbn [fst snd] in Herr, Hq |- *. subst err.
  destruct (bool_decide (backend (clientConfig ac) = BackendVertexAI)) eqn:Hb.
  - apply bool_decide_eq_true in Hb.
    split; [| now apply tModel_vertex_qualified].
    intros ->. destruct Hq as [H | [H | H]]; discriminate H.
  - apply bool_decide_eq_false in Hb.
    split; [| now apply tModel_mldev_qualified].
    intros ->. destruct Hq as [H | H]; discriminate H.
Qed.

(** A name with one literal prefix does not carry another that differs
    from it in the first bytes. *)
Lemma HasPrefix_projects (s : string) :
  GoStrings.HasPrefix s "projects/" = true ->
  GoStrings.HasPrefix s "publishers/" = false /\ GoStrings.HasPrefix s "models/" = false.
Proof. intros H. apply HasPrefix_iff in H as [rest ->]. split; reflexivity. Qed.

Lemma HasPrefix_models (s : string) :
  GoStrings.HasPrefix s "models/" = true ->
  GoStrings.HasPrefix s "publishers/" = false /\ GoStrings.HasPrefix s "projects/" = false.
Proof. intros H. apply HasPrefix_iff in H as [rest ->]. split; reflexivity. Qed.

Lemma HasPrefix_publishers (s : string) :
  GoStrings.HasPrefix s "publishers/" = true ->
  GoStrings.HasPrefix s "models/" = false /\ GoStrings.HasPrefix s "projects/" = false.
Proof. intros H. apply HasPrefix_iff in H as [rest ->]. split; reflexivity. Qed.

Lemma tModelFullName_eq (ac : apiClient) (model : string) :
  model <> "" ->
  tModelFullName ac (AStr model)
    = if bool_decide (backend (clientConfig ac) = BackendVertexAI) then
        if GoStrings.HasPrefix model "projects/" then (model, None)
        else
          ("projects/" +:+ Project (clientConfig ac) +:+ "/locations/" +:+
           Location (clientConfig ac) +:+ "/" +:+
           (if GoStrings.HasPrefix model "models/" then "publishers/google/" +:+ model
            else fst (tModel ac (AStr model))), None)
      else tModel ac (AStr model).
Proof.
  intros Hne. unfold tModelFullName.
  destruct (tModel_qualified ac model Hne) as [Herr Hq].
  destruct (bool_decide (backend (clientConfig ac) = BackendVertexAI)) eqn:Hb.
  - pose proof Hb as Hv. apply bool_decide_eq_true in Hv.
    destruct (GoStrings.HasPrefix model "projects/") eqn:H1.
    { rewrite (tModel_vertex_qualified ac model Hv) by auto.
      destruct (HasPrefix_projects _ H1) as [-> ->]. reflexivity. }
    destruct (GoStrings.HasPrefix model "models/") eqn:H2.
    { rewrite (tModel_vertex_qualified ac model Hv) by auto.
      destruct (HasPrefix_models _ H2) as [-> _]. rewrite H2. reflexivity. }
    destruct (tModel ac (AStr model)) as [name err] eqn:Hm. simpl in *. subst err.
    assert (Hpub : GoStrings.HasPrefix name "publishers/" = true).
    { revert Hm. unfold tModel. apply String.eqb_neq in Hne. rewrite Hne, Hb, H1, H2.
      destruct (GoStrings.HasPrefix model "publishers/") eqn:H3; simpl.
      - intros H; injection H as <-. exact H3.
      - destruct (GoStrings.Contains model "/"); intros H; injection H as <-;
          exact (HasPrefix_append "publishers/" _). }
    now rewrite Hpub.
  - destruct (tModel ac (AStr model)) as [name err] eqn:Hm. simpl in *. subst err.
    now rewrite !andb_false_r.
Qed.

(** X3.  The full model name.  On the hosted backend it is a path under
    [projects/]: the identifier itself when that starts with
    [projects/], and otherwise [projects/<project>/locations/<location>/]
    followed by [publishers/google/<identifier>] for an identifier under
    [models/], and by the name [tModel] gives in every other case.  On
    the direct backend it is the name [tModel] gives. *)
Theorem tModelFullName_qualifies (ac : apiClient) (model : string) :
  model <> "" ->
  (backend (clientConfig ac) = BackendVertexAI ->
     tModelFullName ac (AStr model)
       = (if GoStrings.HasPrefix model "projects/" then model
          else
            "projects/" +:+ Project (clientConfig ac) +:+ "/locations/" +:+
            Location (clientConfig ac) +:+ "/" +:+
            (if GoStrings.HasPrefix model "models/" then "publishers/google/" +:+ model
             else fst (tModel ac (AStr model))), None) /\
     GoStrings.HasPrefix (fst (tModelFullName ac (AStr model))) "projects/" = true) /\
  (backend (clientConfig ac) <> BackendVertexAI ->
     tModelFullName ac (AStr model) = tModel ac (AStr model)).
Proof.
  intros Hne. rewrite (tModelFullName_eq ac model Hne). split; intros Hb.
  - rewrite bool_decide_eq_true_2 by exact Hb.
    destruct (GoStrings.HasPrefix model "projects/") eqn:H1.
    + split; [reflexivity | exact H1].
    + split; [reflexivity | exact (HasPrefix_append "projects/" _)].
  - now rewrite bool_decide_eq_false_2 by exact Hb.
Qed.

Lemma tModelFullName_qualifies_witness :
  tModelFullName (vertexClient "p" "l") (AStr "gemini")
    = ("projects/p/locations/l/publishers/google/models/gemini", None) /\
  tModelFullName (vertexClient "p" "l") (AStr "models/gemini")
    = ("projects/p/locations/l/publishers/google/models/gemini", None) /\
  tModelFullName (mldevClient "k") (AStr "gemini") = ("models/gemini", None).
Proof.
  refine (conj _ (conj _ _)).
  - destruct (tModelFullName_qualifies (vertexClient "p" "l") "gemini") as [H _];
      [discriminate |].
    destruct (H eq_refl) as [Heq _]. exact Heq.
  - destruct (tModelFullName_qualifies (vertexClient "p" "l") "models/gemini") as [H _];
      [discriminate |].
    destruct (H eq_refl) as [Heq _]. exact Heq.
  - destruct (tModelFullName_qualifies (mldevClient "k") "gemini") as [_ H];
      [discriminate |].
    apply H. intros H'; discriminate H'.
Defined.

(** A full model name is a fixed point of [tModelFullName]. *)
Lemma tModelFullName_fixed (ac : apiClient) (model : string) :
  tModelFullName ac (AStr (fst (tModelFullName ac (AStr model))))
    = tModelFullName ac (AStr model).
Proof.
  destruct (String.eqb_spec model "") as [-> | Hne]; [reflexivity |].
  destruct (tModel_name_fixed ac model Hne) as [Hname Hfix].
  rewrite (tModelFullName_eq ac model Hne).
  destruct (bool_decide (backend (clientConfig ac) = BackendVertexAI)) eqn:Hb.
  - assert (Hfull : forall full, GoStrings.HasPrefix full "projects/" = true ->
                tModelFullName ac (AStr full) = (full, None)).
    { intros full Hp. rewrite tModelFullName_eq, Hb, Hp; [reflexivity |].
      intros ->. discriminate Hp. }
    destruct (GoStrings.HasPrefix model "projects/") eqn:H1; simpl fst.
    + now apply Hfull.
    + apply Hfull. exact (HasPrefix_append "projects/" _).
  - rewrite tModelFullName_eq, Hb by exact Hname. exact Hfix.
Qed.

(** X1.  The name transforms are idempotent: a name that
    [tResourceName], [tModel] or [tModelFullName] returns is returned as
    it is when it is given to the same transform again, with the same
    client (and, for [tResourceName], the same collection and depth). *)
Theorem name_transforms_idempotent (ac : apiClient) (name coll : string) (depth : Z)
    (model : string) :
  tResourceName ac (tResourceName ac name coll depth) coll depth
    = tResourceName ac name coll depth /\
  tModel ac (AStr (fst (tModel ac (AStr model)))) = tModel ac (AStr model) /\
  tModelFullName ac (AStr (fst (tModelFullName ac (AStr model))))
    = tModelFullName ac (AStr model).
Proof.
  split; [apply tResourceName_fixed |]. split; [| apply tModelFullName_fixed].
  destruct (String.eqb_spec model "") as [-> | Hne]; [reflexivity |].
  apply (tModel_name_fixed ac model Hne).
Qed.

(** X4.  The model transforms fail exactly on a value that is not a
    string and on the empty string: [tCachesModel] (which is
    [tModelFullName]) and [tModel] return a name and no error for every
    other value, and with an error the name is empty. *)
Theorem tCachesModel_fails_iff (ac : apiClient) (origin : any) :
  ((exists name, tCachesModel ac origin = (name, None)) <->
   (exists model, origin = AStr model /\ model <> "")) /\
  ((exists name, tModel ac origin = (name, None)) <->
   (exists model, origin = AStr model /\ model <> "")) /\
  (forall name err, tCachesModel ac origin = (name, Some err) -> name = "").
Proof.
  refine (conj _ (conj _ _)).
  - unfold tCachesModel. split.
    + intros [name H]. destruct origin; try discriminate H.
      exists s. split; [reflexivity |]. intros ->. discriminate H.
    + intros (model & -> & Hne).
      destruct (tModel_qualified ac model Hne) as [Herr _].
      unfold tModelFullName.
      destruct (tModel ac (AStr model)) as [name err]. simpl in Herr. subst err.
      repeat match goal with
             | |- context [if ?b then _ else _] => destruct b
             end; eexists; reflexivity.
  - split.
    + intros [name H]. destruct origin; try discriminate H.
      exists s. split; [reflexivity |]. intros ->. discriminate H.
    + intros (model & -> & Hne).
      destruct (tModel_qualified ac model Hne) as [Herr _].
      destruct (tModel ac (AStr model)) as [name err]. simpl in Herr. subst err.
      now exists name.
  - intros name err. unfold tCachesModel, tModelFullName.
    destruct origin; try (intros H; injection H as <- _; reflexivity).
    destruct (tModel ac (AStr s)) as [n [e|]].
    + intros H; injection H as <- _; reflexivity.
    + repeat match goal with
             | |- context [if ?b then _ else _] => destruct b
             end; discriminate.
Qed.

(** ** Contents for embedding *)

Lemma tContentsForEmbed_range_texts (v : list any) (acc texts : list string) :
  tContentsForEmbed_range v acc = Returns (Some (EmbedTexts texts), None) <->
  exists more, texts = acc ++ more /\ Forall2 first_part_text v more.
Proof.
  revert acc; induction v as [|c v IH]; intros acc; simpl.
  - split.
    + intros H; injection H as <-. exists []. rewrite app_nil_r. split; [reflexivity | constructor].
    + intros (more & -> & Hall). inversion Hall. now rewrite app_nil_r.
  - split.
    + destruct c as [| | | | | |m|]; simpl; try discriminate.
      destruct (m !! "parts") as [[| | | | |[|part0 parts]| |]|] eqn:Hparts; try discriminate.
      destruct part0 as [| | | | | |p|]; simpl; try discriminate.
      destruct (p !! "text") as [[| | | |t| | |]|] eqn:Htext; try discriminate.
      intros H. apply IH in H as (more & -> & Hall).
      exists (t :: more). rewrite <- app_assoc. split; [reflexivity |].
      constructor; [| exact Hall]. now exists m, parts, p.
    + intros (more & -> & Hall). inversion Hall as [|c' t v' more' Hc Hrest]; subst.
      destruct Hc as (m & parts & p & -> & Hparts & Htext). simpl.
      rewrite Hparts. simpl. rewrite Htext.
      apply IH. exists more'. split; [now rewrite <- app_assoc | exact Hrest].
Qed.

(** X5.  On the hosted backend, a list of contents is turned into the list
    of the texts of their first parts, exactly when every content has a
    first part with a text; the other parts of a content are not looked
    at.  On the direct backend the contents are returned as they are. *)
Theorem tContentsForEmbed_first_texts (ac : apiClient) (contents : list any)
    (texts : list string) :
  (backend (clientConfig ac) = BackendVertexAI ->
     (tContentsForEmbed ac (ASlice contents) = Returns (Some (EmbedTexts texts), None) <->
      Forall2 first_part_text contents texts)) /\
  (backend (clientConfig ac) <> BackendVertexAI ->
     forall v, tContentsForEmbed ac v = Returns (Some (EmbedContents v), None)).
Proof.
  unfold tContentsForEmbed. split; intros Hb.
  - rewrite bool_decide_eq_true_2 by exact Hb.
    rewrite tContentsForEmbed_range_texts. split.
    + now intros (more & -> & Hall).
    + intros Hall. now exists texts.
  - intros v. now rewrite bool_decide_eq_false_2 by exact Hb.
Qed.

Lemma tContentsForEmbed_first_texts_witness :
  tContentsForEmbed (vertexClient "p" "l")
    (ASlice [textContent "a" []; textContent "b" [AMap {["text" := AStr "ignored"]}]])
  = Returns (Some (EmbedTexts ["a"; "b"]), None) /\
  tContentsForEmbed (mldevClient "k") (AStr "anything")
  = Returns (Some (EmbedContents (AStr "anything")), None).
Proof.
  split.
  - destruct (tContentsForEmbed_first_texts (vertexClient "p" "l")
                [textContent "a" []; textContent "b" [AMap {["text" := AStr "ignored"]}]]
                ["a"; "b"]) as [H _].
    apply (H eq_refl).
    repeat constructor; eexists _, _, _; (split; [reflexivity | split; reflexivity]).
  - destruct (tContentsForEmbed_first_texts (mldevClient "k") [] []) as [_ H].
    apply H. intros H'; discriminate H'.
Defined.

(** X6.  On the hosted backend the first content that is not as expected
    decides: contents that are not a list, or a content whose [parts] is
    missing, not a list or empty, or a first part without a string
    [text], are answered with an error; a content or a first part that is
    not a map makes the type assertion panic. *)
Theorem tContentsForEmbed_first_bad_content (ac : apiClient) (good : list any)
    (texts : list string) (bad : any) (rest : list any) :
  backend (clientConfig ac) = BackendVertexAI ->
  Forall2 first_part_text good texts ->
  ((forall m, bad <> AMap m) ->
     tContentsForEmbed ac (ASlice (good ++ bad :: rest))
       = Panics "interface conversion: interface {} is not map[string]interface {}") /\
  (forall m,
     bad = AMap m ->
     (forall part0 parts, m !! "parts" <> Some (ASlice (part0 :: parts))) ->
     tContentsForEmbed ac (ASlice (good ++ bad :: rest))
       = Returns (None,
                  Some (Errorf "tContentsForEmbed: content parts is not a non-empty list"
                          [] None))) /\
  (forall m part0 parts,
     bad = AMap m -> m !! "parts" = Some (ASlice (part0 :: parts)) ->
     (forall p, part0 <> AMap p) ->
     tContentsForEmbed ac (ASlice (good ++ bad :: rest))
       = Panics "interface conversion: interface {} is not map[string]interface {}") /\
  (forall m p parts,
     bad = AMap m -> m !! "parts" = Some (ASlice (AMap p :: parts)) ->
     (forall t, p !! "text" <> Some (AStr t)) ->
     tContentsForEmbed ac (ASlice (good ++ bad :: rest))
       = Returns (None,
                  Some (Errorf "tContentsForEmbed: content part text is not a string"
                          [] None))) /\
  (forall v, (forall l, v <> ASlice l) ->
     tContentsForEmbed ac v
       = Returns (None, Some (Errorf "tContentsForEmbed: contents is not a list" [] None))).
Proof.
  intros Hb Hgood. unfold tContentsForEmbed. rewrite bool_decide_eq_true_2 by exact Hb.
  assert (Hskip : forall acc,
            tContentsForEmbed_range (good ++ bad :: rest) acc
              = tContentsForEmbed_range (bad :: rest) (acc ++ texts)).
  { clear -Hgood. induction Hgood as [|c t good texts Hc Hall IH]; intros acc.
    - now rewrite app_nil_r.
    - destruct Hc as (m & parts & p & -> & Hparts & Htext). simpl.
      rewrite Hparts. simpl. rewrite Htext. rewrite IH.
      now rewrite <- app_assoc. }
  rewrite Hskip. simpl.
  refine (conj _ (conj _ (conj _ (conj _ _)))).
  - intros Hbad. destruct bad; try reflexivity. now destruct (Hbad m).
  - intros m -> Hparts. simpl.
    destruct (m !! "parts") as [[| | | | |[|part0 parts]| |]|]; try reflexivity.
    now destruct (Hparts part0 parts).
  - intros m part0 parts -> Hparts Hpart. simpl. rewrite Hparts.
    destruct part0; try reflexivity. now destruct (Hpart m0).
  - intros m p parts -> Hparts Htext. simpl. rewrite Hparts. simpl.
    destruct (p !! "text") as [[| | | |t| | |]|]; try reflexivity.
    now destruct (Htext t).
  - intros v Hv. destruct v; try reflexivity. now destruct (Hv l).
Qed.

Lemma tContentsForEmbed_first_bad_content_witness :
  tContentsForEmbed (vertexClient "p" "l") (ASlice ([textContent "a" []] ++ AStr "b" :: []))
    = Panics "interface conversion: interface {} is not map[string]interface {}" /\
  tContentsForEmbed (vertexClient "p" "l")
    (ASlice ([textContent "a" []] ++ AMap {["parts" := ASlice []]} :: []))
    = Returns (None,
               Some (Errorf "tContentsForEmbed: content parts is not a non-empty list"
                       [] None)).
Proof.
  assert (Hgood : Forall2 first_part_text [textContent "a" []] ["a"]).
  { repeat constructor. eexists _, _, _. split; [reflexivity | split; reflexivity]. }
  split.
  - destruct (tContentsForEmbed_first_bad_content (vertexClient "p" "l")
                [textContent "a" []] ["a"] (AStr "b") [] eq_refl Hgood) as (H & _).
    apply H. intros m H'; discriminate H'.
  - destruct (tContentsForEmbed_first_bad_content (vertexClient "p" "l")
                [textContent "a" []] ["a"] (AMap {["parts" := ASlice []]}) [] eq_refl Hgood)
      as (_ & H & _).
    apply (H _ eq_refl). intros part0 parts H'. vm_compute in H'. discriminate H'.
Defined.

(** ** The models of a list response *)

(** X7.  [tExtractModels] fails only on a response that is not a map.  For
    a map it returns the member [models] if there is one, else the member
    [tunedModels], else the member [publisherModels], and logs nothing;
    with none of the three it returns an empty list and logs a warning. *)
Theorem tExtractModels_first_member (ac : apiClient) (response : any) :
  (forall m, response = AMap m ->
     exists v,
       tExtractModels ac response
         = (Some v, None,
            if decide (m !! "models" = None /\ m !! "tunedModels" = None /\
                       m !! "publisherModels" = None)
            then ["Warning: Cannot find the models type(models, tunedModels, publisherModels) for response: %s"]
            else []) /\
       v = default (ASlice [])
             (m !! "models" ∪ m !! "tunedModels" ∪ m !! "publisherModels")) /\
  ((forall m, response <> AMap m) ->
     tExtractModels ac response
       = (None, Some (Errorf "tExtractModels: response is not a map" [] None), [])).
Proof.
  split.
  - intros m ->. unfold tExtractModels.
    destruct (m !! "models") as [v1|], (m !! "tunedModels") as [v2|],
      (m !! "publisherModels") as [v3|];
      eexists; (split; [| reflexivity]);
      (destruct (decide _) as [(H1 & H2 & H3) | Hn];
       [try discriminate H1; try discriminate H2; try discriminate H3; reflexivity
       | try reflexivity; now destruct Hn]).
  - intros Hm. destruct response; try reflexivity. now destruct (Hm m).
Qed.

Lemma tExtractModels_first_member_witness :
  tExtractModels (mldevClient "k")
    (AMap (<["publisherModels" := AStr "c"]> (<["tunedModels" := AStr "b"]> ∅)))
  = (Some (AStr "b"), None, []) /\
  tExtractModels (mldevClient "k") (AStr "x")
  = (None, Some (Errorf "tExtractModels: response is not a map" [] None), []).
Proof.
  destruct (tExtractModels_first_member (mldevClient "k")
              (AMap (<["publisherModels" := AStr "c"]> (<["tunedModels" := AStr "b"]> ∅))))
    as [Hmap _].
  destruct (tExtractModels_first_member (mldevClient "k") (AStr "x")) as [_ Hother].
  split.
  - destruct (Hmap _ eq_refl) as (v & Heq & Hv). rewrite Heq, Hv. reflexivity.
  - apply Hother. intros m H; discriminate H.
Defined.

(** ** Base URLs *)

(** X8.  The base URL.  A non-empty [BaseURL] of the options wins over
    everything; then the default set for the backend asked for, even an
    empty one; then the environment variable of that backend.  The URL
    set for the other backend, by default or by the environment, is never
    used: without a URL for the backend asked for, the result is nil.
    The defaults are what [SetDefaultBaseURLs] was last given: it
    replaces both at once, so that a nil URL in its parameters clears a
    default, and does nothing when it is given nil. *)
Theorem GetBaseURL_precedence (env : gmap string string) (g : baseURLDefaults)
    (vertexai : bool) (httpOptions : option HTTPOptions) (p : BaseURLParameters) :
  (GetDefaultBaseURLs (SetDefaultBaseURLs (Some p) g) = p /\
   SetDefaultBaseURLs None g = g) /\
  (forall o, httpOptions = Some o -> BaseURL o <> "" ->
     GetBaseURL env g vertexai httpOptions = Some (BaseURL o)) /\
  ((forall o, httpOptions = Some o -> BaseURL o = "") ->
   let default := if vertexai then defaultBaseVertexURL g else defaultBaseGeminiURL g in
   let variable :=
     if vertexai then "GOOGLE_VERTEX_BASE_URL" else "GOOGLE_GEMINI_BASE_URL" in
   (forall url, default = Some url ->
      GetBaseURL env g vertexai httpOptions = Some url) /\
   (default = None ->
      GetBaseURL env g vertexai httpOptions = env !! variable)) /\
  (forall env' g',
     (if vertexai then defaultBaseVertexURL g' = defaultBaseVertexURL g
      else defaultBaseGeminiURL g' = defaultBaseGeminiURL g) ->
     (if vertexai then env' !! "GOOGLE_VERTEX_BASE_URL" = env !! "GOOGLE_VERTEX_BASE_URL"
      else env' !! "GOOGLE_GEMINI_BASE_URL" = env !! "GOOGLE_GEMINI_BASE_URL") ->
     GetBaseURL env' g' vertexai httpOptions = GetBaseURL env g vertexai httpOptions).
Proof.
  split; [split; [now destruct p | reflexivity] |].
  unfold GetBaseURL, GetDefaultBaseURLs, os_LookupEnv. refine (conj _ (conj _ _)).
  - intros o -> Hne. apply String.eqb_neq in Hne. now rewrite Hne.
  - intros Hempty.
    assert (Hopt : match httpOptions with
                   | Some o => if negb (String.eqb (BaseURL o) "") then Some (BaseURL o)
                               else None
                   | None => None
                   end = None).
    { destruct httpOptions as [o|]; [| reflexivity].
      rewrite (Hempty o eq_refl). reflexivity. }
    rewrite Hopt. simpl. destruct vertexai; split.
    + now intros url ->.
    + now intros ->.
    + now intros url ->.
    + now intros ->.
  - intros env' g' Hg Henv.
    destruct (match httpOptions with Some _ => _ | None => _ end); [reflexivity |].
    simpl. destruct vertexai; rewrite Hg, Henv; reflexivity.
Qed.

Lemma GetBaseURL_precedence_witness :
  GetBaseURL {["GOOGLE_VERTEX_BASE_URL" := "https://env.example"]}
    {| defaultBaseGeminiURL := Some "https://g.example"; defaultBaseVertexURL := None |}
    true (Some (mkHTTPOptions "https://o.example" "v1" ∅))
  = Some "https://o.example" /\
  GetBaseURL {["GOOGLE_VERTEX_BASE_URL" := "https://env.example"]}
    {| defaultBaseGeminiURL := Some "https://g.example"; defaultBaseVertexURL := Some "" |}
    true None
  = Some "" /\
  GetBaseURL ∅
    {| defaultBaseGeminiURL := Some "https://g.example"; defaultBaseVertexURL := None |}
    true None
  = None.
Proof.
  refine (conj _ (conj _ _)).
  - destruct (GetBaseURL_precedence {["GOOGLE_VERTEX_BASE_URL" := "https://env.example"]}
                {| defaultBaseGeminiURL := Some "https://g.example";
                   defaultBaseVertexURL := None |}
                true (Some (mkHTTPOptions "https://o.example" "v1" ∅))
                {| GeminiURL := None; VertexURL := None |}) as (_ & H & _).
    apply (H _ eq_refl). discriminate.
  - destruct (GetBaseURL_precedence {["GOOGLE_VERTEX_BASE_URL" := "https://env.example"]}
                {| defaultBaseGeminiURL := Some "https://g.example";
                   defaultBaseVertexURL := Some "" |}
                true None {| GeminiURL := None; VertexURL := None |}) as (_ & _ & H & _).
    destruct H as [H _]; [intros o Ho; discriminate Ho |].
    apply H. reflexivity.
  - destruct (GetBaseURL_precedence ∅
                {| defaultBaseGeminiURL := Some "https://g.example";
                   defaultBaseVertexURL := None |}
                true None {| GeminiURL := None; VertexURL := None |}) as (_ & _ & H & _).
    destruct H as [_ H]; [intros o Ho; discriminate Ho |].
    rewrite H; reflexivity.
Defined.

(** ** Content helpers *)

Section HelpersFacts.

Variables (PartFields ConfigFields : Type).
Variable zeroPartFields : PartFields.

Lemma Content_setDefaults_eq (c : @Content PartFields) :
  Content_setDefaults (Some c)
    = Some {| Parts := Parts c; Role := if String.eqb (Role c) "" then roleUser else Role c |}.
Proof.
  destruct c as [parts role]. unfold Content_setDefaults. cbn [Parts Role].
  now destruct (String.eqb role "").
Qed.

Lemma GenerateContentConfig_setDefaults_eq
    (c : @GenerateContentConfig PartFields ConfigFields) :
  GenerateContentConfig_setDefaults (Some c)
    = Some {| CandidateCount := if CandidateCount c =? 0 then 1 else CandidateCount c;
              SystemInstruction := Content_setDefaults (SystemInstruction c);
              Config_fields := Config_fields c |}.
Proof.
  destruct c as [count [[parts role]|] fields]; unfold GenerateContentConfig_setDefaults;
    cbn [CandidateCount SystemInstruction Config_fields];
    destruct (count =? 0); cbn [CandidateCount SystemInstruction Config_fields Role];
    try reflexivity;
    unfold Content_setDefaults; cbn [Role Parts]; now destruct (String.eqb role "").
Qed.

(** X9.  [setDefaults] establishes its defaults and is idempotent: after
    it the candidate count is not zero and the role of the system
    instruction is not empty; a candidate count and a role that were set
    are kept, and so are the parts of the system instruction and every
    other field.  The one content that [Text] builds has the role [user]
    and holds the text in its one part, so that [setDefaults] leaves it as
    it is. *)
Theorem setDefaults_establishes_defaults
    (c : @GenerateContentConfig PartFields ConfigFields) (text : string) :
  (exists content,
     Text PartFields zeroPartFields text = [content] /\
     Role content = "user" /\ map Part_Text (Parts content) = [text] /\
     Content_setDefaults (Some content) = Some content) /\
  exists c',
    GenerateContentConfig_setDefaults (Some c) = Some c' /\
    GenerateContentConfig_setDefaults (Some c') = Some c' /\
    CandidateCount c' <> 0 /\
    (CandidateCount c <> 0 -> CandidateCount c' = CandidateCount c) /\
    Config_fields c' = Config_fields c /\
    match SystemInstruction c, SystemInstruction c' with
    | Some s, Some s' =>
        Role s' <> "" /\ Parts s' = Parts s /\ (Role s <> "" -> Role s' = Role s)
    | None, None => True
    | _, _ => False
    end.
Proof.
  split; [eexists; split; [reflexivity |]; repeat split |].
  eexists. split; [apply GenerateContentConfig_setDefaults_eq |].
  rewrite GenerateContentConfig_setDefaults_eq.
  cbn [CandidateCount SystemInstruction Config_fields].
  destruct c as [count si fields]. cbn [CandidateCount SystemInstruction Config_fields].
  assert (Hcount : (if count =? 0 then 1 else count) <> 0).
  { destruct (Z.eqb_spec count 0); [discriminate | assumption]. }
  refine (conj _ (conj Hcount (conj _ (conj eq_refl _)))).
  - f_equal. f_equal.
    + apply Z.eqb_neq in Hcount. now rewrite Hcount.
    + destruct si as [[parts role]|]; [| reflexivity].
      rewrite !Content_setDefaults_eq. cbn [Role Parts]. do 2 f_equal.
      destruct (String.eqb role "") eqn:Hr; [reflexivity | now rewrite Hr].
  - intros Hc. apply Z.eqb_neq in Hc. now rewrite Hc.
  - destruct si as [[parts role]|]; [| exact I].
    rewrite Content_setDefaults_eq. cbn [Role Parts].
    destruct (String.eqb_spec role "") as [-> | Hr].
    + split; [discriminate | split; [reflexivity | congruence]].
    + split; [assumption | split; reflexivity].
Qed.

End HelpersFacts.

Lemma setDefaults_establishes_defaults_witness :
  GenerateContentConfig_setDefaults
    (Some (mkGenerateContentConfig 0 (Some (mkContent [mkPart "be brief" tt] "")) tt))
  = Some (mkGenerateContentConfig 1 (Some (mkContent [mkPart "be brief" tt] "user")) tt).
Proof.
  destruct (setDefaults_establishes_defaults unit unit tt
              (mkGenerateContentConfig 0 (Some (mkContent [mkPart "be brief" tt] "")) tt)
              "hello")
    as (_ & c' & Heq & _).
  rewrite Heq. injection Heq as <-. reflexivity.
Defined.

(** ** Building requests *)

Section RequestsFacts.

Variable URL : Type.
Variable url_Parse : string -> URL + error.
Variable URL_String : URL -> string.
Variable version : string.
Variable runtime_Version : string.
Variable doMergeHeaders : http.Header -> http.Header -> http.Header.
Variable jsonEncode : gmap string any -> list byte * option error.
Variable newRequestError : string -> string -> option error.

Local Abbreviation apiURL := (createAPIURL URL url_Parse).
Local Abbreviation header_of := (sdkHeader version runtime_Version).
Local Abbreviation request_of :=
  (buildRequest URL url_Parse URL_String version runtime_Version doMergeHeaders
     jsonEncode newRequestError).

Local Abbreviation parses_to := (parses URL url_Parse).

Lemma createAPIURL_vertex_eq (ac : apiClient) (suffix method : string) (o : HTTPOptions) :
  backend (clientConfig ac) = BackendVertexAI ->
  apiURL ac suffix method (Some o)
    = match url_Parse
              (BaseURL o +:+ "/" +:+ APIVersion o +:+ "/" +:+
               (if GoStrings.HasPrefix suffix "projects/"
                   || String.eqb method "GET" &&
                      GoStrings.HasPrefix suffix "publishers/google/models"
                then suffix
                else "projects/" +:+ Project (clientConfig ac) +:+ "/locations/" +:+
                     Location (clientConfig ac) +:+ "/" +:+ suffix)) with
      | inr err =>
          Returns (None,
                   Some (Errorf "createAPIURL: error parsing Vertex AI URL: %w" []
                           (Some err)))
      | inl u => Returns (Some u, None)
      end.
Proof.
  intros Hb. unfold createAPIURL. rewrite bool_decide_eq_true_2 by exact Hb.
  rewrite andb_true_l. unfold http_MethodGet.
  destruct (GoStrings.HasPrefix suffix "projects/"); [reflexivity |].
  now destruct (String.eqb method "GET" && GoStrings.HasPrefix suffix "publishers/google/models").
Qed.

Lemma createAPIURL_vertex (ac : apiClient) (suffix method : string) (o : HTTPOptions) :
  backend (clientConfig ac) = BackendVertexAI ->
  parses_to
    (BaseURL o +:+ "/" +:+ APIVersion o +:+ "/" +:+
     (if GoStrings.HasPrefix suffix "projects/"
         || String.eqb method "GET" && GoStrings.HasPrefix suffix "publishers/google/models"
      then suffix
      else "projects/" +:+ Project (clientConfig ac) +:+ "/locations/" +:+
           Location (clientConfig ac) +:+ "/" +:+ suffix))
    (apiURL ac suffix method (Some o)).
Proof.
  intros Hb u. rewrite (createAPIURL_vertex_eq ac suffix method o Hb).
  destruct (url_Parse _) as [u' | err]; split; intros H;
    try discriminate H; injection H as ->; reflexivity.
Qed.

Lemma createAPIURL_mldev (ac : apiClient) (suffix method : string) (o : HTTPOptions) :
  backend (clientConfig ac) <> BackendVertexAI ->
  parses_to
    (BaseURL o +:+ "/" +:+
     (if GoStrings.Contains suffix ("/" +:+ APIVersion o +:+ "/") then suffix
      else APIVersion o +:+ "/" +:+ suffix))
    (apiURL ac suffix method (Some o)).
Proof.
  intros Hb u. unfold createAPIURL. rewrite bool_decide_eq_false_2 by exact Hb.
  destruct (GoStrings.Contains suffix _); simpl negb; cbv iota;
    destruct (url_Parse _) as [u' | err]; split; intros H;
    try discriminate H; injection H as ->; reflexivity.
Qed.

Lemma Contains_slash (s sub : string) :
  GoStrings.Contains s "/" = false -> GoStrings.Contains s ("/" +:+ sub) = false.
Proof.
  intros Hs. destruct (GoStrings.Contains s ("/" +:+ sub)) eqn:Hc; [| reflexivity].
  apply Contains_iff in Hc as (pre & post & ->).
  assert (GoStrings.Contains (pre +:+ ("/" +:+ sub) +:+ post) "/" = true) as Ht.
  { apply Contains_iff. exists pre, (sub +:+ post).
    rewrite !append_assoc. reflexivity. }
  congruence.
Qed.

(** X10.  The URL of a model listing.  [tModelsURL] gives the collection,
    and for a [GET] request [createAPIURL] puts it under the base URL and
    the API version: on the hosted backend the base models are listed
    under [publishers/google/models], without project and location, and
    the tuned models under the project and location; on the direct
    backend they are [models] and [tunedModels]. *)
Theorem createAPIURL_lists_models (ac : apiClient) (o : HTTPOptions) (baseModels : bool) :
  exists suffix,
    tModelsURL ac (ABool baseModels) = Returns (suffix, None) /\
    parses_to
      (BaseURL o +:+ "/" +:+ APIVersion o +:+ "/" +:+
       match backend (clientConfig ac), baseModels with
       | BackendVertexAI, true => "publishers/google/models"
       | BackendVertexAI, false =>
           "projects/" +:+ Project (clientConfig ac) +:+ "/locations/" +:+
           Location (clientConfig ac) +:+ "/models"
       | _, true => "models"
       | _, false => "tunedModels"
       end)
      (apiURL ac suffix "GET" (Some o)).
Proof.
  unfold tModelsURL, assert_bool, obind.
  destruct (backend (clientConfig ac)) eqn:Hb.
  - rewrite bool_decide_eq_false_2 by discriminate.
    destruct baseModels; eexists; (split; [reflexivity |]);
      (eapply (eq_ind _ (fun t => parses_to t _));
       [apply createAPIURL_mldev; congruence |]);
      rewrite Contains_slash by reflexivity; reflexivity.
  - rewrite bool_decide_eq_true_2 by reflexivity.
    destruct baseModels; eexists; (split; [reflexivity |]);
      (eapply (eq_ind _ (fun t => parses_to t _));
       [apply createAPIURL_vertex; exact Hb |]); reflexivity.
Qed.

(** X11.  A model path is completed once.  On the hosted backend, for a
    request that is not a [GET], [createAPIURL] puts the name [tModel]
    gives under the project and location, and leaves the full name as it
    is: both reach the same URL, for every model that is not given under
    [models/]. *)
Theorem createAPIURL_completes_model_path (ac : apiClient) (o : HTTPOptions)
    (model method tail : string) :
  backend (clientConfig ac) = BackendVertexAI ->
  model <> "" ->
  GoStrings.HasPrefix model "models/" = false ->
  method <> "GET" ->
  apiURL ac (fst (tModel ac (AStr model)) +:+ tail) method (Some o)
    = apiURL ac (fst (tModelFullName ac (AStr model)) +:+ tail) method (Some o) /\
  parses_to
    (BaseURL o +:+ "/" +:+ APIVersion o +:+ "/" +:+
     fst (tModelFullName ac (AStr model)) +:+ tail)
    (apiURL ac (fst (tModelFullName ac (AStr model)) +:+ tail) method (Some o)).
Proof.
  intros Hb Hne Hmodels Hmethod.
  assert (Hfullp : GoStrings.HasPrefix (fst (tModelFullName ac (AStr model)) +:+ tail)
                     "projects/" = true).
  { rewrite tModelFullName_eq, bool_decide_eq_true_2 by assumption.
    destruct (GoStrings.HasPrefix model "projects/") eqn:H1; cbn [fst].
    - apply HasPrefix_iff in H1 as [rest ->]. rewrite append_assoc.
      exact (HasPrefix_append "projects/" _).
    - rewrite append_assoc. exact (HasPrefix_append "projects/" _). }
  assert (Hfull : forall u,
            apiURL ac (fst (tModelFullName ac (AStr model)) +:+ tail) method (Some o)
              = Returns (Some u, None) <->
            url_Parse (BaseURL o +:+ "/" +:+ APIVersion o +:+ "/" +:+
                       fst (tModelFullName ac (AStr model)) +:+ tail) = inl u).
  { intros u. rewrite (createAPIURL_vertex ac _ method o Hb u), Hfullp. reflexivity. }
  split; [| exact Hfull].
  rewrite !(createAPIURL_vertex_eq ac _ method o Hb), Hfullp.
  apply String.eqb_neq in Hmethod. rewrite Hmethod, orb_true_l, andb_false_l, orb_false_r.
  rewrite tModelFullName_eq, bool_decide_eq_true_2 by assumption.
  destruct (GoStrings.HasPrefix model "projects/") eqn:H1.
  - rewrite (tModel_vertex_qualified ac model Hb) by auto. cbn [fst].
    assert (Hp : GoStrings.HasPrefix (model +:+ tail) "projects/" = true).
    { apply HasPrefix_iff in H1 as [rest ->]. rewrite append_assoc.
      exact (HasPrefix_append "projects/" _). }
    now rewrite Hp.
  - rewrite Hmodels. cbn [fst].
    assert (Hpub : GoStrings.HasPrefix (fst (tModel ac (AStr model))) "publishers/" = true).
    { unfold tModel. apply String.eqb_neq in Hne. rewrite Hne.
      rewrite bool_decide_eq_true_2 by exact Hb.
      rewrite H1, Hmodels. rewrite !orb_false_l.
      destruct (GoStrings.HasPrefix model "publishers/") eqn:H3; cbn [fst].
      - exact H3.
      - destruct (GoStrings.Contains model "/"); exact (HasPrefix_append "publishers/" _). }
    assert (Hnp : GoStrings.HasPrefix (fst (tModel ac (AStr model)) +:+ tail) "projects/"
                  = false).
    { apply HasPrefix_iff in Hpub as [rest ->]. reflexivity. }
    rewrite Hnp. now rewrite !append_assoc.
Qed.

(** X12.  The headers of the SDK.  Their names are canonical; the content
    type is JSON; the user agent and the API client carry the versions of
    the SDK and of the runtime; the API key is sent only when the client
    has one; and there is no other header. *)
Theorem sdkHeader_contents (ac : apiClient) (key : string) :
  header_of ac !! key =
    if decide (key = "Content-Type") then Some ["application/json"]
    else if decide (key = "User-Agent") then
      Some ["google-genai-sdk/" +:+ version +:+ " gl-go/" +:+ runtime_Version]
    else if decide (key = "X-Goog-Api-Client") then
      Some ["google-genai-sdk/" +:+ version +:+ " gl-go/" +:+ runtime_Version]
    else if decide (key = "X-Goog-Api-Key") then
      if decide (APIKey (clientConfig ac) = "") then None
      else Some [APIKey (clientConfig ac)]
    else None.
Proof.
  unfold sdkHeader, Header_Set, http.Set_.
  change (CanonicalMIMEHeaderKey "Content-Type") with "Content-Type".
  change (CanonicalMIMEHeaderKey "x-goog-api-key") with "X-Goog-Api-Key".
  change (CanonicalMIMEHeaderKey "user-agent") with "User-Agent".
  change (CanonicalMIMEHeaderKey "x-goog-api-client") with "X-Goog-Api-Client".
  assert (Hv : ("google-genai-sdk/" +:+ version) +:+ " " +:+ "gl-go/" +:+ runtime_Version
               = "google-genai-sdk/" +:+ version +:+ " gl-go/" +:+ runtime_Version).
  { now rewrite append_assoc. }
  rewrite Hv.
  destruct (String.eqb_spec (APIKey (clientConfig ac)) "") as [He | He]; simpl negb;
    cbv iota; rewrite !lookup_insert;
    repeat (destruct (decide (_ = key)) as [<- | ?]);
    repeat (destruct (decide (key = _)) as [-> | ?]);
    try congruence; try reflexivity; try (rewrite lookup_empty; reflexivity).
  - rewrite lookup_empty. now destruct (decide _).
  - simpl. now destruct (decide _).
Qed.



End RequestsFacts.

Lemma createAPIURL_completes_model_path_witness :
  createAPIURL string example_url_Parse (vertexClient "p" "l")
    (fst (tModel (vertexClient "p" "l") (AStr "gemini")) +:+ ":generateContent") "POST"
    (Some (mkHTTPOptions "https://api.example" "v1" ∅))
  = Returns
      (Some "https://api.example/v1/projects/p/locations/l/publishers/google/models/gemini:generateContent",
       None).
Proof.
  destruct (createAPIURL_completes_model_path string example_url_Parse
              (vertexClient "p" "l") (mkHTTPOptions "https://api.example" "v1" ∅)
              "gemini" "POST" ":generateContent")
    as [Heq Hparse]; [reflexivity | discriminate | reflexivity | discriminate |].
  rewrite Heq. apply Hparse. reflexivity.
Defined.


(** ** The split function: its contract with the scanner *)

Section ScanFacts.

Implicit Types data t rest sep : list byte.

Lemma occurs_at_app sep t rest j : occurs_at sep t j -> occurs_at sep (t ++ rest) j.
Proof.
  intros (pre & post & -> & Hlen). exists pre, (post ++ rest).
  split; [now rewrite <- !app_assoc | exact Hlen].
Qed.

Lemma absent_prefix sep t data : t `prefix_of` data -> absent sep data -> absent sep t.
Proof. intros [rest ->] Habs j Hocc. exact (Habs j (occurs_at_app _ _ _ _ Hocc)). Qed.

Lemma occurs_at_bound sep data j : occurs_at sep data j -> (j + length sep <= length data)%nat.
Proof. intros (pre & post & -> & <-). rewrite !length_app. lia. Qed.

Lemma first_at_take sep data i :
  sep <> [] -> first_at sep data i -> absent sep (take i data).
Proof.
  intros Hsep [_ Hmin] j Hocc.
  pose proof (occurs_at_bound _ _ _ Hocc) as Hb. rewrite length_take in Hb.
  assert (0 < length sep)%nat by (destruct sep; [congruence | simpl; lia]).
  apply (Hmin j); [lia |].
  rewrite <- (take_drop i data). now apply occurs_at_app.
Qed.

Lemma dropCR_prefix data : dropCR data `prefix_of` data.
Proof.
  unfold dropCR. destruct (_ && _); [| reflexivity].
  exists (drop (length data - 1) data). now rewrite take_drop.
Qed.

Lemma len_dropCR data : len (dropCR data) <= len data.
Proof.
  destruct (dropCR_prefix data) as [k Hk]. unfold len.
  rewrite Hk at 2. rewrite length_app. lia.
Qed.

(** The cases of [scan]. *)
Lemma scan_cases data atEOF :
  (data = [] /\ atEOF = true /\ scan data atEOF = (0, None, None)) \/
  (exists i, first_at [LF; LF] data i /\
     scan data atEOF = (Z.of_nat i + 2, Some (dropCR (take i data)), None)) \/
  (exists i, absent [LF; LF] data /\ first_at [CR; LF; CR; LF] data i /\
     scan data atEOF = (Z.of_nat i + 4, Some (dropCR (take i data)), None)) \/
  (absent [LF; LF] data /\ data <> [] /\ atEOF = true /\
     scan data atEOF = (len data, Some (dropCR data), None)) \/
  (absent [LF; LF] data /\ atEOF = false /\ scan data atEOF = (0, None, None)).
Proof.
  unfold scan.
  destruct (atEOF && (len data =? 0)) eqn:Hfirst.
  { left. apply andb_true_iff in Hfirst as [-> Hl]. apply Z.eqb_eq in Hl.
    destruct data; [auto | discriminate Hl]. }
  right.
  destruct (Z.leb_spec 0 (GoBytes.Index data [LF; LF])) as [H1 | H1].
  { left. exists (Z.to_nat (GoBytes.Index data [LF; LF])).
    split; [now apply bytes_Index_first |]. now rewrite Z2Nat.id. }
  right. pose proof (bytes_Index_absent _ _ H1) as Habs.
  destruct (Z.leb_spec 0 (GoBytes.Index data [CR; LF; CR; LF])) as [H2 | H2].
  { left. exists (Z.to_nat (GoBytes.Index data [CR; LF; CR; LF])).
    split; [exact Habs |]. split; [now apply bytes_Index_first |]. now rewrite Z2Nat.id. }
  right. destruct atEOF.
  - left. split; [exact Habs |]. split; [| auto].
    intros ->. discriminate Hfirst.
  - right. auto.
Qed.

(** X14.  [scan] keeps the contract of a split function.  It never returns
    an error; it never advances past the buffer; when it returns a token
    it advances by at least one byte, past the whole token, so that the
    scanner makes progress; without a token it does not advance; and at
    end-of-input a buffer that is not empty always gives a token. *)
Theorem scan_keeps_split_contract (data : list byte) (atEOF : bool) :
  exists advance token,
    scan data atEOF = (advance, token, None) /\
    0 <= advance <= len data /\
    (forall t, token = Some t -> 0 < advance /\ len t <= advance) /\
    (token = None -> advance = 0) /\
    (atEOF = true -> data <> [] -> token <> None).
Proof.
  assert (Hfit : forall sep i, first_at sep data i -> Z.of_nat i + len sep <= len data).
  { intros sep i [Hocc _]. apply occurs_at_bound in Hocc. unfold len. lia. }
  assert (Htake : forall i, len (dropCR (take i data)) <= Z.of_nat i).
  { intros i. pose proof (len_dropCR (take i data)) as Hd. unfold len in *.
    rewrite length_take in Hd. lia. }
  destruct (scan_cases data atEOF)
    as [(-> & -> & ->) | [(i & Hi & ->) | [(i & _ & Hi & ->) | [(_ & Hne & -> & ->) | (_ & -> & ->)]]]];
    eexists _, _; (split; [reflexivity |]).
  - refine (conj _ (conj _ (conj _ _))); try discriminate; try reflexivity.
    + unfold len; simpl; lia.
    + congruence.
  - pose proof (Hfit _ _ Hi) as Hb. pose proof (Htake i) as Ht.
    change (len [LF; LF]) with 2 in Hb.
    refine (conj _ (conj _ (conj _ _))); try discriminate; try lia.
    intros t' Ht'. injection Ht' as <-. lia.
  - pose proof (Hfit _ _ Hi) as Hb. pose proof (Htake i) as Ht.
    change (len [CR; LF; CR; LF]) with 4 in Hb.
    refine (conj _ (conj _ (conj _ _))); try discriminate; try lia.
    intros t' Ht'. injection Ht' as <-. lia.
  - pose proof (len_dropCR data) as Hd.
    assert (0 < len data) by (destruct data; [congruence | unfold len; simpl; lia]).
    refine (conj _ (conj _ (conj _ _))); try discriminate; try lia.
    intros t' Ht'. injection Ht' as <-. lia.
  - refine (conj _ (conj _ (conj _ _))); try discriminate; try reflexivity.
    unfold len; lia.
Qed.

Lemma scan_keeps_split_contract_witness :
  exists advance token,
    scan ["a"; LF; LF; "b"]%byte false = (advance, token, None) /\
    0 < advance /\ token = Some ["a"%byte].
Proof.
  destruct (scan_keeps_split_contract ["a"; LF; LF; "b"]%byte false)
    as (advance & token & Hscan & _ & Htoken & _).
  exists advance, token. split; [exact Hscan |].
  assert (Ht : token = Some ["a"%byte]).
  { vm_compute in Hscan. now injection Hscan as _ <-. }
  split; [apply (Htoken _ Ht) | exact Ht].
Defined.

(** X15.  A token is a part of the buffer, from its start, and it never
    holds a blank line ["\n\n"]. *)
Theorem scan_token_has_no_blank_line (data : list byte) (atEOF : bool)
    (advance : Z) (t : list byte) (err : option error) :
  scan data atEOF = (advance, Some t, err) ->
  t `prefix_of` data /\ absent [LF; LF] t /\ len t <= advance.
Proof.
  intros Hscan.
  assert (Hpre : forall i, dropCR (take i data) `prefix_of` data).
  { intros i. etrans; [apply dropCR_prefix |]. apply prefix_take. }
  assert (Htake : forall i, len (dropCR (take i data)) <= Z.of_nat i).
  { intros i. pose proof (len_dropCR (take i data)) as Hd. unfold len in *.
    rewrite length_take in Hd. lia. }
  destruct (scan_cases data atEOF)
    as [(_ & _ & H) | [(i & Hi & H) | [(i & Habs & Hi & H) | [(Habs & _ & _ & H) | (_ & _ & H)]]]];
    rewrite H in Hscan; try discriminate Hscan; injection Hscan as <- <- <-.
  - split; [apply Hpre |]. split; [| pose proof (Htake i); lia].
    apply (absent_prefix _ _ (take i data)); [apply dropCR_prefix |].
    apply first_at_take; [discriminate | exact Hi].
  - split; [apply Hpre |]. split; [| pose proof (Htake i); lia].
    exact (absent_prefix _ _ _ (Hpre i) Habs).
  - split; [apply dropCR_prefix |]. split; [| apply len_dropCR].
    exact (absent_prefix _ _ _ (dropCR_prefix data) Habs).
Qed.

Lemma scan_token_has_no_blank_line_witness :
  ["a"%byte] `prefix_of` ["a"; CR; LF; LF; "b"]%byte /\ absent [LF; LF] ["a"%byte].
Proof.
  destruct (scan_token_has_no_blank_line ["a"; CR; LF; LF; "b"]%byte false 4 ["a"%byte] None)
    as (Hpre & Habs & _); [reflexivity |].
  split; [exact Hpre | exact Habs].
Defined.

Lemma occurs_at_pair (a b : byte) data j :
  occurs_at [a; b] data j <-> data !! j = Some a /\ data !! S j = Some b.
Proof.
  split.
  - intros (pre & post & -> & <-). split.
    + now rewrite lookup_app_r, Nat.sub_diag by lia.
    + rewrite lookup_app_r by lia.
      now replace (S (length pre) - length pre)%nat with 1%nat by lia.
  - intros [Ha Hb]. exists (take j data), (drop (S (S j)) data). split.
    + rewrite <- (take_drop_middle data j a Ha) at 1. f_equal. simpl. f_equal.
      apply (drop_S data b (S j)) in Hb. exact Hb.
    + apply length_take_le. apply lookup_lt_Some in Ha. lia.
Qed.

(** X16.  Framing and splitting.  A token that holds no blank line and
    does not end in a line feed or a carriage return, followed by a blank
    line, is split off as it is, whatever follows and whether or not the
    input has ended. *)
Theorem scan_splits_off_framed_token (t rest : list byte) (atEOF : bool) :
  absent [LF; LF] t ->
  last t <> Some LF ->
  last t <> Some CR ->
  scan (t ++ [LF; LF] ++ rest) atEOF = (len t + 2, Some t, None) /\
  drop (Z.to_nat (len t + 2)) (t ++ [LF; LF] ++ rest) = rest.
Proof.
  intros Habs Hlf Hcr.
  assert (Hfirst : first_at [LF; LF] (t ++ [LF; LF] ++ rest) (length t)).
  { split; [now exists t, rest |].
    intros j Hj Hocc. apply occurs_at_pair in Hocc as [H1 H2].
    rewrite lookup_app_l in H1 by lia.
    destruct (decide (S j < length t)%nat) as [Hlt | Hge].
    - rewrite lookup_app_l in H2 by lia.
      apply (Habs j). now apply occurs_at_pair.
    - apply Hlf. rewrite last_lookup.
      now replace (Nat.pred (length t)) with j by lia. }
  split.
  - unfold scan.
    assert (Hlen : (len (t ++ [LF; LF] ++ rest) =? 0) = false).
    { apply Z.eqb_neq. unfold len. rewrite !length_app. simpl. lia. }
    rewrite Hlen, andb_false_r, (first_at_Index _ _ _ Hfirst).
    destruct (Z.leb_spec 0 (Z.of_nat (length t))); [| lia].
    rewrite Nat2Z.id, take_app_length, (dropCR_other _ Hcr). reflexivity.
  - unfold len. replace (Z.to_nat (Z.of_nat (length t) + 2)) with (length t + 2)%nat by lia.
    rewrite drop_app_add'; [reflexivity | reflexivity].
Qed.

Lemma scan_splits_off_framed_token_witness :
  scan (list_byte_of_string "data:1" ++ [LF; LF] ++ list_byte_of_string "data:2") false
    = (8, Some (list_byte_of_string "data:1"), None).
Proof.
  destruct (scan_splits_off_framed_token (list_byte_of_string "data:1")
              (list_byte_of_string "data:2") false) as [H _].
  - apply bytes_Index_absent. vm_compute. reflexivity.
  - discriminate.
  - discriminate.
  - exact H.
Defined.

End ScanFacts.

(** ** Transport Executor: the payload *)

Section PayloadFacts.

Variable unmarshalErr :
  list byte -> responseWithError -> responseWithError * option error.
Variable unmarshalMap :
  list byte -> option (gmap string any) -> option (gmap string any) * option error.

Local Abbreviation deserialize := (deserializeUnaryResponse unmarshalErr unmarshalMap).

(** X17.  The payload of a response always carries the headers of the
    response under [httpHeaders]: they are put into the decoded map last,
    and replace a member of that name in the body. *)
Theorem deserializeUnaryResponse_sets_httpHeaders (resp : Response.t)
    (payload : gmap string any) :
  deserialize resp = Returns (Some payload, None) ->
  payload !! "httpHeaders" = Some (AHeader (Response.Header resp)) /\
  200 <= Response.StatusCode resp < 300 /\
  exists body decoded,
    Response.Body resp = (body, None) /\
    (body = [] /\ decoded = ∅ \/
     body <> [] /\ unmarshalMap body (Some ∅) = (Some decoded, None)) /\
    payload = <["httpHeaders" := AHeader (Response.Header resp)]> decoded.
Proof.
  unfold deserializeUnaryResponse, io_ReadAll.
  destruct (httpStatusOk resp) eqn:Hok; simpl negb; cbv iota.
  2:{ destruct (newAPIError unmarshalErr resp); discriminate. }
  destruct (Response.Body resp) as [body [rerr|]]; [discriminate |].
  destruct (0 <? len body) eqn:Hlen.
  - destruct (unmarshalMap body (Some ∅)) as [[decoded|] [uerr|]] eqn:Hdec;
      try discriminate.
    intros H; injection H as <-.
    split; [apply lookup_insert_eq |]. split; [now apply httpStatusOk_iff |].
    exists body, decoded. split; [reflexivity |]. split; [| reflexivity].
    right. split; [now apply len_pos_iff | exact Hdec].
  - intros H; injection H as <-.
    split; [apply lookup_insert_eq |]. split; [now apply httpStatusOk_iff |].
    exists body, ∅. split; [reflexivity |]. split; [| reflexivity].
    left. split; [| reflexivity].
    destruct body; [reflexivity | discriminate Hlen].
Qed.

(** X18.  A body that decodes to a nil map makes the call panic.  For a
    response with a status in [200, 300) whose body is not empty, when
    [json.Unmarshal] leaves the map nil and returns no error -- as it does
    for the document [null] -- the assignment of the headers is an
    assignment to an entry of a nil map. *)
Theorem deserializeUnaryResponse_nil_map (resp : Response.t) (body : list byte) :
  200 <= Response.StatusCode resp < 300 ->
  Response.Body resp = (body, None) ->
  body <> [] ->
  unmarshalMap body (Some ∅) = (None, None) ->
  deserialize resp = Panics "assignment to entry in nil map".
Proof.
  intros Hok Hbody Hne Hdec. apply httpStatusOk_iff in Hok.
  unfold deserializeUnaryResponse, io_ReadAll.
  now rewrite Hok, Hbody, (len_pos _ Hne), Hdec.
Qed.

End PayloadFacts.

Lemma deserializeUnaryResponse_sets_httpHeaders_witness :
  (<["httpHeaders" := AHeader ∅]> (<["file" := AMap ∅]> ∅) : gmap string any)
    !! "httpHeaders" = Some (AHeader ∅).
Proof.
  destruct (deserializeUnaryResponse_sets_httpHeaders example_Unmarshal_responseWithError
              example_Unmarshal_map (response 200 "200 OK" fileBody)
              (<["httpHeaders" := AHeader ∅]> (<["file" := AMap ∅]> ∅)))
    as [H _]; [reflexivity |].
  exact H.
Defined.

Lemma deserializeUnaryResponse_nil_map_witness :
  deserializeUnaryResponse example_Unmarshal_responseWithError example_Unmarshal_null
    (response 200 "200 OK" nullBody)
  = Panics "assignment to entry in nil map".
Proof.
  apply (deserializeUnaryResponse_nil_map example_Unmarshal_responseWithError
           example_Unmarshal_null (response 200 "200 OK" nullBody) nullBody).
  - simpl. lia.
  - reflexivity.
  - discriminate.
  - reflexivity.
Defined.

(** ** Stream Decoder: every run of the iterator *)

Section IteratorRuns.

Variables (R St : Type).
Variable unmarshalMap :
  list byte -> option (gmap string any) -> option (gmap string any) * option error.
Variable responseConverter : option (gmap string any) -> option R * option error.
Variable yield : option R * option error -> St -> bool * St.

Local Abbreviation iterate := (iterateResponseStream R St unmarshalMap responseConverter yield).
Local Abbreviation token_turn := (iterate_token R St unmarshalMap responseConverter yield).
Local Abbreviation tokens_turns := (iterate_tokens R St unmarshalMap responseConverter yield).

Lemma do_yield_events (it : item R) (s : run R St) :
  snd (snd (do_yield R St yield it s)) = snd s ++ [EvYield it].
Proof. unfold do_yield. now destruct (yield it (fst s)). Qed.

Lemma token_turn_events (line : list byte) (s : run R St) :
  exists more, snd (snd (token_turn line s)) = snd s ++ more /\ Forall loop_event more.
Proof.
  assert (Hy : forall it s', exists more,
             snd (snd (do_yield R St yield it s')) = snd s' ++ more /\
             Forall loop_event more).
  { intros it s'. exists [EvYield it]. split; [apply do_yield_events |].
    repeat constructor. }
  assert (Hc : forall respRaw s', exists more,
             snd (snd (convert_and_yield R St responseConverter yield respRaw s'))
               = snd s' ++ more /\ Forall loop_event more).
  { intros respRaw s'. unfold convert_and_yield, yield_response.
    destruct (responseConverter respRaw) as [resp [cerr|]].
    - pose proof (do_yield_events (None, Some cerr) (fst s', snd s' ++ [EvConvert respRaw]))
        as H1.
      destruct (do_yield R St yield (None, Some cerr) _) as [c s1]. simpl in H1.
      destruct c; simpl negb; cbv iota.
      + pose proof (do_yield_events (resp, None) s1) as H2. rewrite H2, H1.
        exists [EvConvert respRaw; EvYield (None, Some cerr); EvYield (resp, None)].
        split; [now rewrite <- !app_assoc | repeat constructor].
      + simpl. rewrite H1. exists [EvConvert respRaw; EvYield (None, Some cerr)].
        split; [now rewrite <- !app_assoc | repeat constructor].
    - rewrite do_yield_events. simpl.
      exists [EvConvert respRaw; EvYield (resp, None)].
      split; [now rewrite <- !app_assoc | repeat constructor]. }
  unfold iterate_token.
  destruct (len line =? 0).
  { exists []. split; [now rewrite app_nil_r | constructor]. }
  destruct (GoBytes.Cut line [":"%byte]) as [[prefix data] found].
  destruct (String.eqb (string_of_list_byte prefix) "data"); [| apply Hy].
  destruct (unmarshalMap data (Some ∅)) as [respRaw [uerr|]]; [| apply Hc].
  match goal with
  | |- context [do_yield R St yield ?it s] =>
      pose proof (do_yield_events it s) as H1;
      destruct (do_yield R St yield it s) as [c s1]
  end.
  simpl in H1. destruct c; simpl negb; cbv iota.
  - destruct (Hc respRaw s1) as (more & -> & Hmore). rewrite H1.
    eexists. split; [rewrite <- app_assoc; reflexivity |].
    constructor; [exact I | exact Hmore].
  - simpl. rewrite H1. eexists. split; [reflexivity | repeat constructor].
Qed.

Lemma tokens_turns_events (tokens : list (list byte)) (s : run R St) :
  exists more, snd (snd (tokens_turns tokens s)) = snd s ++ more /\ Forall loop_event more.
Proof.
  revert s. induction tokens as [|line tokens IH]; intros s; simpl.
  - exists []. split; [now rewrite app_nil_r | constructor].
  - destruct (token_turn_events line s) as (m1 & H1 & Hm1).
    destruct (token_turn line s) as [c s1]. simpl in H1. destruct c.
    + destruct (IH s1) as (m2 & H2 & Hm2). rewrite H2, H1.
      exists (m1 ++ m2). split; [now rewrite app_assoc | now apply Forall_app].
    + exists m1. split; [exact H1 | exact Hm1].
Qed.

(** X19.  Every run closes the response body, once, when the loop is over:
    after the items and conversions of the loop come at most the log
    lines for an error of the scanner, then the closing of the body, then
    at most the log line for an error of the closing; this is so whether
    the consumer stopped or not. *)
Theorem iterateResponseStream_closes_once (rs : responseStream) (st : St) :
  exists loop logs after,
    snd (iterate rs st) = loop ++ logs ++ EvClose :: after /\
    Forall loop_event loop /\
    (forall e, e ∈ logs -> exists line, e = EvLog line) /\
    after = match rc_Close rs with
            | Some _ => [EvLog "Error closing response body: %v"]
            | None => []
            end.
Proof.
  unfold iterateResponseStream.
  destruct (tokens_turns_events (r_tokens rs) (st, [])) as (loop & Hloop & Hall).
  destruct (tokens_turns (r_tokens rs) (st, [])) as [completed s]. simpl in Hloop.
  match goal with |- context [close_body R St rs ?x] => set (s' := x) end.
  assert (Hlogs : exists logs,
            snd s' = loop ++ logs /\ forall e, e ∈ logs -> exists line, e = EvLog line).
  { subst s'.
    destruct completed; [| exists []; split; [now rewrite app_nil_r | inversion 1]].
    destruct (r_Err rs) as [err|]; [| exists []; split; [now rewrite app_nil_r | inversion 1]].
    destruct (decide (err = bufio_ErrTooLong)) as [Hlong | Hother]; unfold log; simpl;
      rewrite Hloop.
    - eexists [_; _]. split; [now rewrite <- app_assoc |].
      intros e He. apply elem_of_cons in He as [-> | He]; [eauto |].
      apply elem_of_cons in He as [-> | He]; [eauto | inversion He].
    - eexists [_]. split; [reflexivity |].
      intros e He. apply elem_of_cons in He as [-> | He]; [eauto | inversion He]. }
  destruct Hlogs as (logs & Hs & Hlogs). exists loop, logs.
  clearbody s'. unfold close_body.
  destruct (rc_Close rs); unfold log; simpl; rewrite Hs; eexists;
    (split; [rewrite <- ?app_assoc; reflexivity |]); auto.
Qed.

(** What a run yields, what it converts and the state it leaves are
    those of its loop. *)
Lemma iterate_of_loop (rs : responseStream) (st : St) :
  yielded R St (iterate rs st) = yielded R St (snd (tokens_turns (r_tokens rs) (st, []))) /\
  converted R St (iterate rs st)
    = converted R St (snd (tokens_turns (r_tokens rs) (st, []))) /\
  fst (iterate rs st) = fst (snd (tokens_turns (r_tokens rs) (st, []))).
Proof.
  unfold iterateResponseStream, close_body, yielded, converted, log.
  destruct (tokens_turns (r_tokens rs) (st, [])) as [completed s].
  destruct completed, (r_Err rs) as [err|], (rc_Close rs);
    try destruct (decide (err = bufio_ErrTooLong)) as [Hlong | Hother]; simpl;
    rewrite ?omap_app; simpl; rewrite ?app_nil_r; auto.
Qed.

(** X20.  An error of the scanner never reaches the consumer.  What a run
    yields, the maps it converts and the state it leaves the consumer in
    depend on the tokens only: an error of the scanner (a token that is
    too long, a failed read) and an error of the closing are written to
    the log and nothing else. *)
Theorem iterateResponseStream_hides_scanner_error (tokens : list (list byte))
    (scanErr closeErr : option error) (st : St) :
  yielded R St (iterate (mkResponseStream tokens scanErr closeErr) st)
    = yielded R St (iterate (mkResponseStream tokens None None) st) /\
  converted R St (iterate (mkResponseStream tokens scanErr closeErr) st)
    = converted R St (iterate (mkResponseStream tokens None None) st) /\
  fst (iterate (mkResponseStream tokens scanErr closeErr) st)
    = fst (iterate (mkResponseStream tokens None None) st) /\
  (forall err, scanErr = Some err ->
     EvLog "Error %v" ∈ snd (iterate (mkResponseStream tokens scanErr closeErr) st) <->
     fst (tokens_turns tokens (st, [])) = true).
Proof.
  destruct (iterate_of_loop (mkResponseStream tokens scanErr closeErr) st) as (-> & -> & ->).
  destruct (iterate_of_loop (mkResponseStream tokens None None) st) as (-> & -> & ->).
  refine (conj eq_refl (conj eq_refl (conj eq_refl _))).
  intros err ->. unfold iterateResponseStream, close_body, log. simpl.
  destruct (tokens_turns_events tokens (st, [])) as (loop & Hloop & Hall).
  destruct (tokens_turns tokens (st, [])) as [completed s]. simpl in *.
  assert (Hloop_e : EvLog "Error %v" ∉ loop).
  { intros He. rewrite Forall_forall in Hall. exact (Hall _ He). }
  destruct completed.
  - split; [reflexivity |]. intros _.
    destruct closeErr; simpl; rewrite !elem_of_app, ?elem_of_cons; auto 10.
  - split; [| discriminate]. rewrite Hloop.
    destruct closeErr; simpl; rewrite <- ?app_assoc; simpl;
      rewrite elem_of_app; intros [He | He]; [contradiction | | contradiction |];
      repeat (apply elem_of_cons in He as [He | He]; [discriminate He |]);
      inversion He.
Qed.

Lemma yielded_snoc_yield (s : run R St) (it : item R) (st : St) :
  yielded R St (st, snd s ++ [EvYield it]) = yielded R St s ++ [it].
Proof. unfold yielded. simpl. now rewrite omap_app. Qed.

Lemma yielded_snoc_convert (s : run R St) (m : option (gmap string any)) :
  yielded R St (fst s, snd s ++ [EvConvert m]) = yielded R St s.
Proof. unfold yielded. simpl. rewrite omap_app. simpl. now rewrite app_nil_r. Qed.

Section Consumed.

Variable st0 : St.

(** The run [s] is one the consumer has answered [continue] to. *)
Local Abbreviation answered continue s :=
  (consumed yield st0 (yielded R St s) continue (fst s)).

Lemma do_yield_answered (it : item R) (s : run R St) :
  answered true s ->
  answered (fst (do_yield R St yield it s)) (snd (do_yield R St yield it s)).
Proof.
  unfold do_yield. intros Hs.
  destruct (yield it (fst s)) as [c st'] eqn:Hy. simpl.
  rewrite yielded_snoc_yield. now apply (consumed_more yield st0 _ (fst s)).
Qed.

Lemma convert_and_yield_answered (respRaw : option (gmap string any)) (s : run R St) :
  answered true s ->
  answered (fst (convert_and_yield R St responseConverter yield respRaw s))
    (snd (convert_and_yield R St responseConverter yield respRaw s)).
Proof.
  intros Hs. unfold convert_and_yield, yield_response.
  assert (Hs' : answered true (fst s, snd s ++ [EvConvert respRaw])).
  { now rewrite yielded_snoc_convert. }
  destruct (responseConverter respRaw) as [resp [cerr|]].
  - pose proof (do_yield_answered (None, Some cerr) _ Hs') as H1.
    destruct (do_yield R St yield (None, Some cerr) _) as [c s1]. simpl in H1.
    destruct c; simpl negb; cbv iota; [| exact H1].
    now apply do_yield_answered.
  - now apply do_yield_answered.
Qed.

Lemma token_turn_answered (line : list byte) (s : run R St) :
  answered true s ->
  answered (fst (token_turn line s)) (snd (token_turn line s)).
Proof.
  intros Hs. unfold iterate_token.
  destruct (len line =? 0); [exact Hs |].
  destruct (GoBytes.Cut line [":"%byte]) as [[prefix data] found].
  destruct (String.eqb (string_of_list_byte prefix) "data");
    [| now apply do_yield_answered].
  destruct (unmarshalMap data (Some ∅)) as [respRaw [uerr|]];
    [| now apply convert_and_yield_answered].
  match goal with
  | |- context [do_yield R St yield ?it s] =>
      pose proof (do_yield_answered it s Hs) as H1;
      destruct (do_yield R St yield it s) as [c s1]
  end.
  simpl in H1. destruct c; simpl negb; cbv iota; [| exact H1].
  now apply convert_and_yield_answered.
Qed.

Lemma tokens_turns_answered (tokens : list (list byte)) (s : run R St) :
  answered true s ->
  answered (fst (tokens_turns tokens s)) (snd (tokens_turns tokens s)).
Proof.
  revert s. induction tokens as [|line tokens IH]; intros s Hs; simpl; [exact Hs |].
  pose proof (token_turn_answered line s Hs) as H1.
  destruct (token_turn line s) as [c s1]. simpl in H1.
  destruct c; [now apply IH | exact H1].
Qed.

End Consumed.

(** X21.  The iterator obeys the consumer.  The items of a run are handed
    to the consumer one after the other, each in the state the one before
    left; the consumer has answered [true] to every item but the last, so
    that nothing is yielded after it has answered [false]; and the state
    the run ends in is the consumer's state after the last item. *)
Theorem iterateResponseStream_obeys_consumer (rs : responseStream) (st : St) :
  exists continue,
    consumed yield st (yielded R St (iterate rs st)) continue (fst (iterate rs st)).
Proof.
  pose proof (tokens_turns_answered st (r_tokens rs) (st, [])
                (consumed_none yield st)) as Hrun.
  destruct (iterate_of_loop rs st) as (-> & _ & ->).
  eexists. exact Hrun.
Qed.

End IteratorRuns.

(** ** Chunked Uploader: every run *)

Section UploaderRuns.

Variable File : Type.
Variable zeroFile : File.
Variable Reader : Type.
Variable Read : Reader -> Z -> (Z * list byte * option error) * Reader.
Variable Server : Type.
Variable Do : Server -> Request.t -> (Response.t + error) * Server.
Variable newRequestError : string -> option error.
Variable mergedHeaders : http.Header.
Variable unmarshalErr :
  list byte -> responseWithError -> responseWithError * option error.
Variable unmarshalMap :
  list byte -> option (gmap string any) -> option (gmap string any) * option error.
Variable jsonEncode : gmap string any -> list byte * option error.
Variable unmarshalFile : list byte -> option File -> option File * option error.

Local Abbreviation run_t := (upload_run Reader Server).
Local Abbreviation finish :=
  (uploadFile_finish File zeroFile Reader Server jsonEncode unmarshalFile).
Local Abbreviation turn_of :=
  (uploadFile_turn File zeroFile Reader Read Server Do newRequestError mergedHeaders
     unmarshalErr unmarshalMap jsonEncode unmarshalFile).
Local Abbreviation loop :=
  (uploadFile_loop File zeroFile Reader Read Server Do newRequestError mergedHeaders
     unmarshalErr unmarshalMap jsonEncode unmarshalFile).
Local Abbreviation upload :=
  (uploadFile File zeroFile Reader Read Server Do newRequestError mergedHeaders
     unmarshalErr unmarshalMap jsonEncode unmarshalFile).
Local Abbreviation request := (chunk_request mergedHeaders).
Local Abbreviation to_map := (mapToStruct File jsonEncode unmarshalFile).

(** The request of the chunk number [i] of an upload of [size] bytes. *)
Local Abbreviation chunk_of url size i buffer :=
  (request url
     (if size <=? (Z.of_nat i + 1) * maxChunkSize then "upload, finalize" else "upload")
     (Z.of_nat i * maxChunkSize)
     (Z.min maxChunkSize (size - Z.of_nat i * maxChunkSize)) buffer).






(** X24.  A negative size.  The size of the first chunk is then negative,
    and making the buffer for it panics, before anything is read or
    sent. *)
Theorem uploadFile_negative_size_panics (rd : Reader) (sv : Server) (url : string)
    (uploadSize : Z) :
  in_int64 uploadSize -> uploadSize < 0 ->
  upload rd sv url uploadSize
    = Some (Panics "makeslice: len out of range",
            {| sent := []; received := []; reader := rd; server := sv |}).
Proof.
  intros Hsize Hneg. unfold uploadFile, upload_turns. cbn [uploadFile_loop].
  unfold uploadFile_turn.
  assert (Hchunk : chunk_size uploadSize 0 < 0).
  { apply chunk_size_negative; rewrite Z.sub_0_r; assumption. }
  destruct (Z.ltb_spec (chunk_size uploadSize 0) 0); [reflexivity | lia].
Qed.

(** X25.  A short read.  The chunk is read with one call of [Read]; when
    that delivers fewer bytes than the chunk has, and no error, as a
    reader may, the upload fails, and the chunk is not sent.  An error of
    the read ends the upload in the same way. *)
Theorem uploadFile_short_read_fails (rd rd' : Reader) (sv : Server) (url : string)
    (uploadSize bytesRead : Z) (buffer : list byte) (rerr : option error) :
  in_int64 uploadSize -> 0 <= uploadSize ->
  Read rd (Z.min maxChunkSize uploadSize) = (bytesRead, buffer, rerr, rd') ->
  (rerr = None -> bytesRead <> Z.min maxChunkSize uploadSize) ->
  upload rd sv url uploadSize
    = Some (Returns
              (None,
               Some (match rerr with
                     | Some err =>
                         Errorf "Failed to read %d bytes from file at offset %d: %w"
                           [AInt (Z.min maxChunkSize uploadSize); AInt 0] (Some err)
                     | None =>
                         Errorf "Failed to read %d bytes from file at offset %d. bytes actually read: %d"
                           [AInt (Z.min maxChunkSize uploadSize); AInt 0; AInt bytesRead]
                           None
                     end)),
            {| sent := []; received := []; reader := rd'; server := sv |}).
Proof.
  intros Hsize Hpos Hread Hshort.
  assert (Hmax : 0 < maxChunkSize) by reflexivity.
  unfold uploadFile, upload_turns. cbn [uploadFile_loop]. unfold uploadFile_turn.
  assert (Hchunk : chunk_size uploadSize 0 = Z.min maxChunkSize uploadSize).
  { rewrite chunk_size_remaining; rewrite Z.sub_0_r; auto. }
  rewrite Hchunk.
  destruct (Z.ltb_spec (Z.min maxChunkSize uploadSize) 0); [lia |].
  cbn [reader]. rewrite Hread.
  destruct rerr as [err|]; [reflexivity |].
  specialize (Hshort eq_refl). apply Z.eqb_neq in Hshort. rewrite Hshort. reflexivity.
Qed.



End UploaderRuns.


Lemma uploadFile_negative_size_panics_witness :
  uploadFile string "" Z zeroSource_Read nat example_Do (fun _ => None) ∅
    example_Unmarshal_responseWithError example_Unmarshal_map
    example_Encode example_Unmarshal_File
    5 0%nat "https://upload.example/session" (-1)
  = Some (Panics "makeslice: len out of range", mkUploadRun [] [] 5 0%nat).
Proof.
  apply (uploadFile_negative_size_panics string "" Z zeroSource_Read nat example_Do
           (fun _ => None) ∅ example_Unmarshal_responseWithError example_Unmarshal_map
           example_Encode example_Unmarshal_File 5 0%nat "https://upload.example/session" (-1)).
  - unfold in_int64. split; [vm_compute; intros H; discriminate H | reflexivity].
  - reflexivity.
Defined.

Lemma uploadFile_short_read_fails_witness :
  uploadFile string "" Z shortSource_Read nat example_Do (fun _ => None) ∅
    example_Unmarshal_responseWithError example_Unmarshal_map
    example_Encode example_Unmarshal_File
    5 0%nat "https://upload.example/session" 5
  = Some (Returns
            (None,
             Some (Errorf "Failed to read %d bytes from file at offset %d. bytes actually read: %d"
                     [AInt (Z.min maxChunkSize 5); AInt 0; AInt 4] None)),
          mkUploadRun [] [] 1 0%nat).
Proof.
  apply (uploadFile_short_read_fails string "" Z shortSource_Read nat example_Do
           (fun _ => None) ∅ example_Unmarshal_responseWithError example_Unmarshal_map
           example_Encode example_Unmarshal_File 5 1 0%nat "https://upload.example/session"
           5 4 (zeros 4) None).
  - unfold in_int64. split; [vm_compute; intros H; discriminate H | reflexivity].
  - discriminate.
  - reflexivity.
  - intros _ H. discriminate H.
Defined.


(** ** Stream Decoder: a stream of events *)

Section IteratorStreams.

Variables (R St : Type).
Variable unmarshalMap :
  list byte -> option (gmap string any) -> option (gmap string any) * option error.
Variable responseConverter : option (gmap string any) -> option R * option error.
Variable yield : option R * option error -> St -> bool * St.

Hypothesis yield_pulls : forall it st, fst (yield it st) = true.

(** X22.  A stream of well-formed tokens is decoded in full.  When every
    token is a [data:] token that decodes into an event, or is empty, a
    consumer that keeps pulling gets the events, in order, one item for
    each event, each with a nil error, and nothing for the empty
    tokens. *)
Theorem well_formed_stream_decodes (tokens : list (list byte)) (events : list (option R))
    (st : St) :
  Forall2 (fun line ev =>
             match ev with
             | Some ev => well_formed_token R unmarshalMap responseConverter line ev
             | None => line = []
             end) tokens events ->
  items_of R St unmarshalMap responseConverter yield tokens st
    = omap (fun ev => match ev with Some ev => Some (Some ev, None) | None => None end)
        events.
Proof.
  intros Hall. rewrite (items_of_events R St unmarshalMap responseConverter yield yield_pulls).
  induction Hall as [|line ev tokens events Hline Hall IH]; [reflexivity |].
  cbn [map concat omap]. rewrite omap_app, IH.
  destruct ev as [ev|].
  - rewrite (well_formed_token_items R unmarshalMap responseConverter line ev);
      [reflexivity | | exact Hline].
    exact (well_formed_token_nonempty R unmarshalMap responseConverter line ev Hline).
  - subst line. reflexivity.
Qed.

End IteratorStreams.

Lemma well_formed_stream_decodes_witness :
  items_of nat unit example_Unmarshal_map accepting_converter always_pull
    [dataToken; []; dataToken] tt
  = [(Some 0%nat, None); (Some 0%nat, None)].
Proof.
  apply (well_formed_stream_decodes nat unit example_Unmarshal_map accepting_converter
           always_pull (fun _ _ => eq_refl) [dataToken; []; dataToken]
           [Some 0%nat; None; Some 0%nat] tt).
  repeat constructor; exists (Some ∅); split; reflexivity.
Defined.

Lemma iterateResponseStream_obeys_consumer_witness :
  exists continue,
    consumed stop_at_error 0%nat
      (yielded nat nat
         (iterateResponseStream nat nat example_Unmarshal_map accepting_converter
            stop_at_error (mkResponseStream [dataToken; pingToken; dataToken] None None)
            0%nat))
      continue 1%nat.
Proof.
  destruct (iterateResponseStream_obeys_consumer nat nat example_Unmarshal_map
              accepting_converter stop_at_error
              (mkResponseStream [dataToken; pingToken; dataToken] None None) 0%nat)
    as [continue H].
  exists continue. exact H.
Defined.

(** ** Sending requests *)

Section SendingFacts.

Variable URL : Type.
Variable url_Parse : string -> URL + error.
Variable URL_String : URL -> string.
Variable version : string.
Variable runtime_Version : string.
Variable doMergeHeaders : http.Header -> http.Header -> http.Header.
Variable jsonEncode : gmap string any -> list byte * option error.
Variable newRequestError : string -> string -> option error.
Variable Server : Type.
Variable Do : Server -> Request.t -> (Response.t + error) * Server.
Variable unmarshalErr :
  list byte -> responseWithError -> responseWithError * option error.
Variable unmarshalMap :
  list byte -> option (gmap string any) -> option (gmap string any) * option error.
Variable bufioScanner :
  (list byte -> bool -> Z * option (list byte) * option error) -> Z ->
  list byte * option error -> list (list byte) * option error.
Variable bodyClose : Response.t -> option error.

Local Abbreviation request_of :=
  (buildRequest URL url_Parse URL_String version runtime_Version doMergeHeaders
     jsonEncode newRequestError).
Local Abbreviation send :=
  (sendRequest URL url_Parse URL_String version runtime_Version doMergeHeaders
     jsonEncode newRequestError Server Do unmarshalErr unmarshalMap).
Local Abbreviation send_stream :=
  (sendStreamRequest URL url_Parse URL_String version runtime_Version doMergeHeaders
     jsonEncode newRequestError Server Do unmarshalErr bufioScanner bodyClose).
Local Abbreviation stream_of := (deserializeStreamResponse unmarshalErr bufioScanner bodyClose).

Lemma sendRequest_calls (sv : Server) (ac : apiClient)
    (path method : string) (body : gmap string any) (httpOptions : option HTTPOptions) :
  let '(res, sv', calls) := send sv ac path method body httpOptions in
  match calls with
  | [] =>
      sv' = sv /\
      (forall req, request_of ac path body method httpOptions <> Returns (Some req, None)) /\
      (forall payload err, res = Returns (payload, err) -> payload = None)
  | [CallDo req] =>
      request_of ac path body method httpOptions = Returns (Some req, None) /\
      exists err,
        Do sv req = (inr err, sv') /\
        res = Returns (None, Some (Errorf "doRequest: error sending request: %w" []
                                     (Some err)))
  | [CallDo req; CallClose resp] =>
      request_of ac path body method httpOptions = Returns (Some req, None) /\
      Do sv req = (inl resp, sv') /\
      res = deserializeUnaryResponse unmarshalErr unmarshalMap resp /\
      (forall payload err, res = Returns (Some payload, err) ->
         200 <= Response.StatusCode resp < 300)
  | _ => False
  end.
Proof.
  unfold sendRequest.
  destruct (request_of ac path body method httpOptions) as [[[req|] [err|]] | reason].
  - split; [reflexivity |]. split; [discriminate |].
    intros payload e H; now injection H as <- _.
  - unfold doRequest. destruct (Do sv req) as [[resp | derr] sv1] eqn:Hdo.
    + split; [reflexivity |]. split; [exact Hdo |]. split; [reflexivity |].
      intros payload err Hres.
      destruct (httpStatusOk resp) eqn:Hok; [now apply httpStatusOk_iff |].
      rewrite (deserializeUnaryResponse_error_status _ _ _ Hok) in Hres.
      destruct (newAPIError unmarshalErr resp); discriminate Hres.
    + split; [reflexivity |]. exists derr. split; [exact Hdo | reflexivity].
  - split; [reflexivity |]. split; [discriminate |].
    intros payload e H; now injection H as <- _.
  - split; [reflexivity |]. split; [discriminate |]. discriminate.
  - split; [reflexivity |]. split; [discriminate |]. discriminate.
Qed.

Lemma sendStreamRequest_calls (sv : Server) (ac : apiClient)
    (path method : string) (body : gmap string any) (httpOptions : option HTTPOptions)
    (output : responseStream) :
  let '(res, sv', calls) := send_stream sv ac path method body httpOptions output in
  (forall resp, CallClose resp ∉ calls) /\
  (forall req resp,
     request_of ac path body method httpOptions = Returns (Some req, None) ->
     Do sv req = (inl resp, sv') ->
     calls = [CallDo req] /\
     (200 <= Response.StatusCode resp < 300 ->
        res = Returns ({| r_tokens := fst (bufioScanner scan 268435456 (Response.Body resp));
                          r_Err := snd (bufioScanner scan 268435456 (Response.Body resp));
                          rc_Close := bodyClose resp |}, None)) /\
     (~ 200 <= Response.StatusCode resp < 300 ->
        res = (e <-! newAPIError unmarshalErr resp ;; Returns (output, Some e)))).
Proof.
  unfold sendStreamRequest.
  destruct (request_of ac path body method httpOptions) as [[[req|] [err|]] | reason];
    try (split; [intros resp H; inversion H | discriminate]).
  unfold doRequest. destruct (Do sv req) as [[resp | derr] sv1] eqn:Hdo.
  - split.
    + intros r H. apply list_elem_of_singleton in H. discriminate H.
    + intros req' resp' Hreq Hdo'. injection Hreq as <-.
      rewrite Hdo in Hdo'. injection Hdo' as <-.
      split; [reflexivity |]. unfold deserializeStreamResponse. split.
      * intros Hok. apply httpStatusOk_iff in Hok. rewrite Hok. simpl negb. cbv iota.
        now destruct (bufioScanner scan 268435456 (Response.Body resp)).
      * intros Hnok.
        assert (Hst : httpStatusOk resp = false).
        { destruct (httpStatusOk resp) eqn:E; [| reflexivity].
          now apply httpStatusOk_iff in E. }
        now rewrite Hst.
  - split.
    + intros r H. apply list_elem_of_singleton in H. discriminate H.
    + intros req' resp' Hreq Hdo'. injection Hreq as <-.
      rewrite Hdo in Hdo'. discriminate Hdo'.
Qed.

(** X27.  Who closes the body of a response.  [sendRequest] sends at
    most one request, the one [buildRequest] built, and none when that
    fails; a response it receives is decoded by
    [deserializeUnaryResponse], and its body is closed once, also when the
    decoding returns an error or panics; a payload comes only from a
    status in [200, 300).  [sendStreamRequest] never closes the body: for
    a status in [200, 300) the body goes into the stream it returns, whose
    scanner splits it with [scan] into tokens of at most 256 MB, and is
    left to the iterator to close; for any other status the error of
    [newAPIError] is returned, the stream is left as it was, and the body
    stays open. *)
Theorem sendRequest_closes_the_body (sv : Server) (ac : apiClient)
    (path method : string) (body : gmap string any) (httpOptions : option HTTPOptions)
    (output : responseStream) :
  (let '(res, sv', calls) := send sv ac path method body httpOptions in
   match calls with
   | [] =>
       sv' = sv /\
       (forall req, request_of ac path body method httpOptions <> Returns (Some req, None)) /\
       (forall payload err, res = Returns (payload, err) -> payload = None)
   | [CallDo req] =>
       request_of ac path body method httpOptions = Returns (Some req, None) /\
       exists err,
         Do sv req = (inr err, sv') /\
         res = Returns (None, Some (Errorf "doRequest: error sending request: %w" []
                                      (Some err)))
   | [CallDo req; CallClose resp] =>
       request_of ac path body method httpOptions = Returns (Some req, None) /\
       Do sv req = (inl resp, sv') /\
       res = deserializeUnaryResponse unmarshalErr unmarshalMap resp /\
       (forall payload err, res = Returns (Some payload, err) ->
          200 <= Response.StatusCode resp < 300)
   | _ => False
   end) /\
  (let '(res, sv', calls) := send_stream sv ac path method body httpOptions output in
   (forall resp, CallClose resp ∉ calls) /\
   (forall req resp,
      request_of ac path body method httpOptions = Returns (Some req, None) ->
      Do sv req = (inl resp, sv') ->
      calls = [CallDo req] /\
      (200 <= Response.StatusCode resp < 300 ->
         res = Returns ({| r_tokens := fst (bufioScanner scan 268435456 (Response.Body resp));
                           r_Err := snd (bufioScanner scan 268435456 (Response.Body resp));
                           rc_Close := bodyClose resp |}, None)) /\
      (~ 200 <= Response.StatusCode resp < 300 ->
         res = (e <-! newAPIError unmarshalErr resp ;; Returns (output, Some e))))).
Proof.
  split.
  - apply sendRequest_calls.
  - apply sendStreamRequest_calls.
Qed.

End SendingFacts.

(** ** Realtime Session: [Connect] and [Receive] *)

Section LiveFacts.

Variable URL : Type.
Variable url_Parse : string -> URL + error.
Variable URL_Scheme : URL -> string.
Variable URL_Host : URL -> string.
Variable url_String : string -> string -> string -> string -> string.
Variable baseURL : string.
Variable TokenSource_Token : string + error.
Variables (GenerationConfig_t SystemInstruction_t Tool_t : Type).
Variables (LiveClientMessage LiveServerMessage : Type).
Variable setupMessage :
  @LiveClientSetup GenerationConfig_t SystemInstruction_t Tool_t -> LiveClientMessage.
Variable json_Marshal : LiveClientMessage -> list byte * option error.
Variable json_Unmarshal_message : list byte -> LiveServerMessage * option error.
Variable Network : Type.
Variable Conn : Type.
Variable Dial : Network -> string -> http.Header -> (Conn + error) * Network.
Variable WriteMessage : Conn -> Z -> list byte -> option error * Conn.
Variable ReadMessage : Conn -> (Z * list byte * option error) * Conn.

Local Abbreviation connect :=
  (Connect URL url_Parse URL_Scheme URL_Host url_String baseURL TokenSource_Token
     GenerationConfig_t SystemInstruction_t Tool_t LiveClientMessage setupMessage
     json_Marshal Network Conn Dial WriteMessage).
Local Abbreviation target := (live_target URL URL_Scheme URL_Host url_String).
Local Abbreviation receive :=
  (Receive LiveServerMessage json_Unmarshal_message Conn ReadMessage).

(** The connection is dialed with the target of the backend. *)
Lemma Connect_dials (net : Network) (ac : apiClient) (model : string)
    (config : option (@LiveConnectConfig GenerationConfig_t SystemInstruction_t Tool_t))
    (parsed : URL) (accessToken : string) :
  url_Parse baseURL = inl parsed ->
  (backend (clientConfig ac) = BackendVertexAI -> TokenSource_Token = inl accessToken) ->
  connect net ac model config
    = let '(u, header) := target ac parsed accessToken in
      let '(dialed, net') := Dial net u header in
      match dialed with
      | inr err =>
          ((None, Some (Errorf "Connect to %s failed: %w" [AStr u] (Some err))), net',
           [CallDial u header])
      | inl conn =>
          match tModelFullName ac (AStr model) with
          | (_, Some err) => ((None, Some err), net', [CallDial u header])
          | (m, None) =>
              let '(clientBytes, err) := json_Marshal (setupMessage (live_setup _ _ _ m config)) in
              match err with
              | Some err =>
                  ((None, Some (Errorf "marshal LiveClientSetup failed: %w" [] (Some err))),
                   net', [CallDial u header])
              | None =>
                  ((Some {| conn := snd (WriteMessage conn websocket_TextMessage clientBytes);
                            session_apiClient := ac |}, None), net',
                   [CallDial u header; CallWriteMessage websocket_TextMessage clientBytes])
              end
          end
      end.
Proof.
  intros Hparse Htoken. unfold Connect, live_target, live_scheme. rewrite Hparse.
  assert (Hscheme : (if negb (String.eqb (URL_Scheme parsed) "wss") &&
                        negb (String.eqb (URL_Scheme parsed) "ws")
                     then "wss" else URL_Scheme parsed)
                    = if String.eqb (URL_Scheme parsed) "ws" then "ws" else "wss").
  { destruct (String.eqb_spec (URL_Scheme parsed) "wss") as [-> | Hwss]; [reflexivity |].
    destruct (String.eqb_spec (URL_Scheme parsed) "ws") as [-> | Hws]; reflexivity. }
  rewrite Hscheme.
  assert (Hsetup : forall m,
            match config with
            | Some config0 =>
                {| setup_Model := m;
                   setup_GenerationConfig := config_GenerationConfig _ _ _ config0;
                   setup_SystemInstruction := config_SystemInstruction _ _ _ config0;
                   setup_Tools := config_Tools _ _ _ config0 |}
            | None =>
                {| setup_Model := m; setup_GenerationConfig := None;
                   setup_SystemInstruction := None; setup_Tools := [] |}
            end = live_setup _ _ _ m config).
  { intros m. now destruct config. }
  destruct (backend (clientConfig ac)) eqn:Hb.
  - rewrite bool_decide_eq_false_2 by discriminate.
    destruct (Dial net _ ∅) as [[conn | derr] net']; [| reflexivity].
    destruct (tModelFullName ac (AStr model)) as [m [merr|]]; [reflexivity |].
    rewrite Hsetup. destruct (json_Marshal _) as [bytes [jerr|]]; [reflexivity |].
    now destruct (WriteMessage conn websocket_TextMessage bytes).
  - rewrite bool_decide_eq_true_2 by reflexivity. rewrite (Htoken eq_refl).
    assert (Hheader : ({["Content-Type" := ["application/json"]]} ∪
                       {["Authorization" := ["Bearer " +:+ accessToken]]} : http.Header)
                      = <["Authorization" := ["Bearer " +:+ accessToken]]>
                          {["Content-Type" := ["application/json"]]}).
    { rewrite insert_union_singleton_l. apply map_union_comm.
      apply map_disjoint_singleton_l_2. now rewrite lookup_singleton_ne. }
    rewrite Hheader.
    destruct (Dial net _ _) as [[conn | derr] net']; [| reflexivity].
    destruct (tModelFullName ac (AStr model)) as [m [merr|]]; [reflexivity |].
    rewrite Hsetup. destruct (json_Marshal _) as [bytes [jerr|]]; [reflexivity |].
    now destruct (WriteMessage conn websocket_TextMessage bytes).
Qed.


(** X29.  What [Connect] sends.  With a base URL that parses, a token (on
    the hosted backend), a dial that succeeds and a model that
    [tModelFullName] accepts, [Connect] dials once -- with the scheme of
    the base URL if that is [ws] or [wss], and with [wss] otherwise; with
    the API key in the query on the direct backend, and the token in the
    [Authorization] header on the hosted one -- and writes one text frame:
    the setup, with the full name of the model and the fields of the
    configuration, as JSON.  It returns the session whatever the write
    returned: an error of the write is lost. *)
Theorem Connect_sends_setup (net net' : Network) (ac : apiClient) (model name : string)
    (config : option (@LiveConnectConfig GenerationConfig_t SystemInstruction_t Tool_t))
    (parsed : URL) (accessToken : string) (conn : Conn) (data : list byte) :
  url_Parse baseURL = inl parsed ->
  (backend (clientConfig ac) = BackendVertexAI -> TokenSource_Token = inl accessToken) ->
  Dial net (fst (target ac parsed accessToken)) (snd (target ac parsed accessToken))
    = (inl conn, net') ->
  tModelFullName ac (AStr model) = (name, None) ->
  json_Marshal (setupMessage (live_setup _ _ _ name config)) = (data, None) ->
  connect net ac model config
    = ((Some {| conn := snd (WriteMessage conn websocket_TextMessage data);
                session_apiClient := ac |}, None), net',
       [CallDial (fst (target ac parsed accessToken)) (snd (target ac parsed accessToken));
        CallWriteMessage websocket_TextMessage data]) /\
  (live_scheme URL URL_Scheme parsed = URL_Scheme parsed \/
   live_scheme URL URL_Scheme parsed = "wss" /\
   URL_Scheme parsed <> "ws" /\ URL_Scheme parsed <> "wss").
Proof.
  intros Hparse Htoken Hdial Hname Hmarshal. split.
  - rewrite (Connect_dials net ac model config parsed accessToken Hparse Htoken).
    destruct (target ac parsed accessToken) as [u header]. simpl in Hdial.
    now rewrite Hdial, Hname, Hmarshal.
  - unfold live_scheme.
    destruct (String.eqb_spec (URL_Scheme parsed) "ws") as [Hws | Hws]; [now left |].
    destruct (String.eqb_spec (URL_Scheme parsed) "wss") as [Hwss | Hwss]; [now left |].
    right. auto.
Qed.

(** X30.  [Receive] returns a message or an error, never both and never
    neither.  An error of the read is returned as it is; a frame that
    does not decode is answered with a new error that names the frame
    and does not wrap the error of the decoder; in every case the session
    keeps the connection as the read left it. *)
Theorem Receive_message_or_error (s : Session Conn) :
  let '(messageType, msgBytes, readErr, c) := ReadMessage (conn s) in
  snd (receive s) = {| conn := c; session_apiClient := session_apiClient s |} /\
  fst (receive s)
    = match readErr with
      | Some err => (None, Some err)
      | None =>
          match json_Unmarshal_message msgBytes with
          | (message, None) => (Some message, None)
          | (_, Some _) =>
              (None,
               Some (Errorf "invalid message format. messageType: %d, message: %s"
                       [AInt messageType; AStr (string_of_list_byte msgBytes)] None))
          end
      end /\
  (fst (fst (receive s)) = None <-> snd (fst (receive s)) <> None).
Proof.
  unfold Receive.
  destruct (ReadMessage (conn s)) as [[[messageType msgBytes] [rerr|]] c]; simpl.
  - split; [reflexivity |]. split; [reflexivity |]. split; [discriminate | reflexivity].
  - destruct (json_Unmarshal_message msgBytes) as [message [uerr|]]; simpl.
    + split; [reflexivity |]. split; [reflexivity |]. split; [discriminate | reflexivity].
    + split; [reflexivity |]. split; [reflexivity |].
      split; [discriminate | intros H; now destruct H].
Qed.

End LiveFacts.


Lemma Connect_sends_setup_witness :
  Connect string (fun text => inl text)
    (fun u => GoStrings.take 5 u) (fun u => GoStrings.drop 8 u) example_url_String
    "https://live.example" (inl "t0")
    unit unit unit (@LiveClientSetup unit unit unit) (fun setup => setup)
    example_Marshal_setup nat recordingConn example_Dial recording_WriteMessage
    0%nat (vertexClient "p" "l") "gemini" None
  = ((Some (mkSession
              (snd (recording_WriteMessage [] websocket_TextMessage
                      (list_byte_of_string
                         "projects/p/locations/l/publishers/google/models/gemini")))
              (vertexClient "p" "l")), None),
     1%nat,
     [CallDial
        "wss://live.example/ws/google.cloud.aiplatform.v1beta1.LlmBidiService/BidiGenerateContent"
        (<["Authorization" := ["Bearer t0"]]> {["Content-Type" := ["application/json"]]});
      CallWriteMessage websocket_TextMessage
        (list_byte_of_string "projects/p/locations/l/publishers/google/models/gemini")]).
Proof.
  destruct (Connect_sends_setup string (fun text => inl text)
              (fun u => GoStrings.take 5 u) (fun u => GoStrings.drop 8 u) example_url_String
              "https://live.example" (inl "t0")
              unit unit unit (@LiveClientSetup unit unit unit) (fun setup => setup)
              example_Marshal_setup nat recordingConn example_Dial recording_WriteMessage
              0%nat 1%nat (vertexClient "p" "l") "gemini"
              "projects/p/locations/l/publishers/google/models/gemini" None
              "https://live.example" "t0" []
              (list_byte_of_string "projects/p/locations/l/publishers/google/models/gemini")
              eq_refl (fun _ => eq_refl) eq_refl eq_refl eq_refl) as [H _].
  exact H.
Defined.
